(** * voxsprite: the reactive engine of the microphone-driven avatar

    A shallow embedding of the loudness sampler ([audio.py], class [Mic]),
    the avatar window ([widgets/avatar.py], class [AvatarWindow]) and the
    polling loop of the control panel ([ui/panel.py], class [PanelWindow]).

    Conventions of the embedding.
    - A Python [float] is a binary64 number: Rocq's primitive [float], whose
      arithmetic and comparisons are the IEEE 754 ones Python uses.  Decimal
      literals denote the nearest binary64 value, as they do in Python.
    - A method is a computation on the whole program state [World]: it returns
      a value or raises, and the state it has written so far stays written when
      it raises (Python does not roll back).
    - The clock ([time.time()]), the random generator ([random]) and the image
      files on disk are the environment: the clock reading is an argument of
      the tick, the generator and the readable files are part of [World].
    - Calls into Qt that have no result the program reads (label, timers,
      message boxes) are appended to [gui], newest first.

    Left out: the numpy arithmetic of the audio callback (the callback is
    given the reading it computed), the opening of the audio stream (taken to
    succeed), window geometry, styling and localisation.  The settings are
    typed: a number is a float, a path is a string. *)

From Stdlib Require Import ZArith List Bool String Lia Floats Sorted Permutation.
Import ListNotations.
#[local] Set Warnings "-inexact-float".

(* ================================================================== *)
(** * Part I: the program *)
(* ================================================================== *)

(** ** Python builtins on floats *)

Inductive exn : Type :=
| OverflowError   (* int(inf) *)
| ValueError      (* int(nan) *)
| OSError.        (* an image file that cannot be opened *)

Inductive result (A : Type) : Type :=
| Ok (a : A)
| Raise (e : exn).
Arguments Ok {A} a.
Arguments Raise {A} e.

Module Py.
#[local] Open Scope float_scope.

(** [x >= y] and [x > y]: false as soon as one side is a NaN. *)
Definition ge (x y : float) : bool := y <=? x.
Definition gt (x y : float) : bool := y <? x.

(** [max(a, b)]: the second argument replaces the first only when it is
    strictly greater, so [max(a, nan) = a]. *)
Definition max (a b : float) : float := if gt b a then b else a.

(** [min(a, b)]: the second argument replaces the first only when it is
    strictly smaller. *)
Definition min (a b : float) : float := if b <? a then b else a.

(** [int(x)]: truncation toward zero; [OverflowError] on an infinity,
    [ValueError] on a NaN. *)
Definition int (x : float) : result Z :=
  match Prim2SF x with
  | S754_nan => Raise ValueError
  | S754_infinity _ => Raise OverflowError
  | S754_zero _ => Ok 0%Z
  | S754_finite s m e =>
      let magnitude := Z.shiftl (Zpos m) e in
      Ok (if s then Z.opp magnitude else magnitude)
  end.

End Py.

(** ** The [random] module

    The generator is an oracle: [unit_draws] lists the results of successive
    [random.random()] calls (numbers of [[0, 1)]) and [index_draws] the raw
    draws behind [random.randrange]; [cursor] counts the draws consumed. *)
Module random.
#[local] Open Scope float_scope.

Record state : Type := {
  unit_draws : nat -> float;
  index_draws : nat -> nat;
  cursor : nat
}.

Definition advance (g : state) : state :=
  {| unit_draws := unit_draws g; index_draws := index_draws g; cursor := S (cursor g) |}.

Definition random (g : state) : float * state :=
  (unit_draws g (cursor g), advance g).

(** [random.uniform(a, b)] is [a + (b - a) * random()]. *)
Definition uniform (a b : float) (g : state) : float * state :=
  let (u, g') := random g in (a + (b - a) * u, g').

(** [random.randrange(n)] for [n > 0]: some index below [n]. *)
Definition randrange (n : nat) (g : state) : nat * state :=
  (Nat.modulo (index_draws g (cursor g)) n, advance g).

End random.

(** ** [list.sort(key=...)]

    Python's sort is stable and compares keys with [<]: an element moves in
    front of another only when its key is strictly smaller. *)
Fixpoint sort_insert {A : Type} (key : A -> float) (x : A) (l : list A) : list A :=
  match l with
  | [] => [x]
  | y :: l' => if (key y <? key x)%float then y :: sort_insert key x l' else x :: l
  end.

Fixpoint list_sort {A : Type} (key : A -> float) (l : list A) : list A :=
  match l with
  | [] => []
  | x :: l' => sort_insert key x (list_sort key l')
  end.

(** ** Data *)

(** A scaled image, as [load_scaled(path, width)] returns it. *)
Record QPixmap : Type := { source_path : string; scaled_width : Z }.

(** What the avatar's [QLabel] shows. *)
Inductive label_content : Type :=
| label_empty
| label_text (key : string)
| label_pixmap (p : QPixmap).

(** The calls into Qt (and the traceback printer) the engine makes. *)
Inductive gui_call : Type :=
| label_setText (text : string)
| label_setPixmap (p : QPixmap)
| idle_timer_start (msec : Z)
| idle_timer_stop
| level_meter_update
| timer_stop
| traceback_print_exc
| QMessageBox_critical (title : string)
| QMessageBox_warning (title : string).

(** [config.py]: the settings dictionary.  Every key is present once
    [load_cfg] has merged the file into [DEFAULT_CFG]; numbers are taken after
    the [float(...)] and [int(...)] conversions the readers apply, and the
    paths of the talk image and of the talk frames after [str(...).strip()]. *)
Module config.

Record talk_frame : Type := { image : string; threshold : float }.

Record Values : Type := {
  idle_image : string;
  talk_image : string;
  talk_frames : list talk_frame;
  width : Z;
  talk_th : float;
  idle_frames : list string;
  idle_anim_random : bool;
  idle_interval_min : float;
  idle_interval_max : float
}.

Definition DEFAULT_CFG : Values :=
  {| idle_image := ""; talk_image := ""; talk_frames := []; width := 512;
     talk_th := 0.03; idle_frames := []; idle_anim_random := false;
     idle_interval_min := 0.2; idle_interval_max := 0.6 |}.

End config.

(** [AvatarWindow]: the fields of [widgets/avatar.py] the engine uses.
    [idle_timer] is the [QTimer]: [None] when stopped, [Some msec] when
    running with that interval. *)
Record AvatarWindow : Type := {
  label : label_content;
  idle_pix_list : list QPixmap;
  idle_index : nat;
  talk_pix : option QPixmap;
  talk_variants : list (float * QPixmap);
  talk_level : float;
  is_talking : bool;
  idle_random : bool;
  idle_interval_min : float;
  idle_interval_max : float;
  idle_timer : option Z
}.

(** [Mic]: the queue between the audio callback and the poller, oldest
    reading first. *)
Record Mic : Type := { _rms_queue : list float }.

(** [PanelWindow]: the fields of [ui/panel.py] the polling loop uses;
    [timer] is whether the 60 ms polling timer is active. *)
Record PanelWindow : Type := {
  values : config.Values;
  level : float;
  last_switch : float;
  _mic_error_notified : bool;
  timer : bool
}.

(** The program state: the three objects, the level meter's reading, and the
    environment. *)
Record World : Type := {
  panel : PanelWindow;
  avatar : AvatarWindow;
  mic : Mic;
  level_meter : float;
  rng : random.state;
  readable : string -> bool;
  gui : list gui_call
}.

(** ** Computations that may raise *)

Definition M (A : Type) : Type := World -> result A * World.

Definition ret {A : Type} (a : A) : M A := fun w => (Ok a, w).

Definition bind {A B : Type} (m : M A) (k : A -> M B) : M B :=
  fun w =>
    match m w with
    | (Ok a, w') => k a w'
    | (Raise e, w') => (Raise e, w')
    end.

Definition raise {A : Type} (e : exn) : M A := fun w => (Raise e, w).

(** [try: body  except Exception as e: handler(e)] *)
Definition try_except {A : Type} (body : M A) (handler : exn -> M A) : M A :=
  fun w =>
    match body w with
    | (Ok a, w') => (Ok a, w')
    | (Raise e, w') => handler e w'
    end.

(** The outcome of a pure computation that may raise. *)
Definition lift_result {A : Type} (r : result A) : M A :=
  match r with
  | Ok a => ret a
  | Raise e => raise e
  end.

Notation "x <- m ;; k" := (bind m (fun x => k))
  (at level 61, m at next level, right associativity).
Notation "m ;;; k" := (bind m (fun _ => k))
  (at level 61, right associativity).

(** Field updates. *)
Definition with_avatar (a : AvatarWindow) (w : World) : World :=
  {| panel := panel w; avatar := a; mic := mic w; level_meter := level_meter w;
     rng := rng w; readable := readable w; gui := gui w |}.
Definition with_panel (p : PanelWindow) (w : World) : World :=
  {| panel := p; avatar := avatar w; mic := mic w; level_meter := level_meter w;
     rng := rng w; readable := readable w; gui := gui w |}.
Definition with_mic (q : Mic) (w : World) : World :=
  {| panel := panel w; avatar := avatar w; mic := q; level_meter := level_meter w;
     rng := rng w; readable := readable w; gui := gui w |}.
Definition with_level_meter (x : float) (w : World) : World :=
  {| panel := panel w; avatar := avatar w; mic := mic w; level_meter := x;
     rng := rng w; readable := readable w; gui := gui w |}.
Definition with_rng (g : random.state) (w : World) : World :=
  {| panel := panel w; avatar := avatar w; mic := mic w; level_meter := level_meter w;
     rng := g; readable := readable w; gui := gui w |}.
Definition with_gui (l : list gui_call) (w : World) : World :=
  {| panel := panel w; avatar := avatar w; mic := mic w; level_meter := level_meter w;
     rng := rng w; readable := readable w; gui := l |}.

Definition set_label (x : label_content) (a : AvatarWindow) : AvatarWindow :=
  {| label := x; idle_pix_list := idle_pix_list a; idle_index := idle_index a;
     talk_pix := talk_pix a; talk_variants := talk_variants a; talk_level := talk_level a;
     is_talking := is_talking a; idle_random := idle_random a;
     idle_interval_min := idle_interval_min a; idle_interval_max := idle_interval_max a;
     idle_timer := idle_timer a |}.
Definition set_idle_pix_list (x : list QPixmap) (a : AvatarWindow) : AvatarWindow :=
  {| label := label a; idle_pix_list := x; idle_index := idle_index a;
     talk_pix := talk_pix a; talk_variants := talk_variants a; talk_level := talk_level a;
     is_talking := is_talking a; idle_random := idle_random a;
     idle_interval_min := idle_interval_min a; idle_interval_max := idle_interval_max a;
     idle_timer := idle_timer a |}.
Definition set_idle_index (x : nat) (a : AvatarWindow) : AvatarWindow :=
  {| label := label a; idle_pix_list := idle_pix_list a; idle_index := x;
     talk_pix := talk_pix a; talk_variants := talk_variants a; talk_level := talk_level a;
     is_talking := is_talking a; idle_random := idle_random a;
     idle_interval_min := idle_interval_min a; idle_interval_max := idle_interval_max a;
     idle_timer := idle_timer a |}.
Definition set_talk_pix (x : option QPixmap) (a : AvatarWindow) : AvatarWindow :=
  {| label := label a; idle_pix_list := idle_pix_list a; idle_index := idle_index a;
     talk_pix := x; talk_variants := talk_variants a; talk_level := talk_level a;
     is_talking := is_talking a; idle_random := idle_random a;
     idle_interval_min := idle_interval_min a; idle_interval_max := idle_interval_max a;
     idle_timer := idle_timer a |}.
Definition set_talk_variants (x : list (float * QPixmap)) (a : AvatarWindow) : AvatarWindow :=
  {| label := label a; idle_pix_list := idle_pix_list a; idle_index := idle_index a;
     talk_pix := talk_pix a; talk_variants := x; talk_level := talk_level a;
     is_talking := is_talking a; idle_random := idle_random a;
     idle_interval_min := idle_interval_min a; idle_interval_max := idle_interval_max a;
     idle_timer := idle_timer a |}.
Definition set_talk_level_field (x : float) (a : AvatarWindow) : AvatarWindow :=
  {| label := label a; idle_pix_list := idle_pix_list a; idle_index := idle_index a;
     talk_pix := talk_pix a; talk_variants := talk_variants a; talk_level := x;
     is_talking := is_talking a; idle_random := idle_random a;
     idle_interval_min := idle_interval_min a; idle_interval_max := idle_interval_max a;
     idle_timer := idle_timer a |}.
Definition set_is_talking (x : bool) (a : AvatarWindow) : AvatarWindow :=
  {| label := label a; idle_pix_list := idle_pix_list a; idle_index := idle_index a;
     talk_pix := talk_pix a; talk_variants := talk_variants a; talk_level := talk_level a;
     is_talking := x; idle_random := idle_random a;
     idle_interval_min := idle_interval_min a; idle_interval_max := idle_interval_max a;
     idle_timer := idle_timer a |}.
Definition set_idle_options (r : bool) (lo hi : float) (a : AvatarWindow) : AvatarWindow :=
  {| label := label a; idle_pix_list := idle_pix_list a; idle_index := idle_index a;
     talk_pix := talk_pix a; talk_variants := talk_variants a; talk_level := talk_level a;
     is_talking := is_talking a; idle_random := r;
     idle_interval_min := lo; idle_interval_max := hi;
     idle_timer := idle_timer a |}.
Definition set_idle_timer (x : option Z) (a : AvatarWindow) : AvatarWindow :=
  {| label := label a; idle_pix_list := idle_pix_list a; idle_index := idle_index a;
     talk_pix := talk_pix a; talk_variants := talk_variants a; talk_level := talk_level a;
     is_talking := is_talking a; idle_random := idle_random a;
     idle_interval_min := idle_interval_min a; idle_interval_max := idle_interval_max a;
     idle_timer := x |}.

Definition set_values (x : config.Values) (p : PanelWindow) : PanelWindow :=
  {| values := x; level := level p; last_switch := last_switch p;
     _mic_error_notified := _mic_error_notified p; timer := timer p |}.
Definition set_level (x : float) (p : PanelWindow) : PanelWindow :=
  {| values := values p; level := x; last_switch := last_switch p;
     _mic_error_notified := _mic_error_notified p; timer := timer p |}.
Definition set_last_switch (x : float) (p : PanelWindow) : PanelWindow :=
  {| values := values p; level := level p; last_switch := x;
     _mic_error_notified := _mic_error_notified p; timer := timer p |}.
Definition set_mic_error_notified (x : bool) (p : PanelWindow) : PanelWindow :=
  {| values := values p; level := level p; last_switch := last_switch p;
     _mic_error_notified := x; timer := timer p |}.
Definition set_timer (x : bool) (p : PanelWindow) : PanelWindow :=
  {| values := values p; level := level p; last_switch := last_switch p;
     _mic_error_notified := _mic_error_notified p; timer := x |}.

(** Reading and writing [self]. *)
Definition get : M World := fun w => (Ok w, w).
Definition update_avatar (f : AvatarWindow -> AvatarWindow) : M unit :=
  fun w => (Ok tt, with_avatar (f (avatar w)) w).
Definition update_panel (f : PanelWindow -> PanelWindow) : M unit :=
  fun w => (Ok tt, with_panel (f (panel w)) w).
Definition qt (c : gui_call) : M unit :=
  fun w => (Ok tt, with_gui (c :: gui w) w).

(** ** [audio.py]: class [Mic] *)

(** [queue.Queue]: [put] appends, [get_nowait] takes the oldest entry and
    fails ([queue.Empty]) on an empty queue. *)
Module Queue.

Definition put (x : float) (q : list float) : list float := q ++ [x].

Definition get_nowait (q : list float) : option (float * list float) :=
  match q with
  | [] => None
  | x :: q' => Some (x, q')
  end.

End Queue.

Module Mic.

(** [_stream_callback]: [None] stands for a missing or empty buffer, [Some r]
    for the reading numpy computed from a non-empty one
    ([sqrt(mean(square(input_data))) + 1e-6]). *)
Definition _stream_callback (root_mean_square : option float) : M unit :=
  fun w =>
    match root_mean_square with
    | None => (Ok tt, w)
    | Some r => (Ok tt, with_mic {| _rms_queue := Queue.put r (_rms_queue (mic w)) |} w)
    end.

(** The loop of [read]: [latest_value = self._rms_queue.get_nowait()] until
    the queue raises [queue.Empty]. *)
Fixpoint drain (latest_value : float) (q : list float) : float * list float :=
  match q with
  | [] => (latest_value, [])
  | x :: q' => drain x q'
  end.

Definition read : M float :=
  fun w =>
    let (latest_value, q) := drain 0.0%float (_rms_queue (mic w)) in
    (Ok latest_value, with_mic {| _rms_queue := q |} w).

End Mic.

(** ** [image_utils.py] *)

(** [load_scaled(path, width)]: the scaled image, or an exception when the
    file cannot be opened. *)
Definition load_scaled (path : string) (width : Z) : M QPixmap :=
  fun w =>
    if readable w path
    then (Ok {| source_path := path; scaled_width := width |}, w)
    else (Raise OSError, w).

(** ** [widgets/level_meter.py] *)
Module LevelMeter.

Definition set_level (value : float) : M unit :=
  fun w => (Ok tt, with_gui (level_meter_update :: gui w)
                     (with_level_meter (Py.max 0.0%float value) w)).

End LevelMeter.

(** ** [widgets/avatar.py]: class [AvatarWindow] *)
Module AvatarWindow.
#[local] Open Scope float_scope.

Definition random_uniform (a b : float) : M float :=
  fun w => let (x, g) := random.uniform a b (rng w) in (Ok x, with_rng g w).

Definition random_randrange (n : nat) : M nat :=
  fun w => let (k, g) := random.randrange n (rng w) in (Ok k, with_rng g w).

Definition _current_idle_pix (self : AvatarWindow) : option QPixmap :=
  match idle_pix_list self with
  | [] => None
  | _ :: _ =>
      nth_error (idle_pix_list self)
        (Nat.modulo (idle_index self) (List.length (idle_pix_list self)))
  end.

(** The loop of [_resolve_talk_variant] over [enumerate(self.talk_variants)];
    [best] is the pair [(best_index, candidate)]. *)
Fixpoint resolve_scan (current_level : float) (variants : list (float * QPixmap))
    (variant_index : Z) (best : Z * option QPixmap) : Z * option QPixmap :=
  match variants with
  | [] => best
  | (threshold, pixmap) :: rest =>
      resolve_scan current_level rest (variant_index + 1)%Z
        (if Py.ge current_level threshold then (variant_index, Some pixmap) else best)
  end.

Definition _resolve_talk_variant (self : AvatarWindow) (level : option float)
    : Z * option QPixmap :=
  let current_level :=
    match level with
    | None => talk_level self
    | Some l => Py.max 0.0 l
    end in
  resolve_scan current_level (talk_variants self) 0%Z ((-1)%Z, talk_pix self).

Definition refresh : M unit :=
  w <- get ;;
  let self := avatar w in
  let pixmap :=
    if is_talking self then snd (_resolve_talk_variant self None)
    else _current_idle_pix self in
  match pixmap with
  | None =>
      qt (label_setText "avatar.placeholder.no_images") ;;;
      update_avatar (set_label (label_text "avatar.placeholder.no_images"))
  | Some p =>
      qt (label_setText "") ;;;
      qt (label_setPixmap p) ;;;
      update_avatar (set_label (label_pixmap p))
  end.

Definition _update_idle_timer : M unit :=
  w <- get ;;
  let self := avatar w in
  if (List.length (idle_pix_list self) <=? 1)%nat || is_talking self then
    qt idle_timer_stop ;;;
    update_avatar (set_idle_timer None)
  else
    interval <- random_uniform (idle_interval_min self) (idle_interval_max self) ;;
    msec <- lift_result (Py.int (interval * 1000)) ;;
    qt (idle_timer_start msec) ;;;
    update_avatar (set_idle_timer (Some msec)).

Definition _advance_idle_frame : M unit :=
  w <- get ;;
  let self := avatar w in
  match idle_pix_list self with
  | [] => _update_idle_timer
  | _ :: _ =>
      if is_talking self then _update_idle_timer
      else
        (if idle_random self then
           k <- random_randrange (List.length (idle_pix_list self)) ;;
           update_avatar (set_idle_index k)
         else
           update_avatar
             (set_idle_index
                (Nat.modulo (idle_index self + 1) (List.length (idle_pix_list self))))) ;;;
        refresh ;;;
        _update_idle_timer
  end.

Definition set_talk_level (level : float) : M unit :=
  let level := Py.max 0.0 level in
  w <- get ;;
  let previous_index := fst (_resolve_talk_variant (avatar w) None) in
  update_avatar (set_talk_level_field level) ;;;
  w' <- get ;;
  let new_index := fst (_resolve_talk_variant (avatar w') None) in
  if is_talking (avatar w') && negb (previous_index =? new_index)%Z
  then refresh
  else ret tt.

Definition set_talking (talking : bool) : M unit :=
  w <- get ;;
  if Bool.eqb (is_talking (avatar w)) talking then ret tt
  else
    update_avatar (set_is_talking talking) ;;;
    refresh ;;;
    _update_idle_timer.

Definition update_idle_anim_options (random_order : bool)
    (interval_min interval_max : float) : M unit :=
  let lo := Py.max 0.05 interval_min in
  let hi := Py.max lo interval_max in
  update_avatar (set_idle_options random_order lo hi) ;;;
  _update_idle_timer.

(** The first loop of [load_images]: every non-empty path is loaded, a
    failure is recorded and skipped. *)
Fixpoint load_idle (idle_paths : list string) (width : Z)
    (pix_list : list QPixmap) (idle_errors : list string)
    : M (list QPixmap * list string) :=
  match idle_paths with
  | [] => ret (pix_list, idle_errors)
  | path :: rest =>
      if (path =? "")%string then load_idle rest width pix_list idle_errors
      else
        r <- try_except
               (p <- load_scaled path width ;; ret (pix_list ++ [p], idle_errors))
               (fun _ => ret (pix_list, idle_errors ++ [path])) ;;
        load_idle rest width (fst r) (snd r)
  end.

(** The loop over the talk frames: an entry with no path is skipped, a
    failure to load is recorded and skipped. *)
Fixpoint load_variants (talk_frames_data : list config.talk_frame) (width : Z)
    (variants : list (float * QPixmap)) (variant_errors : list string)
    : M (list (float * QPixmap) * list string) :=
  match talk_frames_data with
  | [] => ret (variants, variant_errors)
  | frame :: rest =>
      let path := config.image frame in
      if (path =? "")%string then load_variants rest width variants variant_errors
      else
        r <- try_except
               (pixmap <- load_scaled path width ;;
                ret (variants ++ [(config.threshold frame, pixmap)], variant_errors))
               (fun _ => ret (variants, variant_errors ++ [path])) ;;
        load_variants rest width (fst r) (snd r)
  end.

Definition is_nil {A : Type} (l : list A) : bool :=
  match l with [] => true | _ :: _ => false end.

Definition load_images (idle_paths : list string) (talk_default_path : string)
    (talk_frames_data : list config.talk_frame) (width : Z) : M unit :=
  loaded <-
    try_except
      (r <- load_idle idle_paths width [] [] ;;
       update_avatar (fun a => set_idle_index 0 (set_idle_pix_list (fst r) a)) ;;;
       update_avatar (set_talk_pix None) ;;;
       idle_errors <-
         (if (talk_default_path =? "")%string then ret (snd r)
          else
            try_except
              (p <- load_scaled talk_default_path width ;;
               update_avatar (set_talk_pix (Some p)) ;;;
               ret (snd r))
              (fun _ => ret (snd r ++ [talk_default_path]))) ;;
       v <- load_variants talk_frames_data width [] [] ;;
       update_avatar (set_talk_variants (list_sort fst (fst v))) ;;;
       (if is_nil idle_errors then ret tt
        else qt (QMessageBox_warning "avatar.error.images_title")) ;;;
       (if is_nil (snd v) then ret tt
        else qt (QMessageBox_warning "avatar.error.talk_frames_title")) ;;;
       ret true)
      (fun _ => qt (QMessageBox_warning "avatar.error.images_title") ;;; ret false) ;;
  if loaded : bool then refresh ;;; _update_idle_timer else ret tt.

Definition __init__ (config_values : config.Values) : M unit :=
  fun w =>
    let self :=
      {| label := label_empty;
         idle_pix_list := [];
         idle_index := 0;
         talk_pix := None;
         talk_variants := [];
         talk_level := 0.0;
         is_talking := false;
         idle_random := config.idle_anim_random config_values;
         idle_interval_min := config.idle_interval_min config_values;
         idle_interval_max := config.idle_interval_max config_values;
         idle_timer := None |} in
    let idle_paths :=
      match config.idle_frames config_values with
      | [] => [config.idle_image config_values]
      | _ :: _ => config.idle_frames config_values
      end in
    load_images idle_paths (config.talk_image config_values)
      (config.talk_frames config_values) (config.width config_values)
      (with_avatar self w).

End AvatarWindow.

(** ** [ui/panel.py]: class [PanelWindow] *)
Module PanelWindow.
#[local] Open Scope float_scope.

Definition with_idle_frames (frames : list string) (image : string) (v : config.Values)
    : config.Values :=
  {| config.idle_image := image; config.talk_image := config.talk_image v;
     config.talk_frames := config.talk_frames v; config.width := config.width v;
     config.talk_th := config.talk_th v; config.idle_frames := frames;
     config.idle_anim_random := config.idle_anim_random v;
     config.idle_interval_min := config.idle_interval_min v;
     config.idle_interval_max := config.idle_interval_max v |}.
Definition with_talk_frames (frames : list config.talk_frame) (v : config.Values)
    : config.Values :=
  {| config.idle_image := config.idle_image v; config.talk_image := config.talk_image v;
     config.talk_frames := frames; config.width := config.width v;
     config.talk_th := config.talk_th v; config.idle_frames := config.idle_frames v;
     config.idle_anim_random := config.idle_anim_random v;
     config.idle_interval_min := config.idle_interval_min v;
     config.idle_interval_max := config.idle_interval_max v |}.
Definition with_width (x : Z) (v : config.Values) : config.Values :=
  {| config.idle_image := config.idle_image v; config.talk_image := config.talk_image v;
     config.talk_frames := config.talk_frames v; config.width := x;
     config.talk_th := config.talk_th v; config.idle_frames := config.idle_frames v;
     config.idle_anim_random := config.idle_anim_random v;
     config.idle_interval_min := config.idle_interval_min v;
     config.idle_interval_max := config.idle_interval_max v |}.
Definition with_talk_th (x : float) (v : config.Values) : config.Values :=
  {| config.idle_image := config.idle_image v; config.talk_image := config.talk_image v;
     config.talk_frames := config.talk_frames v; config.width := config.width v;
     config.talk_th := x; config.idle_frames := config.idle_frames v;
     config.idle_anim_random := config.idle_anim_random v;
     config.idle_interval_min := config.idle_interval_min v;
     config.idle_interval_max := config.idle_interval_max v |}.
Definition with_idle_anim_random (x : bool) (v : config.Values) : config.Values :=
  {| config.idle_image := config.idle_image v; config.talk_image := config.talk_image v;
     config.talk_frames := config.talk_frames v; config.width := config.width v;
     config.talk_th := config.talk_th v; config.idle_frames := config.idle_frames v;
     config.idle_anim_random := x;
     config.idle_interval_min := config.idle_interval_min v;
     config.idle_interval_max := config.idle_interval_max v |}.
Definition with_idle_interval (lo hi : float) (v : config.Values) : config.Values :=
  {| config.idle_image := config.idle_image v; config.talk_image := config.talk_image v;
     config.talk_frames := config.talk_frames v; config.width := config.width v;
     config.talk_th := config.talk_th v; config.idle_frames := config.idle_frames v;
     config.idle_anim_random := config.idle_anim_random v;
     config.idle_interval_min := lo;
     config.idle_interval_max := hi |}.

Definition nonempty (p : string) : bool := negb (p =? "")%string.

(** The loop of [_normalize_values] over the talk frames. *)
Fixpoint normalize_talk_frames (talk_frames : list config.talk_frame)
    : list config.talk_frame :=
  match talk_frames with
  | [] => []
  | frame :: rest =>
      let path := config.image frame in
      if (path =? "")%string then normalize_talk_frames rest
      else
        {| config.image := path;
           config.threshold := Py.max 0.0 (config.threshold frame) |}
        :: normalize_talk_frames rest
  end.

Definition _normalize_values (v : config.Values) : config.Values :=
  let frames := filter nonempty (config.idle_frames v) in
  let idle_image :=
    match frames with
    | first :: _ => first
    | [] => config.idle_image v
    end in
  let normalized_talk_frames :=
    list_sort config.threshold (normalize_talk_frames (config.talk_frames v)) in
  let min_interval := config.idle_interval_min v in
  let max_interval := config.idle_interval_max v in
  let min_interval := if min_interval <=? 0 then 0.1 else min_interval in
  let max_interval := if max_interval <? min_interval then min_interval else max_interval in
  with_idle_interval min_interval max_interval
    (with_talk_frames normalized_talk_frames
       (with_idle_frames frames idle_image v)).

Definition _idle_paths (v : config.Values) : list string :=
  filter nonempty (config.idle_frames v).

Definition _reload_avatar_images : M unit :=
  w <- get ;;
  let v := values (panel w) in
  AvatarWindow.load_images (_idle_paths v) (config.talk_image v)
    (config.talk_frames v) (config.width v).

Definition _set_idle_frames (frames : list string) : M unit :=
  let cleaned := filter nonempty frames in
  update_panel (fun p =>
    set_values
      (with_idle_frames cleaned
         (match cleaned with
          | first :: _ => first
          | [] => config.idle_image (values p)
          end)
         (values p)) p) ;;;
  _reload_avatar_images.

Definition _on_width_changed (value : Z) : M unit :=
  update_panel (fun p => set_values (with_width value (values p)) p) ;;;
  _reload_avatar_images.

Definition _sync_idle_anim_options : M unit :=
  w <- get ;;
  let v := values (panel w) in
  AvatarWindow.update_idle_anim_options (config.idle_anim_random v)
    (config.idle_interval_min v) (config.idle_interval_max v).

(** [state] is the check box's [Qt.CheckState]; [Checked] is 2. *)
Definition _toggle_idle_random (state : Z) : M unit :=
  let checked := (state =? 2)%Z in
  update_panel (fun p => set_values (with_idle_anim_random checked (values p)) p) ;;;
  _sync_idle_anim_options.

Definition _on_idle_interval_changed (kind : string) (value : float) : M unit :=
  update_panel (fun p =>
    let min_val := config.idle_interval_min (values p) in
    let max_val := config.idle_interval_max (values p) in
    let (min_val, max_val) :=
      if (kind =? "min")%string then
        (value, if Py.gt value max_val then value else max_val)
      else
        ((if value <? min_val then value else min_val), value) in
    set_values (with_idle_interval min_val max_val (values p)) p) ;;;
  _sync_idle_anim_options.

(** The [try] suite of [_poll_mic]; [now] is the reading [time.time()]
    gives in it. *)
Definition _poll_mic_try (now : float) : M unit :=
  mic_level <- Mic.read ;;
  update_panel (fun p => set_level ((level p * 0.7) + (mic_level * 0.3)) p) ;;;
  w <- get ;;
  LevelMeter.set_level (level (panel w)) ;;;
  AvatarWindow.set_talk_level (level (panel w)) ;;;
  w <- get ;;
  let self := panel w in
  let talking := is_talking (avatar w) in
  let talk_th := config.talk_th (values self) in
  let release_th := talk_th * 0.7 in
  if talking then
    if (level self <? release_th) && Py.gt (now - last_switch self) 0.05 then
      AvatarWindow.set_talking false ;;;
      update_panel (set_last_switch now)
    else ret tt
  else
    if Py.gt (level self) talk_th && Py.gt (now - last_switch self) 0.05 then
      AvatarWindow.set_talking true ;;;
      update_panel (set_last_switch now)
    else ret tt.

(** The [except Exception] suite of [_poll_mic]. *)
Definition _poll_mic_except (exception_instance : exn) : M unit :=
  w <- get ;;
  (if timer (panel w) then
     qt timer_stop ;;; update_panel (set_timer false)
   else ret tt) ;;;
  w <- get ;;
  if negb (_mic_error_notified (panel w)) then
    update_panel (set_mic_error_notified true) ;;;
    qt traceback_print_exc ;;;
    qt (QMessageBox_critical "panel.error.mic_title")
  else ret tt.

Definition _poll_mic (now : float) : M unit :=
  try_except (_poll_mic_try now) _poll_mic_except.

Section Builtins.

(** Python's [round(x, ndigits)], which rounds the decimal expansion. *)
Variable round : float -> Z -> float.

Definition _apply_talk_threshold (value : float) : M unit :=
  let clamped := Py.max 0.001 (Py.min 0.5 (round value 3%Z)) in
  update_panel (fun p => set_values (with_talk_th clamped (values p)) p).

(** [__init__]: the settings are normalized, the microphone queue, the level
    and the talk clock are initialised, the avatar is built, and [_build_ui]
    applies the talk threshold, starts the polling timer and hands the idle
    options to the avatar.  [now] is the clock reading taken for
    [last_switch]. *)
Definition __init__ (persisted : config.Values) (now : float) : M unit :=
  (fun w =>
     (Ok tt,
      with_level_meter 0.0
        (with_mic {| _rms_queue := [] |}
           (with_panel
              {| values := _normalize_values persisted;
                 level := 0.0;
                 last_switch := now;
                 _mic_error_notified := false;
                 timer := false |} w)))) ;;;
  w <- get ;;
  AvatarWindow.__init__ (values (panel w)) ;;;
  w <- get ;;
  _apply_talk_threshold (config.talk_th (values (panel w))) ;;;
  update_panel (set_timer true) ;;;
  _sync_idle_anim_options.

End Builtins.

End PanelWindow.

(** ** The event loop

    What the Qt event loop and the audio thread deliver to the engine.  A
    timer delivers its timeout only while it is active.  An exception that
    leaves a slot reaches the hook of [error_handler.py], which shows a
    message box, and the loop goes on with the state as the slot left it. *)
Inductive event : Type :=
| audio_callback (root_mean_square : option float)
| timer_timeout (now : float)
| idle_timer_timeout
| idle_random_stateChanged (state : Z)
| idle_interval_valueChanged (kind : string) (value : float)
| talk_spin_valueChanged (value : float)
| idle_frames_chosen (frames : list string)
| width_valueChanged (value : Z).

Section Loop.

Variable round : float -> Z -> float.

Definition slot (e : event) : M unit :=
  match e with
  | audio_callback r => Mic._stream_callback r
  | timer_timeout now =>
      fun w => if timer (panel w) then PanelWindow._poll_mic now w else (Ok tt, w)
  | idle_timer_timeout =>
      fun w =>
        match idle_timer (avatar w) with
        | Some _ => AvatarWindow._advance_idle_frame w
        | None => (Ok tt, w)
        end
  | idle_random_stateChanged state => PanelWindow._toggle_idle_random state
  | idle_interval_valueChanged kind value => PanelWindow._on_idle_interval_changed kind value
  | talk_spin_valueChanged value => PanelWindow._apply_talk_threshold round value
  | idle_frames_chosen frames => PanelWindow._set_idle_frames frames
  | width_valueChanged value => PanelWindow._on_width_changed value
  end.

Definition step (e : event) (w : World) : World :=
  match slot e w with
  | (Ok _, w') => w'
  | (Raise _, w') => with_gui (QMessageBox_critical "error.unexpected.title" :: gui w') w'
  end.

Definition run (events : list event) (w : World) : World :=
  fold_left (fun w e => step e w) events w.

(** The state before [PanelWindow()] is built: no object yet, only the
    environment. *)
Definition boot (g : random.state) (files : string -> bool) : World :=
  {| panel := {| values := config.DEFAULT_CFG; level := 0.0%float; last_switch := 0.0%float;
                 _mic_error_notified := false; timer := false |};
     avatar := {| label := label_empty; idle_pix_list := []; idle_index := 0;
                  talk_pix := None; talk_variants := []; talk_level := 0.0%float;
                  is_talking := false; idle_random := false;
                  idle_interval_min := 0.2%float; idle_interval_max := 0.6%float;
                  idle_timer := None |};
     mic := {| _rms_queue := [] |};
     level_meter := 0.0%float;
     rng := g;
     readable := files;
     gui := [] |}.

(** [app.main]: the panel is constructed from the persisted settings. *)
Definition main (persisted : config.Values) (now : float)
    (g : random.state) (files : string -> bool) : result unit * World :=
  PanelWindow.__init__ round persisted now (boot g files).

End Loop.

(* ================================================================== *)
(** * Part I, continued: observations and sample inputs *)
(* ================================================================== *)

Definition sample_world : World :=
  {| panel := {| values := config.DEFAULT_CFG; level := 0.0%float; last_switch := 0.0%float;
                 _mic_error_notified := false; timer := true |};
     avatar := {| label := label_empty; idle_pix_list := []; idle_index := 0;
                  talk_pix := None; talk_variants := []; talk_level := 0.0%float;
                  is_talking := false; idle_random := false;
                  idle_interval_min := 0.2%float; idle_interval_max := 0.6%float;
                  idle_timer := None |};
     mic := {| _rms_queue := [] |};
     level_meter := 0.0%float;
     rng := {| random.unit_draws := fun _ => 0.5%float;
               random.index_draws := fun n => n;
               random.cursor := 0 |};
     readable := fun _ => true;
     gui := [] |}.


(** Whether a GUI call is the poller's fault notice, and how many of them
    the program has raised. *)
Definition is_mic_notice (c : gui_call) : bool :=
  match c with
  | QMessageBox_critical title => (title =? "panel.error.mic_title")%string
  | _ => false
  end.

Definition notices (w : World) : nat := List.length (filter is_mic_notice (gui w)).

(** The condition under which [_update_idle_timer] stops the idle timer. *)
Definition idle_paused (a : AvatarWindow) : bool :=
  (List.length (idle_pix_list a) <=? 1)%nat || is_talking a.


(** The entries [load_images] keeps of the talk frames, in the order of the
    settings: those with a path whose image can be read. *)
Definition loaded_variants (files : string -> bool)
    (talk_frames_data : list config.talk_frame) (width : Z) : list (float * QPixmap) :=
  map (fun frame =>
         (config.threshold frame,
          {| source_path := config.image frame; scaled_width := width |}))
    (filter (fun frame =>
               negb (config.image frame =? "")%string && files (config.image frame))
       talk_frames_data).




Definition pix (path : string) : QPixmap :=
  {| source_path := path; scaled_width := 512 |}.

(** The avatar of [sample_world] with the three talk variants of the
    specification's example, as [load_images] sorts them. *)
Definition sample_avatar : AvatarWindow :=
  set_talk_variants
    (list_sort fst [(0.05%float, pix "b"); (0.02%float, pix "a"); (0.02%float, pix "a2")])
    (set_talk_pix (Some (pix "talk")) (avatar sample_world)).

(** The state after an avatar method: a new avatar, a new generator state
    and more calls in the log. *)
Definition avatar_moved (w : World) (a : AvatarWindow) (g : random.state)
    (calls : list gui_call) : World :=
  with_gui (calls ++ gui w) (with_avatar a (with_rng g w)).

(** The index and the generator after the index step of a firing. *)
Definition next_idle_index (a : AvatarWindow) (g : random.state) : nat * random.state :=
  if idle_random a then random.randrange (List.length (idle_pix_list a)) g
  else (Nat.modulo (idle_index a + 1) (List.length (idle_pix_list a)), g).

(** The level a poll tick computes from the state before it. *)
Definition smoothed_next (w : World) : float :=
  ((level (panel w) * 0.7) + (List.last (_rms_queue (mic w)) 0.0 * 0.3))%float.

(** The state of a poll tick once the level is smoothed, shown on the meter
    and handed to the avatar: [c] is what the label shows then and [calls]
    what the avatar told Qt. *)
Definition level_published (w : World) (c : label_content) (calls : list gui_call) : World :=
  let s := smoothed_next w in
  with_gui (calls ++ level_meter_update :: gui w)
    (with_avatar (set_label c (set_talk_level_field (Py.max 0.0%float s) (avatar w)))
       (with_level_meter (Py.max 0.0%float s)
          (with_panel (set_level s (panel w))
             (with_mic {| _rms_queue := [] |} w)))).

(** Whether a poll tick at [now] flips the talk state: the level test of the
    current state and the dwell test. *)
Definition flips (now : float) (w : World) : bool :=
  let s := smoothed_next w in
  let talk_th := config.talk_th (values (panel w)) in
  (if is_talking (avatar w) then (s <? talk_th * 0.7)%float else (talk_th <? s)%float)
  && (0.05 <? now - last_switch (panel w))%float.

(** The rules the properties below are about. *)

(** The idle timer is stopped whenever the scheduler is paused. *)
Definition timer_rule (a : AvatarWindow) : Prop :=
  idle_paused a = true -> idle_timer a = None.

(** The idle timing the scheduler draws from. *)
Definition timing_rule (a : AvatarWindow) : Prop :=
  (0.05 <=? idle_interval_min a)%float = true
  /\ (idle_interval_min a <=? idle_interval_max a)%float = true.

(** At most one fault notice, and none before the flag is set. *)
Definition notice_rule (w : World) : Prop :=
  (notices w <= 1)%nat /\ (_mic_error_notified (panel w) = false -> notices w = 0%nat).

Definition is_poll (e : event) : bool :=
  match e with
  | timer_timeout _ => true
  | _ => false
  end.

Definition is_audio (e : event) : bool :=
  match e with
  | audio_callback _ => true
  | _ => false
  end.

(** A decoded binary64 number that is at least zero: a zero of either sign,
    a positive finite number or plus infinity. *)
Definition sf_nonneg (x : spec_float) : bool :=
  match x with
  | S754_zero _ => true
  | S754_infinity s => negb s
  | S754_nan => false
  | S754_finite s _ _ => negb s
  end.

(** The clock readings of the poll ticks at which the talk state changed,
    oldest first, along a run of the event loop. *)
Fixpoint transitions (round : float -> Z -> float) (events : list event) (w : World)
    : list float :=
  match events with
  | [] => []
  | e :: rest =>
      let w' := step round e w in
      match e with
      | timer_timeout now =>
          if Bool.eqb (is_talking (avatar w')) (is_talking (avatar w))
          then transitions round rest w'
          else now :: transitions round rest w'
      | _ => transitions round rest w'
      end
  end.

(** [t2] is more than the dwell time after [t1], as the tick computes it. *)
Definition dwell_apart (t1 t2 : float) : Prop := (0.05 <? t2 - t1)%float = true.

(** [x] lies in the closed interval between [a] and [b]. *)
Definition between (a b x : float) : bool :=
  ((Py.min a b <=? x) && (x <=? Py.max a b))%float.

(** Every reading the audio callback publishes along [events] is at least
    zero. *)
Definition readings_nonneg (events : list event) : Prop :=
  forall r : float, In (audio_callback (Some r)) events -> (0 <=? r)%float = true.

(** Sample inputs. *)

(** Python's [round(x, 3)] on the thresholds used below, which have at most
    three decimals. *)
Definition sample_round (x : float) (ndigits : Z) : float := x.

Definition sample_rng : random.state :=
  {| random.unit_draws := fun _ => 0.5%float;
     random.index_draws := fun n => n;
     random.cursor := 0 |}.

Definition all_files (path : string) : bool := true.

(** Settings with three idle frames and a talk image. *)
Definition sample_settings : config.Values :=
  {| config.idle_image := ""; config.talk_image := "talk.png"; config.talk_frames := [];
     config.width := 512; config.talk_th := 0.03%float;
     config.idle_frames := ["a.png"; "b.png"; "c.png"]%string;
     config.idle_anim_random := false;
     config.idle_interval_min := 0.2%float; config.idle_interval_max := 0.6%float |}.

Definition started : World :=
  snd (main sample_round sample_settings 100%float sample_rng all_files).

(** Settings whose idle timing lies below the floor and is out of order. *)
Definition low_timing_settings : config.Values :=
  PanelWindow.with_idle_interval 0.01%float 0.005%float sample_settings.

(** Settings with a single idle frame and an unbounded idle interval, as a
    settings file holding [1e999] gives. *)
Definition unbounded_settings : config.Values :=
  PanelWindow.with_idle_interval 0.2%float infinity
    (PanelWindow.with_idle_frames ["a.png"%string] "" sample_settings).

(** Settings with a talk threshold of 0.14, hence a release threshold of
    about 0.098. *)
Definition dwell_settings : config.Values :=
  PanelWindow.with_talk_th 0.14%float sample_settings.

Definition started_dwell : World :=
  snd (main sample_round dwell_settings 100%float sample_rng all_files).

(** A run in which the second poll tick finds the level 0.021 and drains the
    reading 0.021. *)
Definition rounding_run : list event :=
  [audio_callback (Some 0.07%float); timer_timeout 100.1%float;
   audio_callback (Some 0.021%float)].

(** One firing of the idle timer. *)
Definition fire (w : World) : World := snd (AvatarWindow._advance_idle_frame w).

(** A run that ends, at 100.6, with the avatar talking, a second idle frame
    added while it talked, and the level about to fall below the release
    threshold. *)
Definition fault_run : list event :=
  [audio_callback (Some 0.5%float); timer_timeout 100.1%float;
   idle_frames_chosen ["a.png"; "b.png"]%string;
   timer_timeout 100.2%float; timer_timeout 100.3%float; timer_timeout 100.4%float;
   timer_timeout 100.5%float; timer_timeout 100.6%float].

Definition last_good : World :=
  run sample_round fault_run
    (snd (main sample_round unbounded_settings 100%float sample_rng all_files)).

(** [k] firings in a row. *)
Fixpoint fire_times (k : nat) (w : World) : World :=
  match k with
  | O => w
  | S k' => fire (fire_times k' w)
  end.

(** [k] readings [r], each followed by a poll tick; the ticks are 60 ms
    apart, starting at [now]. *)
Fixpoint steady_tone (r : float) (now : float) (k : nat) : list event :=
  match k with
  | O => []
  | S k' => audio_callback (Some r) :: timer_timeout now :: steady_tone r (now + 0.06)%float k'
  end.

(* ================================================================== *)
(** * Part I, continued: the level meter and the settings editor *)
(* ================================================================== *)

(** ** Python's [/] on floats *)
Module operator.

(** [x / y] raises [ZeroDivisionError] when [y] is a zero of either sign;
    [None] stands for that. *)
Definition truediv (x y : float) : option float :=
  if (y =? 0)%float then None else Some (x / y)%float.

End operator.

(** ** [widgets/level_meter.py]: the threshold line and the markers

    The meter's [level] is the [level_meter] field of the state; the record
    below holds its two other attributes. *)
Module level_meter.
#[local] Open Scope float_scope.

Record Markers : Type := { talk_th : float; talk_levels : list float }.

Definition __init__ : Markers := {| talk_th := 0.03; talk_levels := [] |}.

(** [sorted(...)] on numbers: the stable sort, comparing with [<]. *)
Definition sorted (l : list float) : list float := list_sort (fun x => x) l.

Definition set_thresholds (talk : float) (levels : list float) (self : Markers) : Markers :=
  {| talk_th := Py.max 0.0 talk;
     talk_levels := sorted (map (fun value => Py.max 0.0 value) levels) |}.

Definition set_threshold (talk : float) (self : Markers) : Markers :=
  set_thresholds talk (talk_levels self) self.

Definition _scale_value (level : float) (self : Markers) : float :=
  Py.max 0.001 (Py.max level (talk_th self) * 1.5).

(** [left] and [width] are [rect.left()] and [rect.width()]. *)
Definition _value_to_x (level : float) (self : Markers) (left width : float)
    (value : float) : option float :=
  let scale := _scale_value level self in
  match operator.truediv value scale with
  | None => None
  | Some quotient =>
      let ratio := Py.max 0.0 (Py.min 1.0 quotient) in
      Some (left + width * ratio)
  end.

End level_meter.

(** ** [widgets/avatar.py] and [ui/panel.py]: the background

    The attributes the background colour goes through: the settings' [bg]
    and [bg_transparent], the colour button of the panel, and the avatar's
    colour, transparency flag and style sheets (of the window and of its
    label). *)
Module Background.

Record AvatarWindow : Type := {
  bg_color : string;
  transparent_bg : bool;
  styleSheet : string;
  label_styleSheet : string
}.

Definition _apply_bg_style (self : AvatarWindow) : AvatarWindow :=
  if transparent_bg self then
    {| bg_color := bg_color self; transparent_bg := transparent_bg self;
       styleSheet := "background: transparent;";
       label_styleSheet := "background: transparent;" |}
  else
    {| bg_color := bg_color self; transparent_bg := transparent_bg self;
       styleSheet := "background:" ++ bg_color self ++ ";";
       label_styleSheet := "background:" ++ bg_color self ++ ";" |}.

(** The part of [AvatarWindow.__init__] that sets the background. *)
Definition __init__ (bg : string) (bg_transparent : bool) : AvatarWindow :=
  _apply_bg_style
    {| bg_color := bg; transparent_bg := bg_transparent;
       styleSheet := ""; label_styleSheet := "" |}.

Definition set_bg (css_color : string) (self : AvatarWindow) : AvatarWindow :=
  let self := {| bg_color := css_color; transparent_bg := transparent_bg self;
                 styleSheet := styleSheet self;
                 label_styleSheet := label_styleSheet self |} in
  if negb (transparent_bg self) then _apply_bg_style self else self.

Definition set_transparent_bg (enabled : bool) (self : AvatarWindow) : AvatarWindow :=
  if Bool.eqb (transparent_bg self) enabled then self
  else
    _apply_bg_style
      {| bg_color := bg_color self; transparent_bg := enabled;
         styleSheet := styleSheet self; label_styleSheet := label_styleSheet self |}.

(** The panel's side: [values["bg"]], [values["bg_transparent"]], the colour
    button, and the avatar. *)
Record PanelWindow : Type := {
  bg : string;
  bg_transparent : bool;
  bg_button_text : string;
  bg_button_styleSheet : string;
  bg_button_enabled : bool;
  avatar : AvatarWindow
}.

Definition _sync_bg_controls (self : PanelWindow) : PanelWindow :=
  let transparent := bg_transparent self in
  let a := set_transparent_bg transparent (avatar self) in
  {| bg := bg self; bg_transparent := bg_transparent self;
     bg_button_text := bg_button_text self;
     bg_button_styleSheet := bg_button_styleSheet self;
     bg_button_enabled := negb transparent;
     avatar := if negb transparent then set_bg (bg self) a else a |}.

Definition _toggle_bg_transparent (checked : bool) (self : PanelWindow) : PanelWindow :=
  _sync_bg_controls
    {| bg := bg self; bg_transparent := checked;
       bg_button_text := bg_button_text self;
       bg_button_styleSheet := bg_button_styleSheet self;
       bg_button_enabled := bg_button_enabled self;
       avatar := avatar self |}.

(** [color] is the colour dialog's answer: [None] when it is not valid (the
    dialog was dismissed), else its [#rrggbb] name. *)
Definition _pick_bg_color (color : option string) (self : PanelWindow) : PanelWindow :=
  match color with
  | None => self
  | Some css =>
      _sync_bg_controls
        {| bg := css; bg_transparent := bg_transparent self;
           bg_button_text := css;
           bg_button_styleSheet := "background:" ++ css ++ ";";
           bg_button_enabled := bg_button_enabled self;
           avatar := set_bg css (avatar self) |}
  end.

(** The part of [PanelWindow.__init__] that sets the background up: the
    avatar is built from the settings, [_build_ui] labels and colours the
    button and ends with [_sync_bg_controls]. *)
Definition PanelWindow__init__ (values_bg : string) (values_bg_transparent : bool)
    : PanelWindow :=
  _sync_bg_controls
    {| bg := values_bg; bg_transparent := values_bg_transparent;
       bg_button_text := values_bg;
       bg_button_styleSheet := "background:" ++ values_bg ++ ";";
       bg_button_enabled := true;
       avatar := __init__ values_bg values_bg_transparent |}.

(** What the user does to the background. *)
Inductive action : Type :=
| bg_transparent_stateChanged (checked : bool)
| bg_button_clicked (color : option string).

Definition slot (e : action) (self : PanelWindow) : PanelWindow :=
  match e with
  | bg_transparent_stateChanged checked => _toggle_bg_transparent checked self
  | bg_button_clicked color => _pick_bg_color color self
  end.

Definition run (events : list action) (self : PanelWindow) : PanelWindow :=
  fold_left (fun p e => slot e p) events self.

(** The style sheet that goes with a colour and a transparency flag. *)
Definition sheet (color : string) (transparent : bool) : string :=
  if transparent then "background: transparent;" else "background:" ++ color ++ ";".

End Background.

(** ** [ui/panel.py]: the slots that edit the image lists

    The answers of the dialogs and the rows selected in the list widget are
    arguments of the slots.  The list widget of the idle frames shows
    [values["idle_frames"]] ([_refresh_idle_frames_list] refills it whenever
    the list is written), so its [count()] is the length of that list. *)
Module Editor.
#[local] Open Scope float_scope.

(** The exceptions of these slots: those of the engine, and [IndexError]. *)
Inductive error : Type :=
| engine_error (e : exn)
| IndexError.

Inductive outcome (A : Type) : Type :=
| Done (a : A)
| Failed (e : error).
Arguments Done {A} a.
Arguments Failed {A} e.

(** The panel with the markers of its level meter. *)
Record Desk : Type := { world : World; markers : level_meter.Markers }.

Definition DeskM (A : Type) : Type := Desk -> outcome A * Desk.

Definition on_world {A : Type} (m : M A) : DeskM A :=
  fun d =>
    match m (world d) with
    | (Ok a, w) => (Done a, {| world := w; markers := markers d |})
    | (Raise e, w) => (Failed (engine_error e), {| world := w; markers := markers d |})
    end.

Definition and_then {A B : Type} (m : DeskM A) (k : A -> DeskM B) : DeskM B :=
  fun d =>
    match m d with
    | (Done a, d') => k a d'
    | (Failed e, d') => (Failed e, d')
    end.

Definition fail {A : Type} (e : error) : DeskM A := fun d => (Failed e, d).

Definition with_talk_image (x : string) (v : config.Values) : config.Values :=
  {| config.idle_image := config.idle_image v; config.talk_image := x;
     config.talk_frames := config.talk_frames v; config.width := config.width v;
     config.talk_th := config.talk_th v; config.idle_frames := config.idle_frames v;
     config.idle_anim_random := config.idle_anim_random v;
     config.idle_interval_min := config.idle_interval_min v;
     config.idle_interval_max := config.idle_interval_max v |}.

(** *** The idle frames *)

(** [path in existing] *)
Definition contains (path : string) (existing : list string) : bool :=
  existsb (String.eqb path) existing.

(** The loop of [_add_idle_frames]: a selected path is appended unless the
    list holds it already. *)
Fixpoint add_selected (selected existing : list string) : list string :=
  match selected with
  | [] => existing
  | path :: rest =>
      if contains path existing then add_selected rest existing
      else add_selected rest (existing ++ [path])
  end.

(** [dialog] is [None] when the file dialog is dismissed, else its
    [selectedFiles()]. *)
Definition _add_idle_frames (dialog : option (list string)) : M unit :=
  match dialog with
  | None => ret tt
  | Some selected =>
      w <- get ;;
      PanelWindow._set_idle_frames
        (add_selected selected (config.idle_frames (values (panel w))))
  end.

(** [sorted({...}, reverse=True)]: the distinct rows, largest first. *)
Fixpoint insert_row (row : Z) (rows : list Z) : list Z :=
  match rows with
  | [] => [row]
  | r :: rest =>
      if (r <? row)%Z then row :: rows
      else if (r =? row)%Z then rows
      else r :: insert_row row rest
  end.

Definition sorted_rows (selected : list Z) : list Z := fold_right insert_row [] selected.

(** [frames.pop(index)] for [0 <= index < len(frames)]. *)
Definition pop {A : Type} (index : nat) (frames : list A) : list A :=
  firstn index frames ++ skipn (S index) frames.

(** The loop of [_remove_idle_frames]; the length is that of the list as
    the pops so far have left it. *)
Fixpoint pop_rows {A : Type} (rows : list Z) (frames : list A) : list A :=
  match rows with
  | [] => frames
  | row :: rest =>
      pop_rows rest
        (if (0 <=? row)%Z && (row <? Z.of_nat (List.length frames))%Z
         then pop (Z.to_nat row) frames
         else frames)
  end.

(** [selected] lists the rows of [idle_list.selectedIndexes()]. *)
Definition _remove_idle_frames (selected : list Z) : M unit :=
  match sorted_rows selected with
  | [] => ret tt
  | rows =>
      w <- get ;;
      PanelWindow._set_idle_frames (pop_rows rows (config.idle_frames (values (panel w))))
  end.

(** [frames[index] = x] for [0 <= index < len(frames)]. *)
Definition setitem {A : Type} (index : nat) (x : A) (frames : list A) : list A :=
  firstn index frames ++ x :: skipn (S index) frames.

(** [current] is [idle_list.currentRow()]; the result is the current row
    afterwards, the one given to [setCurrentRow] when the frames were
    swapped.  Reading [frames[current]] raises [IndexError] before anything
    is written. *)
Definition _move_idle_frame (direction current : Z) : DeskM Z :=
  fun d =>
    let frames := config.idle_frames (values (panel (world d))) in
    let count := Z.of_nat (List.length frames) in
    if (direction =? 0)%Z || (count =? 0)%Z then (Done current, d)
    else if (current <? 0)%Z then (Done current, d)
    else
      let target := (current + direction)%Z in
      if negb ((0 <=? target)%Z && (target <? count)%Z) then (Done current, d)
      else
        match nth_error frames (Z.to_nat target), nth_error frames (Z.to_nat current) with
        | Some at_target, Some at_current =>
            and_then
              (on_world
                 (PanelWindow._set_idle_frames
                    (setitem (Z.to_nat target) at_current
                       (setitem (Z.to_nat current) at_target frames))))
              (fun _ d' => (Done target, d')) d
        | _, _ => (Failed IndexError, d)
        end.

(** [yes] is whether the question box was answered with [Yes]. *)
Definition _clear_idle_frames (yes : bool) : M unit :=
  if yes then
    update_panel (fun p =>
      set_values
        (PanelWindow.with_idle_frames (config.idle_frames (values p)) "" (values p)) p) ;;;
    PanelWindow._set_idle_frames []
  else ret tt.

(** [dialog] is [None] when the file dialog is dismissed, else its
    [selectedFiles()], of which the first is taken. *)
Definition _pick_image (kind : string) (dialog : option (list string)) : DeskM unit :=
  match dialog with
  | None => fun d => (Done tt, d)
  | Some [] => fail IndexError
  | Some (path :: _) =>
      if (kind =? "talk")%string then
        on_world
          (update_panel (fun p => set_values (with_talk_image path (values p)) p) ;;;
           PanelWindow._reload_avatar_images)
      else on_world (PanelWindow._set_idle_frames [path])
  end.

(** *** The talk frames

    As in [config], a path is the string [str(...).strip()] leaves as it
    is: the slots below store what the file dialog returns, and
    [load_images] strips it before loading, so a file name with blanks
    around it is outside this model. *)

Definition _talk_thresholds (v : config.Values) : list float :=
  map config.threshold (config.talk_frames v).

(** [_sync_talk_markers]: the meter is given the talk threshold and the
    thresholds of the talk frames, and asked to repaint. *)
Definition _sync_talk_markers : DeskM unit :=
  fun d =>
    let v := values (panel (world d)) in
    (Done tt,
     {| world := with_gui (level_meter_update :: gui (world d)) (world d);
        markers :=
          level_meter.set_thresholds (config.talk_th v) (_talk_thresholds v) (markers d) |}).

Definition _sorted_talk_frames : M (list config.talk_frame) :=
  w <- get ;;
  let frames :=
    list_sort config.threshold
      (filter (fun frame => PanelWindow.nonempty (config.image frame))
         (config.talk_frames (values (panel w)))) in
  update_panel (fun p => set_values (PanelWindow.with_talk_frames frames (values p)) p) ;;;
  ret frames.

(** [_rebuild_talk_rows]: the rows are rebuilt from [_sorted_talk_frames()]. *)
Definition _rebuild_talk_rows : M unit :=
  _sorted_talk_frames ;;; ret tt.

Definition _add_talk_frame_row : DeskM unit :=
  and_then
    (on_world
       (update_panel (fun p =>
          let v := values p in
          set_values
            (PanelWindow.with_talk_frames
               (config.talk_frames v
                ++ [{| config.image := config.talk_image v;
                       config.threshold := config.talk_th v |}]) v) p) ;;;
        _sorted_talk_frames ;;;
        _rebuild_talk_rows ;;;
        PanelWindow._reload_avatar_images))
    (fun _ => _sync_talk_markers).

Definition in_range {A : Type} (index : Z) (frames : list A) : bool :=
  (0 <=? index)%Z && (index <? Z.of_nat (List.length frames))%Z.

(** [frames[index][key] = ...] for [0 <= index < len(frames)]. *)
Definition update_row (index : nat) (f : config.talk_frame -> config.talk_frame)
    (frames : list config.talk_frame) : list config.talk_frame :=
  match nth_error frames index with
  | Some frame => setitem index (f frame) frames
  | None => frames
  end.

(** [picked] is what [_select_talk_image] returns: [None] when the dialog
    gave no file. *)
Definition _pick_talk_row_image (index : Z) (picked : option string) : M unit :=
  w <- get ;;
  let frames := config.talk_frames (values (panel w)) in
  if negb (in_range index frames) then ret tt
  else
    match picked with
    | None => ret tt
    | Some path =>
        if (path =? "")%string then ret tt
        else
          update_panel (fun p =>
            set_values
              (PanelWindow.with_talk_frames
                 (update_row (Z.to_nat index)
                    (fun frame =>
                       {| config.image := path;
                          config.threshold := config.threshold frame |})
                    frames)
                 (values p)) p) ;;;
          _rebuild_talk_rows ;;;
          PanelWindow._reload_avatar_images
    end.

Definition _update_talk_row_threshold (index : Z) (value : float) : DeskM unit :=
  fun d =>
    let frames := config.talk_frames (values (panel (world d))) in
    if negb (in_range index frames) then (Done tt, d)
    else
      and_then
        (on_world
           (update_panel (fun p =>
              set_values
                (PanelWindow.with_talk_frames
                   (update_row (Z.to_nat index)
                      (fun frame =>
                         {| config.image := config.image frame;
                            config.threshold := value |})
                      frames)
                   (values p)) p) ;;;
            _sorted_talk_frames ;;;
            _rebuild_talk_rows ;;;
            PanelWindow._reload_avatar_images))
        (fun _ => _sync_talk_markers) d.

Definition _remove_talk_row (index : Z) : DeskM unit :=
  fun d =>
    let frames := config.talk_frames (values (panel (world d))) in
    if negb (in_range index frames) then (Done tt, d)
    else
      and_then
        (on_world
           (update_panel (fun p =>
              set_values
                (PanelWindow.with_talk_frames (pop (Z.to_nat index) frames) (values p)) p) ;;;
            _rebuild_talk_rows ;;;
            PanelWindow._reload_avatar_images))
        (fun _ => _sync_talk_markers) d.

(** *** The session

    What the user and the event loop do once the panel is open: the events
    of the engine, and the buttons of the two image lists.  A change of the
    talk threshold ends with [_sync_talk_markers]. *)
Inductive action : Type :=
| engine (e : event)
| add_idle_clicked (dialog : option (list string))
| remove_idle_clicked (selected : list Z)
| move_idle_clicked (direction current : Z)
| clear_idle_clicked (yes : bool)
| browse_clicked (kind : string) (dialog : option (list string))
| add_level_clicked
| row_browse_clicked (index : Z) (picked : option string)
| row_spin_valueChanged (index : Z) (value : float)
| row_remove_clicked (index : Z).

Section Session.

Variable round : float -> Z -> float.

Definition act (a : action) : DeskM unit :=
  match a with
  | engine (talk_spin_valueChanged value) =>
      and_then (on_world (slot round (talk_spin_valueChanged value)))
        (fun _ => _sync_talk_markers)
  | engine e => on_world (slot round e)
  | add_idle_clicked dialog => on_world (_add_idle_frames dialog)
  | remove_idle_clicked selected => on_world (_remove_idle_frames selected)
  | move_idle_clicked direction current =>
      and_then (_move_idle_frame direction current) (fun _ d => (Done tt, d))
  | clear_idle_clicked yes => on_world (_clear_idle_frames yes)
  | browse_clicked kind dialog => _pick_image kind dialog
  | add_level_clicked => _add_talk_frame_row
  | row_browse_clicked index picked => on_world (_pick_talk_row_image index picked)
  | row_spin_valueChanged index value => _update_talk_row_threshold index value
  | row_remove_clicked index => _remove_talk_row index
  end.

(** An exception that leaves a slot reaches the hook of [error_handler.py],
    as in [step]. *)
Definition perform (a : action) (d : Desk) : Desk :=
  match act a d with
  | (Done _, d') => d'
  | (Failed _, d') =>
      {| world := with_gui (QMessageBox_critical "error.unexpected.title" :: gui (world d'))
                    (world d');
         markers := markers d' |}
  end.

Definition session (actions : list action) (d : Desk) : Desk :=
  fold_left (fun d a => perform a d) actions d.

(** The desk once [PanelWindow()] has returned: [_build_ui] has created the
    meter and handed it the talk threshold and the thresholds of the talk
    frames. *)
Definition opened (persisted : config.Values) (now : float)
    (g : random.state) (files : string -> bool) : Desk :=
  let w := snd (main round persisted now g files) in
  {| world := w;
     markers :=
       level_meter.set_thresholds (config.talk_th (values (panel w)))
         (_talk_thresholds (values (panel w))) level_meter.__init__ |}.

End Session.

End Editor.

(* ================================================================== *)
(** * Part I, continued: further observations *)
(* ================================================================== *)

(** ** Pre- and postconditions

    [triple P m Q E]: started in a state where [P] holds, [m] returns [a] in
    a state where [Q a] holds, or raises [e] in a state where [E e] holds. *)
Definition triple {A : Type} (P : World -> Prop) (m : M A)
    (Q : A -> World -> Prop) (E : exn -> World -> Prop) : Prop :=
  forall w : World,
    P w ->
    match m w with
    | (Ok a, w') => Q a w'
    | (Raise e, w') => E e w'
    end.

(** [m] keeps [I], however it ends. *)
Definition keeps {A : Type} (I : World -> Prop) (m : M A) : Prop :=
  triple I m (fun _ => I) (fun _ => I).

(** What [refresh] puts on the label of an avatar in state [a]. *)
Definition displayed (a : AvatarWindow) : label_content :=
  match (if is_talking a then snd (AvatarWindow._resolve_talk_variant a None)
         else AvatarWindow._current_idle_pix a) with
  | None => label_text "avatar.placeholder.no_images"
  | Some p => label_pixmap p
  end.

(** The idle index designates a frame of the list (or is 0 on an empty
    list). *)
Definition idle_index_ok (a : AvatarWindow) : Prop :=
  (idle_index a < Nat.max 1 (List.length (idle_pix_list a)))%nat.

(** The label shows what the state calls for, and the idle index is within
    the list. *)
Definition avatar_sound (w : World) : Prop :=
  label (avatar w) = displayed (avatar w) /\ idle_index_ok (avatar w).

(** The images [load_images] gets from the files: the idle frames and the
    default talk image. *)
Definition loaded_idle (files : string -> bool) (idle_paths : list string) (width : Z)
    : list QPixmap :=
  map (fun path => {| source_path := path; scaled_width := width |})
    (filter (fun path => negb (path =? "")%string && files path) idle_paths).

Definition loaded_default (files : string -> bool) (talk_default_path : string) (width : Z)
    : option QPixmap :=
  if negb (talk_default_path =? "")%string && files talk_default_path
  then Some {| source_path := talk_default_path; scaled_width := width |}
  else None.

(** The avatar once [load_images] has replaced its images. *)
Definition images_loaded (files : string -> bool) (idle_paths : list string)
    (talk_default_path : string) (talk_frames_data : list config.talk_frame) (width : Z)
    (a : AvatarWindow) : AvatarWindow :=
  set_talk_variants (list_sort fst (loaded_variants files talk_frames_data width))
    (set_talk_pix (loaded_default files talk_default_path width)
       (set_idle_index 0 (set_idle_pix_list (loaded_idle files idle_paths width) a))).

(** The avatar holds the images the settings name, at the settings'
    width. *)
Definition images_agree (w : World) : Prop :=
  let v := values (panel w) in
  idle_pix_list (avatar w)
  = loaded_idle (readable w) (PanelWindow._idle_paths v) (config.width v)
  /\ talk_pix (avatar w) = loaded_default (readable w) (config.talk_image v) (config.width v)
  /\ talk_variants (avatar w)
     = list_sort fst (loaded_variants (readable w) (config.talk_frames v) (config.width v)).

(** What a slot of the image lists leaves alone in the settings. *)
Definition kept_settings (v v' : config.Values) : Prop :=
  config.talk_th v' = config.talk_th v
  /\ config.idle_anim_random v' = config.idle_anim_random v
  /\ config.idle_interval_min v' = config.idle_interval_min v
  /\ config.idle_interval_max v' = config.idle_interval_max v.

(** The computations the slots of the image lists are made of: writes to
    the settings, the sorting of the talk frames, and at the end the reload
    of the avatar's images. *)
Inductive editing : M unit -> Prop :=
| editing_reload : editing PanelWindow._reload_avatar_images
| editing_write (f : config.Values -> config.Values) (m : M unit) :
    (forall v, kept_settings v (f v)) ->
    editing m ->
    editing (update_panel (fun p => set_values (f (values p)) p) ;;; m)
| editing_sorted (m : M unit) :
    editing m -> editing (Editor._sorted_talk_frames ;;; m).

(** What an action of a session runs on the state of the engine. *)
Inductive world_slot (round : float -> Z -> float) (a : Editor.action) : M unit -> Prop :=
| world_slot_event (e : event) : a = Editor.engine e -> world_slot round a (slot round e)
| world_slot_editing (m : M unit) : editing m -> world_slot round a m
| world_slot_none : world_slot round a (ret tt).

(** The settings [_reload_avatar_images] reads. *)
Definition image_settings (v : config.Values)
    : list string * string * list config.talk_frame * Z :=
  (config.idle_frames v, config.talk_image v, config.talk_frames v, config.width v).

(** The events whose slot reloads the avatar's images. *)
Definition reloads (e : event) : bool :=
  match e with
  | idle_frames_chosen _ | width_valueChanged _ => true
  | _ => false
  end.

(** Nothing heard: the level is zero, no reading is pending, and the avatar
    is idle. *)
Definition hushed (w : World) : Prop :=
  level (panel w) = 0.0%float /\ _rms_queue (mic w) = [] /\ is_talking (avatar w) = false.

(** The talk threshold lies in the range of the spin box. *)
Definition talk_th_clamped (v : config.Values) : Prop :=
  (0.001 <=? config.talk_th v)%float = true /\ (config.talk_th v <=? 0.5)%float = true.

(** The idle interval of the settings is ordered. *)
Definition interval_ordered (v : config.Values) : Prop :=
  (config.idle_interval_min v <=? config.idle_interval_max v)%float = true.

(** The meter and the avatar hold the smoothed level, clamped at zero. *)
Definition level_shared (w : World) : Prop :=
  level_meter w = Py.max 0.0%float (level (panel w))
  /\ talk_level (avatar w) = Py.max 0.0%float (level (panel w)).

(** No value an interval spin box delivers along [actions] is a NaN. *)
Definition intervals_comparable (actions : list Editor.action) : Prop :=
  forall (kind : string) (value : float),
    In (Editor.engine (idle_interval_valueChanged kind value)) actions ->
    (value <=? value)%float = true.

(** The audio callback publishes no reading along [actions]. *)
Definition silent (actions : list Editor.action) : Prop :=
  forall r : float, ~ In (Editor.engine (audio_callback (Some r))) actions.

(** Every value a threshold spin box of the talk rows delivers along
    [actions] is at least zero (the boxes range over [0.001, 1.0]). *)
Definition thresholds_in_range (actions : list Editor.action) : Prop :=
  forall (index : Z) (value : float),
    In (Editor.row_spin_valueChanged index value) actions ->
    (0 <=? value)%float = true.

(** The settings are what [_normalize_values] leaves. *)
Definition frames_normalized (frames : list config.talk_frame) : Prop :=
  Forall (fun frame => (config.image frame =? "")%string = false
                       /\ (0 <=? config.threshold frame)%float = true) frames
  /\ StronglySorted
       (fun a b => (config.threshold a <=? config.threshold b)%float = true) frames.


(** Sample inputs. *)

(** Settings written by a version that knew a single idle image: no idle
    frames, one idle image. *)
Definition legacy_settings : config.Values :=
  PanelWindow.with_idle_frames [] "idle.png" sample_settings.

(** Settings with three talk frames, out of order, one of them without an
    image. *)
Definition talk_frames_settings : config.Values :=
  PanelWindow.with_talk_frames
    [ {| config.image := "loud.png"; config.threshold := 0.2%float |};
      {| config.image := ""; config.threshold := 0.1%float |};
      {| config.image := "soft.png"; config.threshold := 0.05%float |} ]
    sample_settings.

(** A session: speech is heard, idle frames are added, removed and moved, a
    talk level is added and its threshold changed, the idle interval and the
    talk threshold are changed, and the idle timer fires. *)
Definition sample_session : list Editor.action :=
  [ Editor.engine (audio_callback (Some 0.5%float));
    Editor.engine (timer_timeout 100.1%float);
    Editor.add_idle_clicked (Some ["d.png"; "a.png"]%string);
    Editor.remove_idle_clicked [1%Z; 1%Z];
    Editor.move_idle_clicked 1 0;
    Editor.add_level_clicked;
    Editor.row_spin_valueChanged 0 0.2%float;
    Editor.engine (idle_interval_valueChanged "min" 0.9%float);
    Editor.engine (talk_spin_valueChanged 0.05%float);
    Editor.engine idle_timer_timeout ].

(** The same without the microphone: no reading is ever published. *)
Definition silent_session : list Editor.action :=
  [ Editor.engine (audio_callback None);
    Editor.engine (timer_timeout 100.1%float);
    Editor.add_idle_clicked (Some ["d.png"; "a.png"]%string);
    Editor.engine (talk_spin_valueChanged 0.001%float);
    Editor.engine (timer_timeout 100.2%float);
    Editor.engine idle_timer_timeout;
    Editor.engine (timer_timeout 100.3%float) ].

Definition sample_desk : Editor.Desk :=
  Editor.opened sample_round sample_settings 100%float sample_rng all_files.

(** A panel opened on settings with two talk frames and no talk image. *)
Definition rows_desk : Editor.Desk :=
  Editor.opened sample_round (Editor.with_talk_image "" talk_frames_settings) 100%float
    sample_rng all_files.

Definition sample_markers : level_meter.Markers :=
  level_meter.set_thresholds 0.03%float [0.2%float; (-1)%float; 0.05%float]
    level_meter.__init__.
(* ================================================================== *)
(** * Part II: properties *)
(* ================================================================== *)

(** ** Order on binary64 numbers

    The comparisons of primitive floats are specified by [SFcompare] on
    their decoded form ([ltb_spec], [leb_spec], [eqb_spec]). *)
Section FloatOrder.
#[local] Open Scope float_scope.

Lemma SFcompare_swap (x y : spec_float) :
  SFcompare y x = option_map CompOpp (SFcompare x y).
Proof.
  destruct x as [sx|sx| |sx mx ex], y as [sy|sy| |sy my ey]; simpl;
    try reflexivity;
    try (destruct sx; reflexivity); try (destruct sy; reflexivity);
    try (destruct sx, sy; reflexivity).
  destruct sx, sy; simpl; try reflexivity;
    rewrite (Z.compare_antisym ey ex);
    destruct (ey ?= ex)%Z; simpl; try reflexivity;
    change (Pos.compare_cont Eq my mx) with (Pos.compare my mx);
    change (Pos.compare_cont Eq mx my) with (Pos.compare mx my);
    rewrite (Pos.compare_antisym mx my);
    destruct (mx ?= my)%positive; reflexivity.
Qed.

Ltac fold_pos_compare :=
  repeat match goal with
    | |- context [Pos.compare_cont Eq ?a ?b] =>
        change (Pos.compare_cont Eq a b) with (Pos.compare a b)
    | H : context [Pos.compare_cont Eq ?a ?b] |- _ =>
        change (Pos.compare_cont Eq a b) with (Pos.compare a b) in H
    end.

Lemma SFcompare_trans (x y z : spec_float) (c : comparison) :
  SFcompare x y = Some c -> SFcompare y z = Some c -> SFcompare x z = Some c.
Proof.
  destruct x as [sx|sx| |sx mx ex], y as [sy|sy| |sy my ey], z as [sz|sz| |sz mz ez];
    simpl; try congruence;
    try (destruct sx; simpl; congruence);
    try (destruct sy; simpl; congruence);
    try (destruct sz; simpl; congruence);
    try (destruct sx, sy; simpl; congruence);
    try (destruct sx, sz; simpl; congruence);
    try (destruct sy, sz; simpl; congruence);
    try (destruct sx, sy, sz; simpl; congruence).
  destruct sx, sy, sz; simpl; try congruence;
    destruct (Z.compare_spec ex ey), (Z.compare_spec ey ez), (Z.compare_spec ex ez);
    simpl; try congruence; try lia; subst; fold_pos_compare;
    destruct (Pos.compare_spec mx my), (Pos.compare_spec my mz), (Pos.compare_spec mx mz);
    simpl; try congruence; try lia.
Qed.

Lemma SFcompare_Eq_l (x y z : spec_float) :
  SFcompare x y = Some Eq -> SFcompare x z = SFcompare y z.
Proof.
  destruct x as [sx|sx| |sx mx ex], y as [sy|sy| |sy my ey], z as [sz|sz| |sz mz ez];
    simpl; try congruence;
    try (destruct sx; simpl; congruence);
    try (destruct sy; simpl; congruence);
    try (destruct sx, sy; simpl; congruence).
  all: destruct sx, sy; simpl; try congruence;
    destruct (Z.compare_spec ex ey); simpl; try congruence; subst; fold_pos_compare;
    destruct (Pos.compare_spec mx my); simpl; try congruence; subst; reflexivity.
Qed.

Lemma SFleb_trans (x y z : spec_float) :
  SFleb x y = true -> SFleb y z = true -> SFleb x z = true.
Proof.
  unfold SFleb.
  destruct (SFcompare x y) as [[| |]|] eqn:Hxy; try discriminate;
  destruct (SFcompare y z) as [[| |]|] eqn:Hyz; try discriminate; intros _ _.
  - now rewrite (SFcompare_Eq_l x y z Hxy), Hyz.
  - now rewrite (SFcompare_Eq_l x y z Hxy), Hyz.
  - assert (Hzy : SFcompare z y = Some Eq)
      by (rewrite (SFcompare_swap y z), Hyz; reflexivity).
    rewrite (SFcompare_swap z x), (SFcompare_Eq_l z y x Hzy), (SFcompare_swap x y), Hxy.
    reflexivity.
  - now rewrite (SFcompare_trans x y z Lt Hxy Hyz).
Qed.

Lemma ltb_leb (x y : float) : (x <? y) = true -> (x <=? y) = true.
Proof.
  rewrite ltb_spec, leb_spec. unfold SFltb, SFleb.
  destruct (SFcompare _ _) as [[| |]|]; congruence.
Qed.

Lemma eqb_leb (x y : float) : (x =? y) = true -> (x <=? y) = true.
Proof.
  rewrite eqb_spec, leb_spec. unfold SFeqb, SFleb.
  destruct (SFcompare _ _) as [[| |]|]; congruence.
Qed.

Lemma leb_not_ltb (x y : float) : (x <=? y) = true -> (y <? x) = false.
Proof.
  rewrite ltb_spec, leb_spec. unfold SFltb, SFleb.
  rewrite (SFcompare_swap (Prim2SF x) (Prim2SF y)).
  destruct (SFcompare _ _) as [[| |]|]; simpl; congruence.
Qed.

Lemma SFleb_refl_of_comparable (x y : spec_float) (c : comparison) :
  SFcompare x y = Some c -> SFleb x x = true /\ SFleb y y = true.
Proof.
  unfold SFleb.
  destruct x as [sx|sx| |sx mx ex], y as [sy|sy| |sy my ey]; simpl; try congruence;
    intros _; split; try reflexivity;
    try (destruct sx; reflexivity); try (destruct sy; reflexivity).
  all: match goal with
       | |- context [(?e ?= ?e)%Z] => rewrite (Z.compare_refl e)
       end;
       fold_pos_compare;
       match goal with
       | |- context [(?m ?= ?m)%positive] => rewrite (Pos.compare_refl m)
       end;
       match goal with
       | |- context [if ?s then _ else _] => destruct s
       | _ => idtac
       end; try reflexivity.
Qed.

Lemma leb_self_r (x y : float) : (x <=? y) = true -> (y <=? y) = true.
Proof.
  rewrite !leb_spec. intros H.
  destruct (SFcompare (Prim2SF x) (Prim2SF y)) as [c|] eqn:E.
  - exact (proj2 (SFleb_refl_of_comparable _ _ c E)).
  - unfold SFleb in H. now rewrite E in H.
Qed.

Lemma leb_trans (x y z : float) :
  (x <=? y) = true -> (y <=? z) = true -> (x <=? z) = true.
Proof. rewrite !leb_spec. apply SFleb_trans. Qed.

End FloatOrder.

(** ** The loudness sampler *)

(** [drain] is the loop of [read]: one [get_nowait] per turn, until the queue
    is empty. *)
Lemma drain_get_nowait (latest_value : float) (q : list float) :
  Mic.drain latest_value q =
  match Queue.get_nowait q with
  | None => (latest_value, q)
  | Some (x, q') => Mic.drain x q'
  end.
Proof. destruct q; reflexivity. Qed.

Lemma last_cons_default {A : Type} (q : list A) (x d : A) :
  List.last (x :: q) d = List.last q x.
Proof.
  revert x d. induction q as [|y q IH]; intros x d.
  - reflexivity.
  - change (List.last (x :: y :: q) d) with (List.last (y :: q) d).
    rewrite (IH y d). symmetry. apply IH.
Qed.

Lemma drain_last (q : list float) (latest_value : float) :
  Mic.drain latest_value q = (List.last q latest_value, []).
Proof.
  revert latest_value.
  induction q as [|x q IH]; intros latest_value.
  - reflexivity.
  - rewrite last_cons_default. simpl. apply IH.
Qed.

Lemma last_put (q : list float) (x d : float) : List.last (Queue.put x q) d = x.
Proof. unfold Queue.put. apply last_last. Qed.

Lemma Mic_read_spec (w : World) :
  Mic.read w =
  (Ok (List.last (_rms_queue (mic w)) 0.0%float), with_mic {| _rms_queue := [] |} w).
Proof. unfold Mic.read. now rewrite drain_last. Qed.

(** C5.  [Mic.read] returns the reading enqueued last and leaves the queue
    empty, whatever the queue holds: every older reading is dropped, the
    reading just published by the audio callback is the one returned, and an
    empty queue gives 0.0.  Nothing else of the state changes. *)
Theorem Mic_read_keeps_latest :
  (forall w : World,
     Mic.read w =
     (Ok (List.last (_rms_queue (mic w)) 0.0%float), with_mic {| _rms_queue := [] |} w))
  /\ (forall (w : World) (r : float),
        fst (Mic.read (snd (Mic._stream_callback (Some r) w))) = Ok r)
  /\ (forall w : World,
        _rms_queue (mic w) = [] -> fst (Mic.read w) = Ok 0.0%float).
Proof.
  split; [exact Mic_read_spec|split].
  - intros w r. rewrite Mic_read_spec. simpl. now rewrite last_put.
  - intros w Hq. rewrite Mic_read_spec, Hq. reflexivity.
Qed.

Lemma Mic_read_keeps_latest_witness :
  _rms_queue (mic sample_world) = [] /\ fst (Mic.read sample_world) = Ok 0.0%float.
Proof.
  split; [reflexivity|].
  apply (proj2 (proj2 Mic_read_keeps_latest) sample_world). reflexivity.
Defined.

(** ** Signs through rounding

    The product and the sum of numbers that are at least zero are at least
    zero: rounding ([binary_round_aux]) keeps the sign it is given and never
    turns a mantissa negative. *)
Section FloatSign.
#[local] Open Scope Z_scope.

Lemma leb0_nonneg (x : float) : (0 <=? x)%float = sf_nonneg (Prim2SF x).
Proof.
  rewrite leb_spec. change (Prim2SF 0%float) with (S754_zero false).
  unfold SFleb. destruct (Prim2SF x) as [s|s| |s m e]; simpl; try reflexivity;
    destruct s; reflexivity.
Qed.

Lemma shr_1_nonneg (mrs : shr_record) : 0 <= shr_m mrs -> 0 <= shr_m (shr_1 mrs).
Proof.
  destruct mrs as [m r s]. simpl. intros Hm.
  destruct m as [|p|p]; [simpl; lia| |lia].
  destruct p; simpl; lia.
Qed.

Lemma iter_pos_nonneg (p : positive) :
  forall mrs : shr_record, 0 <= shr_m mrs -> 0 <= shr_m (iter_pos shr_1 p mrs).
Proof.
  induction p as [p IH|p IH|]; intros mrs Hm; simpl.
  - apply IH, IH, shr_1_nonneg, Hm.
  - apply IH, IH, Hm.
  - apply shr_1_nonneg, Hm.
Qed.

Lemma shr_fexp_nonneg (m e : Z) (l : location) :
  0 <= m -> 0 <= shr_m (fst (shr_fexp prec emax m e l)).
Proof.
  intros Hm. unfold shr_fexp, shr.
  assert (H0 : 0 <= shr_m (shr_record_of_loc m l)).
  { destruct l as [|[| |]]; exact Hm. }
  destruct (fexp prec emax (Zdigits2 m + e) - e) as [|p|p]; simpl; try exact H0.
  now apply iter_pos_nonneg.
Qed.

Lemma round_nearest_even_nonneg (m : Z) (l : location) :
  0 <= m -> 0 <= round_nearest_even m l.
Proof.
  intros Hm. destruct l as [|[| |]]; simpl; try lia.
  destruct (Z.even m); lia.
Qed.

Lemma binary_round_aux_nonneg (mx ex : Z) (lx : location) :
  0 <= mx -> sf_nonneg (binary_round_aux prec emax false mx ex lx) = true.
Proof.
  intros Hm. unfold binary_round_aux.
  pose proof (shr_fexp_nonneg mx ex lx Hm) as H1.
  destruct (shr_fexp prec emax mx ex lx) as [mrs' e']. simpl in H1.
  pose proof (shr_fexp_nonneg
                (round_nearest_even (shr_m mrs') (loc_of_shr_record mrs')) e' loc_Exact
                (round_nearest_even_nonneg _ _ H1)) as H2.
  destruct (shr_fexp prec emax _ e' loc_Exact) as [mrs'' e'']. simpl in H2.
  destruct (shr_m mrs'') as [|p|p]; [reflexivity| |lia].
  destruct (e'' <=? emax - prec); reflexivity.
Qed.

Lemma SFmul_nonneg (x : spec_float) (m : positive) (e : Z) :
  sf_nonneg x = true -> sf_nonneg (SF64mul x (S754_finite false m e)) = true.
Proof.
  unfold SF64mul. destruct x as [s|s| |s mx ex]; simpl; try discriminate.
  - reflexivity.
  - destruct s; [discriminate|reflexivity].
  - destruct s; [discriminate|]. intros _. simpl.
    apply binary_round_aux_nonneg. lia.
Qed.

Lemma SFadd_nonneg (x y : spec_float) :
  sf_nonneg x = true -> sf_nonneg y = true -> sf_nonneg (SF64add x y) = true.
Proof.
  unfold SF64add.
  destruct x as [sx|sx| |sx mx ex], y as [sy|sy| |sy my ey]; simpl;
    try discriminate; try (destruct sx; try discriminate); try (destruct sy; try discriminate);
    try reflexivity.
  intros _ _. simpl.
  unfold binary_round.
  destruct (shl_align _ _ _) as [mz ez].
  apply binary_round_aux_nonneg. lia.
Qed.

(** The update of the smoothed level keeps it at least zero. *)
Lemma ewma_nonneg (s r : float) :
  (0 <=? s)%float = true -> (0 <=? r)%float = true ->
  (0 <=? (s * 0.7) + (r * 0.3))%float = true.
Proof.
  rewrite !leb0_nonneg, add_spec, !mul_spec. intros Hs Hr.
  change (Prim2SF 0.7%float) with (S754_finite false 6305039478318694 (-53)).
  change (Prim2SF 0.3%float) with (S754_finite false 5404319552844595 (-54)).
  apply SFadd_nonneg; now apply SFmul_nonneg.
Qed.

End FloatSign.

(** ** Sequencing *)

Lemma bind_Ok {A B : Type} (m : M A) (k : A -> M B) (w w' : World) (a : A) :
  m w = (Ok a, w') -> bind m k w = k a w'.
Proof. unfold bind. now intros ->. Qed.

Lemma bind_Raise {A B : Type} (m : M A) (k : A -> M B) (w w' : World) (e : exn) :
  m w = (Raise e, w') -> bind m k w = (Raise e, w').
Proof. unfold bind. now intros ->. Qed.

Lemma bind_update_avatar {B : Type} (f : AvatarWindow -> AvatarWindow)
    (k : unit -> M B) (w : World) :
  bind (update_avatar f) k w = k tt (with_avatar (f (avatar w)) w).
Proof. reflexivity. Qed.

Lemma bind_update_panel {B : Type} (f : PanelWindow -> PanelWindow)
    (k : unit -> M B) (w : World) :
  bind (update_panel f) k w = k tt (with_panel (f (panel w)) w).
Proof. reflexivity. Qed.

Lemma bind_get {B : Type} (k : World -> M B) (w : World) :
  bind get k w = k w w.
Proof. reflexivity. Qed.

Lemma try_except_Ok {A : Type} (m : M A) (h : exn -> M A) (w w' : World) (a : A) :
  m w = (Ok a, w') -> try_except m h w = (Ok a, w').
Proof. unfold try_except. now intros ->. Qed.

Lemma try_except_Raise {A : Type} (m : M A) (h : exn -> M A) (w w' : World) (e : exn) :
  m w = (Raise e, w') -> try_except m h w = h e w'.
Proof. unfold try_except. now intros ->. Qed.

(** ** The avatar window: what each method does to the state *)

(** [refresh] only rewrites the label (and tells Qt so). *)
Lemma refresh_spec (w : World) :
  exists (c : label_content) (calls : list gui_call),
    AvatarWindow.refresh w =
    (Ok tt, with_gui (calls ++ gui w) (with_avatar (set_label c (avatar w)) w))
    /\ filter is_mic_notice calls = [].
Proof.
  unfold AvatarWindow.refresh, bind, get.
  destruct (if is_talking (avatar w)
            then snd (AvatarWindow._resolve_talk_variant (avatar w) None)
            else AvatarWindow._current_idle_pix (avatar w)) as [p|].
  - exists (label_pixmap p), [label_setPixmap p; label_setText ""]. split; reflexivity.
  - exists (label_text "avatar.placeholder.no_images"),
      [label_setText "avatar.placeholder.no_images"].
    split; reflexivity.
Qed.

(** [_update_idle_timer]: the three ways it ends. *)
Lemma _update_idle_timer_spec (w : World) :
  let self := avatar w in
  let draw := random.uniform (idle_interval_min self) (idle_interval_max self) (rng w) in
  AvatarWindow._update_idle_timer w =
  if idle_paused self then
    (Ok tt, with_gui (idle_timer_stop :: gui w) (with_avatar (set_idle_timer None self) w))
  else
    match Py.int (fst draw * 1000)%float with
    | Ok msec =>
        (Ok tt, with_gui (idle_timer_start msec :: gui w)
                  (with_avatar (set_idle_timer (Some msec) self) (with_rng (snd draw) w)))
    | Raise e => (Raise e, with_rng (snd draw) w)
    end.
Proof.
  unfold AvatarWindow._update_idle_timer, idle_paused, bind, get. simpl.
  destruct ((List.length (idle_pix_list (avatar w)) <=? 1)%nat || is_talking (avatar w));
    [reflexivity|].
  unfold AvatarWindow.random_uniform, lift_result, random.uniform, random.random.
  simpl.
  match goal with
  | |- context [Py.int ?x] => destruct (Py.int x)
  end; reflexivity.
Qed.

(** In every outcome, [_update_idle_timer] touches only the idle timer, the
    generator and the call log. *)
Lemma _update_idle_timer_frame (w : World) :
  exists (r : result unit) (t : option Z) (g : random.state) (calls : list gui_call),
    AvatarWindow._update_idle_timer w =
    (r, with_gui (calls ++ gui w) (with_avatar (set_idle_timer t (avatar w)) (with_rng g w)))
    /\ filter is_mic_notice calls = []
    /\ (idle_paused (avatar w) = true -> t = None /\ r = Ok tt)
    /\ (idle_paused (avatar w) = false -> t = None -> t = idle_timer (avatar w)).
Proof.
  rewrite _update_idle_timer_spec. cbv zeta.
  destruct (idle_paused (avatar w)) eqn:Hp.
  - exists (Ok tt), None, (rng w), [idle_timer_stop].
    repeat split; try discriminate.
  - match goal with
    | |- context [Py.int ?x] => destruct (Py.int x) as [msec|e] eqn:Hi
    end.
    + eexists (Ok tt), (Some msec), _, [idle_timer_start msec].
      repeat split; try discriminate.
    + exists (Raise e), (idle_timer (avatar w)),
        (snd (random.uniform (idle_interval_min (avatar w))
                (idle_interval_max (avatar w)) (rng w))), [].
      split; [destruct w as [p a m l g rd gu]; destruct a; reflexivity|].
      repeat split; try discriminate; try tauto.
Qed.

(** [set_talking] with the state it already has stops at the first test. *)
Lemma set_talking_same (w : World) (talking : bool) :
  is_talking (avatar w) = talking -> AvatarWindow.set_talking talking w = (Ok tt, w).
Proof.
  intros H. unfold AvatarWindow.set_talking, bind, get.
  now rewrite H, Bool.eqb_reflx.
Qed.

(** [set_talking] with the other state: the flag is written first, then the
    label is refreshed and the idle timer updated; only the last step can
    raise, and only when the avatar falls idle. *)
Lemma set_talking_other (w : World) (talking : bool) :
  is_talking (avatar w) <> talking ->
  exists (r : result unit) (t : option Z) (g : random.state)
         (c : label_content) (calls : list gui_call),
    AvatarWindow.set_talking talking w =
    (r, with_gui (calls ++ gui w)
          (with_avatar
             (set_idle_timer t (set_label c (set_is_talking talking (avatar w))))
             (with_rng g w)))
    /\ filter is_mic_notice calls = []
    /\ (idle_paused (set_is_talking talking (avatar w)) = true -> t = None /\ r = Ok tt).
Proof.
  intros H. unfold AvatarWindow.set_talking, bind, get, update_avatar.
  destruct (Bool.eqb (is_talking (avatar w)) talking) eqn:E.
  { apply Bool.eqb_prop in E. contradiction. }
  destruct (refresh_spec (with_avatar (set_is_talking talking (avatar w)) w))
    as (c & calls1 & -> & Hc1).
  match goal with
  | |- context [AvatarWindow._update_idle_timer ?w1] =>
      destruct (_update_idle_timer_frame w1) as (r & t & g & calls2 & -> & Hc2 & Hstop & _)
  end.
  exists r, t, g, c, (calls2 ++ calls1).
  split; [|split].
  - simpl. now rewrite <- app_assoc.
  - now rewrite filter_app, Hc1, Hc2.
  - intros Hp. apply Hstop. exact Hp.
Qed.

Lemma set_talking_is_talking (w : World) (talking : bool) :
  is_talking (avatar (snd (AvatarWindow.set_talking talking w))) = talking.
Proof.
  destruct (Bool.bool_dec (is_talking (avatar w)) talking) as [E|E].
  - now rewrite (set_talking_same w talking E).
  - destruct (set_talking_other w talking E) as (r & t & g & c & calls & -> & _).
    reflexivity.
Qed.

(** C10.  [set_talking(b)] on an avatar whose talking state is already [b]
    returns at once and leaves the whole state as it was: no field of the
    avatar changes, nothing is sent to the label or to the idle timer (the
    call log is the same) and no interval is drawn (the generator is the
    same).  Hence a second [set_talking(b)] after a first one changes
    nothing. *)
Theorem set_talking_idempotent :
  (forall w : World,
     AvatarWindow.set_talking (is_talking (avatar w)) w = (Ok tt, w))
  /\ (forall (w : World) (b : bool),
        let w1 := snd (AvatarWindow.set_talking b w) in
        AvatarWindow.set_talking b w1 = (Ok tt, w1)).
Proof.
  split.
  - intros w. now apply set_talking_same.
  - intros w b w1. apply set_talking_same. apply set_talking_is_talking.
Qed.

(** ** The variant selector *)

Section Selector.
#[local] Open Scope float_scope.



(** Clamping a level that is already at least 0 does not change any
    comparison with it. *)
Lemma leb_max_0 (level t : float) :
  (0 <=? level) = true -> (t <=? Py.max 0.0 level) = (t <=? level).
Proof.
  intros H0. unfold Py.max, Py.gt.
  destruct (0 <? level) eqn:Hlt; [reflexivity|].
  rewrite !leb_spec. rewrite ltb_spec in Hlt. rewrite leb_spec in H0.
  unfold SFleb, SFltb in *.
  destruct (SFcompare (Prim2SF 0) (Prim2SF level)) as [[| |]|] eqn:E; try discriminate.
  rewrite (SFcompare_swap (Prim2SF 0) (Prim2SF t)),
          (SFcompare_swap (Prim2SF level) (Prim2SF t)).
  now rewrite (SFcompare_Eq_l _ _ (Prim2SF t) E).
Qed.


(** The scan is monotone in the level. *)
Lemma resolve_scan_mono (l1 l2 : float) (variants : list (float * QPixmap)) :
  (forall t, (t <=? l1) = true -> (t <=? l2) = true) ->
  forall (i : Z) (b1 b2 : Z * option QPixmap),
    (fst b1 <= fst b2)%Z -> (fst b1 < i)%Z ->
    (fst (AvatarWindow.resolve_scan l1 variants i b1)
     <= fst (AvatarWindow.resolve_scan l2 variants i b2))%Z.
Proof.
  intros Hle. induction variants as [|[threshold pixmap] rest IH]; intros i b1 b2 H12 H1.
  - exact H12.
  - cbn [AvatarWindow.resolve_scan]. unfold Py.ge.
    destruct (threshold <=? l1) eqn:Q1.
    + rewrite (Hle _ Q1). apply IH; simpl; lia.
    + destruct (threshold <=? l2); apply IH; simpl; lia.
Qed.

End Selector.

(** ** The stable sort *)

Section Sort.
#[local] Open Scope float_scope.
Context {A : Type} (key : A -> float).

Lemma sort_insert_perm (x : A) (l : list A) : Permutation (x :: l) (sort_insert key x l).
Proof.
  induction l as [|y l IH]; simpl.
  - apply Permutation_refl.
  - destruct (key y <? key x).
    + apply perm_trans with (y :: x :: l); [apply perm_swap|].
      now apply perm_skip.
    + apply Permutation_refl.
Qed.

Lemma list_sort_perm (l : list A) : Permutation l (list_sort key l).
Proof.
  induction l as [|x l IH]; simpl.
  - apply perm_nil.
  - apply perm_trans with (x :: list_sort key l).
    + now apply perm_skip.
    + apply sort_insert_perm.
Qed.




(** Two numbers that are no NaN are ordered one way or the other. *)
Lemma not_ltb_leb (x y : float) :
  (x <=? x) = true -> (y <=? y) = true -> (y <? x) = false -> (x <=? y) = true.
Proof.
  rewrite !leb_spec, ltb_spec. unfold SFleb, SFltb.
  rewrite (SFcompare_swap (Prim2SF x) (Prim2SF y)).
  destruct (Prim2SF x) as [sx|sx| |sx mx ex], (Prim2SF y) as [sy|sy| |sy my ey];
    simpl; try discriminate; intros _ _;
    repeat match goal with
      | |- context [if ?s then _ else _] => destruct s; simpl
      end; try congruence;
    destruct (ex ?= ey)%Z; simpl; try congruence;
    destruct (Pos.compare_cont Eq mx my); simpl; congruence.
Qed.

Lemma sort_insert_sorted (x : A) (l : list A) :
  (key x <=? key x) = true ->
  Forall (fun v => (key v <=? key v) = true) l ->
  Sorted (fun a b => (key a <=? key b) = true) l ->
  Sorted (fun a b => (key a <=? key b) = true) (sort_insert key x l).
Proof.
  intros Hx Hl Hs. induction l as [|y l IH]; simpl.
  - repeat constructor.
  - inversion Hl as [|? ? Hy Hl']; subst. inversion Hs as [|? ? Hs' Hhd]; subst.
    destruct (key y <? key x) eqn:Hlt.
    + constructor; [now apply IH|].
      destruct l as [|z l]; simpl.
      * constructor. now apply ltb_leb.
      * destruct (key z <? key x).
        -- constructor. now inversion Hhd.
        -- constructor. now apply ltb_leb.
    + constructor; [assumption|]. constructor. now apply not_ltb_leb.
Qed.

Lemma list_sort_sorted (l : list A) :
  Forall (fun v => (key v <=? key v) = true) l ->
  Sorted (fun a b => (key a <=? key b) = true) (list_sort key l).
Proof.
  induction l as [|x l IH]; intros Hl; simpl.
  - constructor.
  - inversion Hl; subst. apply sort_insert_sorted; try assumption.
    + apply (Permutation_Forall (list_sort_perm l)). assumption.
    + now apply IH.
Qed.

Lemma list_sort_strongly_sorted (l : list A) :
  Forall (fun v => (key v <=? key v) = true) l ->
  StronglySorted (fun a b => (key a <=? key b) = true) (list_sort key l).
Proof.
  intros Hl. apply Sorted_StronglySorted.
  - intros a b c. apply leb_trans.
  - now apply list_sort_sorted.
Qed.

End Sort.

(** [set_talk_level] stores the clamped level and refreshes the label when
    the avatar talks and the chosen index moved. *)
Lemma set_talk_level_spec (w : World) (lvl : float) :
  exists (c : label_content) (calls : list gui_call),
    AvatarWindow.set_talk_level lvl w =
    (Ok tt,
     with_gui (calls ++ gui w)
       (with_avatar
          (set_label c (set_talk_level_field (Py.max 0.0%float lvl) (avatar w))) w))
    /\ filter is_mic_notice calls = [].
Proof.
  unfold AvatarWindow.set_talk_level, bind, get, update_avatar, ret.
  match goal with
  | |- context [if ?b then _ else _] => destruct b
  end.
  - match goal with
    | |- context [AvatarWindow.refresh ?w1] =>
        destruct (refresh_spec w1) as (c & calls & -> & Hc)
    end.
    exists c, calls. split; [reflexivity|assumption].
  - exists (label (avatar w)), []. split; reflexivity.
Qed.

(** The specification's example: the list
    [[(0.05, b); (0.02, a); (0.02, a2)]] is sorted into
    [[(0.02, a); (0.02, a2); (0.05, b)]], and at level 0.02 the selector
    returns [a2], at index 1. *)
Example resolve_talk_variant_example :
  talk_variants sample_avatar =
    [(0.02%float, pix "a"); (0.02%float, pix "a2"); (0.05%float, pix "b")]
  /\ AvatarWindow._resolve_talk_variant sample_avatar (Some 0.02%float)
     = (1%Z, Some (pix "a2"))
  /\ AvatarWindow._resolve_talk_variant sample_avatar (Some 0.01%float)
     = ((-1)%Z, Some (pix "talk")).
Proof. repeat split; vm_compute; reflexivity. Qed.

(** C7.  For a fixed variant list the index the selector returns is
    monotone in the level: for levels [0 <= l1 <= l2] the index chosen at
    [l1] is at most the index chosen at [l2]. *)
Theorem resolve_talk_variant_monotone :
  forall (self : AvatarWindow) (l1 l2 : float),
    (0 <=? l1)%float = true ->
    (l1 <=? l2)%float = true ->
    (fst (AvatarWindow._resolve_talk_variant self (Some l1))
     <= fst (AvatarWindow._resolve_talk_variant self (Some l2)))%Z.
Proof.
  intros self l1 l2 H1 H12.
  assert (H2 : (0 <=? l2)%float = true) by (eapply leb_trans; eassumption).
  unfold AvatarWindow._resolve_talk_variant.
  apply resolve_scan_mono; simpl; try lia.
  intros t. rewrite (leb_max_0 l1 t H1), (leb_max_0 l2 t H2).
  intros Ht. eapply leb_trans; eassumption.
Qed.

Lemma resolve_talk_variant_monotone_witness :
  (fst (AvatarWindow._resolve_talk_variant sample_avatar (Some 0.02%float))
   <= fst (AvatarWindow._resolve_talk_variant sample_avatar (Some 0.05%float)))%Z.
Proof.
  exact (resolve_talk_variant_monotone sample_avatar 0.02%float 0.05%float eq_refl eq_refl).
Defined.

(** ** The idle scheduler *)

(** A firing on a non-empty sequence while idle: the index step, a refresh,
    and the timer update. *)
Lemma _advance_idle_frame_running (w : World) :
  idle_pix_list (avatar w) <> [] ->
  is_talking (avatar w) = false ->
  exists (c : label_content) (calls : list gui_call),
    filter is_mic_notice calls = []
    /\ AvatarWindow._advance_idle_frame w =
       AvatarWindow._update_idle_timer
         (avatar_moved w
            (set_label c (set_idle_index (fst (next_idle_index (avatar w) (rng w))) (avatar w)))
            (snd (next_idle_index (avatar w) (rng w)))
            calls).
Proof.
  intros Hlen Htalk.
  unfold AvatarWindow._advance_idle_frame, next_idle_index, bind, get.
  destruct (idle_pix_list (avatar w)) as [|p0 ps] eqn:Hl; [contradiction|].
  rewrite Htalk.
  destruct (idle_random (avatar w)) eqn:Hr.
  - unfold AvatarWindow.random_randrange, random.randrange, update_avatar. cbn [fst snd].
    match goal with
    | |- context [AvatarWindow.refresh ?w1] =>
        destruct (refresh_spec w1) as (c & calls & -> & Hc)
    end.
    exists c, calls. split; [assumption|]. reflexivity.
  - unfold update_avatar. cbn [fst snd].
    match goal with
    | |- context [AvatarWindow.refresh ?w1] =>
        destruct (refresh_spec w1) as (c & calls & -> & Hc)
    end.
    exists c, calls. split; [assumption|].
    destruct w as [pn a m lm g rd gu]; reflexivity.
Qed.

(** A firing on an empty sequence, or while talking, only updates the
    timer. *)
Lemma _advance_idle_frame_suppressed (w : World) :
  idle_pix_list (avatar w) = [] \/ is_talking (avatar w) = true ->
  AvatarWindow._advance_idle_frame w = AvatarWindow._update_idle_timer w.
Proof.
  intros H. unfold AvatarWindow._advance_idle_frame, bind, get.
  destruct (idle_pix_list (avatar w)) as [|p0 ps]; [reflexivity|].
  destruct H as [H|H]; [discriminate|]. now rewrite H.
Qed.

(** In every case a firing touches only the idle index, the label, the idle
    timer, the generator and the call log, and leaves the timer stopped when
    the scheduler is paused. *)
Lemma _advance_idle_frame_frame (w : World) :
  exists (r : result unit) (t : option Z) (g : random.state)
         (c : label_content) (i : nat) (calls : list gui_call),
    AvatarWindow._advance_idle_frame w =
    (r, avatar_moved w (set_idle_timer t (set_label c (set_idle_index i (avatar w)))) g calls)
    /\ filter is_mic_notice calls = []
    /\ (idle_paused (avatar w) = true -> t = None /\ r = Ok tt).
Proof.
  destruct (idle_pix_list (avatar w)) as [|p0 ps] eqn:Hl;
    [|destruct (is_talking (avatar w)) eqn:Ht].
  1, 2: rewrite _advance_idle_frame_suppressed by (auto);
    destruct (_update_idle_timer_frame w) as (r & t & g & calls & -> & Hc & Hstop & _);
    exists r, t, g, (label (avatar w)), (idle_index (avatar w)), calls;
    (split; [|split; [assumption|exact Hstop]]);
    destruct w as [pn a m lm g0 rd gu]; destruct a; reflexivity.
  assert (Hne : idle_pix_list (avatar w) <> []) by (rewrite Hl; discriminate).
  destruct (_advance_idle_frame_running w Hne Ht) as (c & calls1 & Hc1 & ->).
  match goal with
  | |- context [AvatarWindow._update_idle_timer ?w1] =>
      destruct (_update_idle_timer_frame w1) as (r & t & g & calls2 & -> & Hc2 & Hstop & _)
  end.
  exists r, t, g, c, (fst (next_idle_index (avatar w) (rng w))), (calls2 ++ calls1).
  split; [|split].
  - unfold avatar_moved. simpl. now rewrite <- app_assoc.
  - now rewrite filter_app, Hc1, Hc2.
  - intros Hp. apply Hstop. exact Hp.
Qed.

Lemma update_idle_anim_options_frame (w : World) (random_order : bool) (lo hi : float) :
  exists (r : result unit) (t : option Z) (g : random.state) (calls : list gui_call),
    AvatarWindow.update_idle_anim_options random_order lo hi w =
    (r, avatar_moved w
          (set_idle_timer t
             (set_idle_options random_order (Py.max 0.05%float lo)
                (Py.max (Py.max 0.05%float lo) hi) (avatar w)))
          g calls)
    /\ filter is_mic_notice calls = []
    /\ (idle_paused (avatar w) = true -> t = None /\ r = Ok tt).
Proof.
  unfold AvatarWindow.update_idle_anim_options, bind, update_avatar.
  match goal with
  | |- context [AvatarWindow._update_idle_timer ?w1] =>
      destruct (_update_idle_timer_frame w1) as (r & t & g & calls & -> & Hc & Hstop & _)
  end.
  exists r, t, g, calls. split; [reflexivity|]. split; [assumption|].
  intros Hp. apply Hstop. exact Hp.
Qed.

(** ** Loading the images *)

Lemma load_idle_pure (idle_paths : list string) (width : Z) :
  forall (pix_list : list QPixmap) (idle_errors : list string) (w : World),
  exists pix_list' idle_errors',
    AvatarWindow.load_idle idle_paths width pix_list idle_errors w =
    (Ok (pix_list', idle_errors'), w).
Proof.
  induction idle_paths as [|path rest IH]; intros pix_list idle_errors w.
  - now exists pix_list, idle_errors.
  - cbn [AvatarWindow.load_idle]. destruct (path =? "")%string; [apply IH|].
    unfold bind, try_except, load_scaled, ret.
    destruct (readable w path); cbn [fst snd]; apply IH.
Qed.

Lemma load_variants_pure (talk_frames_data : list config.talk_frame) (width : Z) :
  forall (variants : list (float * QPixmap)) (variant_errors : list string) (w : World),
  exists variant_errors',
    AvatarWindow.load_variants talk_frames_data width variants variant_errors w =
    (Ok (variants ++ loaded_variants (readable w) talk_frames_data width, variant_errors'), w).
Proof.
  induction talk_frames_data as [|frame rest IH]; intros variants variant_errors w.
  - exists variant_errors. cbn. now rewrite app_nil_r.
  - cbn [AvatarWindow.load_variants]. unfold loaded_variants. cbn [filter].
    destruct (config.image frame =? "")%string; [apply IH|].
    unfold bind, try_except, load_scaled, ret. cbn [negb andb].
    destruct (readable w (config.image frame)); cbn [fst snd map].
    + destruct (IH (variants ++ [(config.threshold frame,
                                  {| source_path := config.image frame;
                                     scaled_width := width |})]) variant_errors w)
        as (errs & ->).
      exists errs. unfold loaded_variants. now rewrite <- app_assoc.
    + apply IH.
Qed.

(** [load_images] replaces the images, sorts the variants it loaded, shows
    the first image and updates the idle timer. *)
Lemma load_images_frame (w : World) (idle_paths : list string) (talk_default_path : string)
    (talk_frames_data : list config.talk_frame) (width : Z) :
  exists (r : result unit) (t : option Z) (g : random.state) (c : label_content)
         (pix_list : list QPixmap) (default : option QPixmap)
         (raw : list (float * QPixmap)) (calls : list gui_call),
    let a :=
      set_label c
        (set_talk_variants (list_sort fst raw)
           (set_talk_pix default
              (set_idle_index 0 (set_idle_pix_list pix_list (avatar w))))) in
    AvatarWindow.load_images idle_paths talk_default_path talk_frames_data width w =
    (r, avatar_moved w (set_idle_timer t a) g calls)
    /\ filter is_mic_notice calls = []
    /\ (idle_paused a = true -> t = None /\ r = Ok tt)
    /\ raw = loaded_variants (readable w) talk_frames_data width.
Proof.
  destruct (load_idle_pure idle_paths width [] [] w) as (pix_list & idle_errors & E1).
  set (w1 := with_avatar
               (set_talk_pix None (set_idle_index 0 (set_idle_pix_list pix_list (avatar w)))) w).
  assert (Hdef : exists default errs,
    (if (talk_default_path =? "")%string then ret idle_errors
     else try_except
            (p <- load_scaled talk_default_path width ;;
             update_avatar (set_talk_pix (Some p)) ;;; ret idle_errors)
            (fun _ => ret (idle_errors ++ [talk_default_path]))) w1
    = (Ok errs, with_avatar (set_talk_pix default (avatar w1)) w1)).
  { destruct (talk_default_path =? "")%string.
    - exists None, idle_errors. reflexivity.
    - unfold try_except, bind, load_scaled, update_avatar, ret.
      change (readable w1 talk_default_path) with (readable w talk_default_path).
      destruct (readable w talk_default_path).
      + eexists (Some _), idle_errors. reflexivity.
      + exists None, (idle_errors ++ [talk_default_path]). reflexivity. }
  destruct Hdef as (default & errs & E2).
  set (w2 := with_avatar (set_talk_pix default (avatar w1)) w1) in E2.
  destruct (load_variants_pure talk_frames_data width [] [] w2)
    as (variant_errors & E3).
  cbn [app] in E3.
  change (readable w2) with (readable w) in E3.
  set (raw := loaded_variants (readable w) talk_frames_data width) in E3.
  assert (Hwarn : forall (b : bool) (title : string) (w0 : World),
            exists calls,
              (if b then ret tt else qt (QMessageBox_warning title)) w0
              = (Ok tt, with_gui (calls ++ gui w0) w0)
              /\ filter is_mic_notice calls = []).
  { intros [|] title w0.
    - exists []. split; [|reflexivity]. destruct w0; reflexivity.
    - exists [QMessageBox_warning title]. split; reflexivity. }
  set (w3 := with_avatar (set_talk_variants (list_sort fst raw) (avatar w2)) w2).
  destruct (Hwarn (AvatarWindow.is_nil errs) "avatar.error.images_title"%string w3)
    as (calls1 & E4 & Hc1).
  set (w4 := with_gui (calls1 ++ gui w3) w3) in E4.
  destruct (Hwarn (AvatarWindow.is_nil variant_errors)
              "avatar.error.talk_frames_title"%string w4)
    as (calls2 & E5 & Hc2).
  set (w5 := with_gui (calls2 ++ gui w4) w4) in E5.
  destruct (refresh_spec w5) as (c & calls3 & E6 & Hc3).
  match type of E6 with
  | _ = (_, ?w6) =>
      destruct (_update_idle_timer_frame w6) as (r & t & g & calls4 & E7 & Hc4 & Hstop & _)
  end.
  exists r, t, g, c, pix_list, default, raw, (calls4 ++ calls3 ++ calls2 ++ calls1).
  cbv zeta. split; [|split; [|split; [|reflexivity]]].
  - unfold AvatarWindow.load_images.
    erewrite bind_Ok.
    2:{ eapply try_except_Ok.
        erewrite (bind_Ok _ _ _ _ _ E1). cbv beta. cbn [fst snd].
        rewrite !bind_update_avatar. fold w1.
        erewrite (bind_Ok _ _ _ _ _ E2). cbv beta.
        erewrite (bind_Ok _ _ _ _ _ E3). cbv beta. cbn [fst snd].
        rewrite bind_update_avatar. fold w3.
        erewrite (bind_Ok _ _ _ _ _ E4). cbv beta.
        erewrite (bind_Ok _ _ _ _ _ E5). cbv beta.
        reflexivity. }
    cbv beta iota.
    erewrite (bind_Ok _ _ _ _ _ E6). cbv beta.
    rewrite E7. unfold avatar_moved. subst w5 w4 w3 w2 w1. simpl.
    now rewrite <- !app_assoc.
  - now rewrite !filter_app, Hc1, Hc2, Hc3, Hc4.
  - intros Hp. apply Hstop. exact Hp.
Qed.




(** ** The poll tick *)

(** The [try] suite: the level is smoothed and published, then the talk
    state is flipped or left; [last_switch] is written after a flip that did
    not raise. *)
Lemma _poll_mic_try_spec (w : World) (now : float) :
  exists (c : label_content) (calls : list gui_call),
    filter is_mic_notice calls = []
    /\ PanelWindow._poll_mic_try now w =
       let wA := level_published w c calls in
       if flips now w then
         match AvatarWindow.set_talking (negb (is_talking (avatar w))) wA with
         | (Ok _, wB) => (Ok tt, with_panel (set_last_switch now (panel wB)) wB)
         | (Raise e, wB) => (Raise e, wB)
         end
       else (Ok tt, wA).
Proof.
  unfold PanelWindow._poll_mic_try.
  pose proof (Mic_read_spec w) as Eread.
  erewrite (bind_Ok _ _ _ _ _ Eread). cbv beta.
  rewrite bind_update_panel, bind_get.
  unfold LevelMeter.set_level at 1.
  erewrite bind_Ok by reflexivity. cbv beta.
  match goal with
  | |- context [bind (AvatarWindow.set_talk_level ?l) _ ?w1] =>
      destruct (set_talk_level_spec w1 l) as (c & calls & E & Hc)
  end.
  exists c, calls. split; [assumption|].
  assert (E' : AvatarWindow.set_talk_level
                 (level (panel (with_panel
                    (set_level
                       (level (panel (with_mic {| _rms_queue := [] |} w)) * 0.7 +
                        List.last (_rms_queue (mic w)) 0.0 * 0.3)%float
                       (panel (with_mic {| _rms_queue := [] |} w)))
                    (with_mic {| _rms_queue := [] |} w))))
                 (with_gui
                    (level_meter_update
                       :: gui (with_panel
                            (set_level
                               (level (panel (with_mic {| _rms_queue := [] |} w)) * 0.7 +
                                List.last (_rms_queue (mic w)) 0.0 * 0.3)%float
                               (panel (with_mic {| _rms_queue := [] |} w)))
                            (with_mic {| _rms_queue := [] |} w)))
                    (with_level_meter
                       (Py.max 0.0%float
                          (level (panel (with_panel
                             (set_level
                                (level (panel (with_mic {| _rms_queue := [] |} w)) * 0.7 +
                                 List.last (_rms_queue (mic w)) 0.0 * 0.3)%float
                                (panel (with_mic {| _rms_queue := [] |} w)))
                             (with_mic {| _rms_queue := [] |} w)))))
                       (with_panel
                          (set_level
                             (level (panel (with_mic {| _rms_queue := [] |} w)) * 0.7 +
                              List.last (_rms_queue (mic w)) 0.0 * 0.3)%float
                             (panel (with_mic {| _rms_queue := [] |} w)))
                          (with_mic {| _rms_queue := [] |} w))))
               = (Ok tt, level_published w c calls)).
  { rewrite E. reflexivity. }
  erewrite (bind_Ok _ _ _ _ _ E'). cbv beta.
  rewrite bind_get. cbv zeta.
  change (is_talking (avatar (level_published w c calls))) with (is_talking (avatar w)).
  change (level (panel (level_published w c calls))) with (smoothed_next w).
  change (values (panel (level_published w c calls))) with (values (panel w)).
  change (last_switch (panel (level_published w c calls))) with (last_switch (panel w)).
  unfold flips, Py.gt.
  destruct (is_talking (avatar w)); cbn [negb];
    match goal with
    | |- context [(?a && ?b)%bool] => destruct (a && b)%bool
    end; try reflexivity;
    unfold bind;
    match goal with
    | |- context [AvatarWindow.set_talking ?b ?wA] =>
        destruct (AvatarWindow.set_talking b wA) as [[[]|e] wB]
    end; reflexivity.
Qed.

(** The [except] suite: the polling timer is off afterwards, the flag is
    set, and the notice is shown only when the flag was not set. *)
Lemma _poll_mic_except_spec (w : World) (e : exn) :
  exists calls : list gui_call,
    PanelWindow._poll_mic_except e w =
    (Ok tt,
     with_gui (calls ++ gui w)
       (with_panel (set_mic_error_notified true (set_timer false (panel w))) w))
    /\ List.length (filter is_mic_notice calls)
       = (if _mic_error_notified (panel w) then 0 else 1)%nat.
Proof.
  unfold PanelWindow._poll_mic_except.
  rewrite bind_get.
  destruct w as [pn a m lm g rd gu]. destruct pn as [v l ls notified tm].
  destruct tm, notified; cbn;
    [ exists [timer_stop]
    | exists [QMessageBox_critical "panel.error.mic_title"; traceback_print_exc; timer_stop]
    | exists []
    | exists [QMessageBox_critical "panel.error.mic_title"; traceback_print_exc] ];
    split; reflexivity.
Qed.

(** The three ways a poll tick ends: no flip; a flip that went through, with
    [last_switch] written; a flip that raised while the avatar fell idle,
    with the handler run on the state the flip left. *)
Lemma _poll_mic_cases (w : World) (now : float) :
  exists (c : label_content) (calls : list gui_call),
    filter is_mic_notice calls = []
    /\ let wA := level_published w c calls in
       (flips now w = false
        /\ PanelWindow._poll_mic_try now w = (Ok tt, wA)
        /\ PanelWindow._poll_mic now w = (Ok tt, wA))
       \/ (flips now w = true
           /\ exists (t : option Z) (g : random.state) (c' : label_content)
                     (calls' : list gui_call),
               filter is_mic_notice calls' = []
               /\ let wB :=
                    avatar_moved wA
                      (set_idle_timer t
                         (set_label c'
                            (set_is_talking (negb (is_talking (avatar w))) (avatar wA))))
                      g calls' in
                  (idle_paused (avatar wB) = true -> t = None)
                  /\ ((PanelWindow._poll_mic_try now w
                       = (Ok tt, with_panel (set_last_switch now (panel wB)) wB)
                       /\ PanelWindow._poll_mic now w
                          = (Ok tt, with_panel (set_last_switch now (panel wB)) wB))
                      \/ (exists (e : exn) (calls'' : list gui_call),
                            is_talking (avatar w) = true
                            /\ PanelWindow._poll_mic_try now w = (Raise e, wB)
                            /\ PanelWindow._poll_mic now w
                               = (Ok tt,
                                  with_gui (calls'' ++ gui wB)
                                    (with_panel
                                       (set_mic_error_notified true
                                          (set_timer false (panel wB))) wB))
                            /\ List.length (filter is_mic_notice calls'')
                               = (if _mic_error_notified (panel w) then 0 else 1)%nat))).
Proof.
  destruct (_poll_mic_try_spec w now) as (c & calls & Hc & Etry).
  exists c, calls. split; [assumption|]. cbv zeta in *.
  unfold PanelWindow._poll_mic.
  destruct (flips now w) eqn:Hf.
  - right. split; [reflexivity|].
    set (wA := level_published w c calls) in *.
    assert (Hne : is_talking (avatar wA) <> negb (is_talking (avatar w))).
    { subst wA. simpl. now destruct (is_talking (avatar w)). }
    destruct (set_talking_other wA _ Hne) as (r & t & g & c' & calls' & Eset & Hc' & Hstop).
    exists t, g, c', calls'. split; [assumption|].
    rewrite Eset in Etry. fold (avatar_moved wA
      (set_idle_timer t (set_label c'
         (set_is_talking (negb (is_talking (avatar w))) (avatar wA)))) g calls') in Etry.
    split.
    + intros Hp. apply Hstop. exact Hp.
    + destruct r as [[]|e].
      * left. split; [exact Etry|]. now rewrite (try_except_Ok _ _ _ _ _ Etry).
      * right.
        match type of Etry with
        | _ = (_, ?wB) => destruct (_poll_mic_except_spec wB e) as (calls'' & Eh & Hn)
        end.
        exists e, calls''. repeat split.
        -- destruct (is_talking (avatar w)) eqn:Ht; [reflexivity|].
           exfalso. cbn [negb] in Hstop.
           destruct Hstop as [_ Hr]; [|discriminate].
           unfold idle_paused. simpl. apply Bool.orb_true_r.
        -- exact Etry.
        -- rewrite (try_except_Raise _ _ _ _ _ Etry). exact Eh.
        -- exact Hn.
  - left. split; [reflexivity|]. split; [exact Etry|].
    now rewrite (try_except_Ok _ _ _ _ _ Etry).
Qed.

(** ** Clamping the idle timing *)

Lemma max_floor (x : float) : (0.05 <=? Py.max 0.05 x)%float = true.
Proof.
  unfold Py.max, Py.gt. destruct (0.05 <? x)%float eqn:H.
  - now apply ltb_leb.
  - reflexivity.
Qed.

Lemma max_ge_left (a b : float) :
  (a <=? a)%float = true -> (a <=? Py.max a b)%float = true.
Proof.
  intros Ha. unfold Py.max, Py.gt. destruct (a <? b)%float eqn:H.
  - now apply ltb_leb.
  - exact Ha.
Qed.

Lemma set_idle_options_timing (r : bool) (lo hi : float) (a : AvatarWindow) (t : option Z) :
  timing_rule
    (set_idle_timer t
       (set_idle_options r (Py.max 0.05%float lo) (Py.max (Py.max 0.05%float lo) hi) a)).
Proof.
  unfold timing_rule. simpl. split.
  - apply max_floor.
  - apply max_ge_left. apply (leb_self_r _ _ (max_floor lo)).
Qed.

(** ** The slots of the configuration events *)

Lemma _sync_idle_anim_options_frame (w : World) :
  exists (r : result unit) (t : option Z) (g : random.state) (calls : list gui_call),
    PanelWindow._sync_idle_anim_options w =
    (r, avatar_moved w
          (set_idle_timer t
             (set_idle_options (config.idle_anim_random (values (panel w)))
                (Py.max 0.05%float (config.idle_interval_min (values (panel w))))
                (Py.max (Py.max 0.05%float (config.idle_interval_min (values (panel w))))
                   (config.idle_interval_max (values (panel w))))
                (avatar w)))
          g calls)
    /\ filter is_mic_notice calls = []
    /\ (idle_paused (avatar w) = true -> t = None /\ r = Ok tt).
Proof.
  unfold PanelWindow._sync_idle_anim_options. rewrite bind_get.
  apply update_idle_anim_options_frame.
Qed.

(** Every slot but the poll tick and the audio callback changes the settings
    and the avatar only; it keeps the talk state, keeps the idle timer
    stopped when the scheduler is paused, and keeps or restores the timing
    bounds. *)
Lemma config_slot_frame (round : float -> Z -> float) (e : event) (w : World) :
  is_poll e = false -> is_audio e = false ->
  exists (r : result unit) (v : config.Values) (a : AvatarWindow)
         (g : random.state) (calls : list gui_call),
    slot round e w = (r, avatar_moved (with_panel (set_values v (panel w)) w) a g calls)
    /\ filter is_mic_notice calls = []
    /\ is_talking a = is_talking (avatar w)
    /\ (timer_rule (avatar w) -> timer_rule a)
    /\ (timing_rule (avatar w) -> timing_rule a).
Proof.
  intros Hpoll Haudio.
  assert (Hsame : forall w0 : World,
            w0 = avatar_moved (with_panel (set_values (values (panel w0)) (panel w0)) w0)
                   (avatar w0) (rng w0) []).
  { intros [[v l ls n tm] a m lm g rd gu]. reflexivity. }
  destruct e as [rms|now| |state|kind value|value|frames|value]; try discriminate;
    cbn [slot].
  - (* idle_timer_timeout *)
    destruct (idle_timer (avatar w)) eqn:Ht.
    + destruct (_advance_idle_frame_frame w) as (r & t & g & c & i & calls & E & Hc & Hstop).
      exists r, (values (panel w)), (set_idle_timer t (set_label c (set_idle_index i (avatar w)))),
        g, calls.
      split; [|split; [assumption|split; [reflexivity|split]]].
      * rewrite E. destruct w as [[v l ls n tm] a m lm g0 rd gu]. reflexivity.
      * intros _ Hp. apply Hstop. exact Hp.
      * intros H. exact H.
    + exists (Ok tt), (values (panel w)), (avatar w), (rng w), [].
      split; [f_equal; apply Hsame|].
      split; [reflexivity|]. split; [reflexivity|]. split; intros H; exact H.
  - (* idle_random_stateChanged *)
    unfold PanelWindow._toggle_idle_random. rewrite bind_update_panel.
    match goal with
    | |- context [PanelWindow._sync_idle_anim_options ?w1] =>
        destruct (_sync_idle_anim_options_frame w1) as (r & t & g & calls & E & Hc & Hstop)
    end.
    eexists r, _, _, g, calls.
    split; [rewrite E; reflexivity|].
    split; [assumption|]. split; [reflexivity|]. split.
    + intros _ Hp. apply Hstop. exact Hp.
    + intros _. apply set_idle_options_timing.
  - (* idle_interval_valueChanged *)
    unfold PanelWindow._on_idle_interval_changed. rewrite bind_update_panel.
    match goal with
    | |- context [PanelWindow._sync_idle_anim_options ?w1] =>
        destruct (_sync_idle_anim_options_frame w1) as (r & t & g & calls & E & Hc & Hstop)
    end.
    destruct (kind =? "min")%string eqn:Hk;
      (eexists r, _, _, g, calls;
       split; [rewrite E; reflexivity|];
       split; [assumption|]; split; [reflexivity|]; split;
       [ intros _ Hp; apply Hstop; exact Hp
       | intros _; apply set_idle_options_timing ]).
  - (* talk_spin_valueChanged *)
    unfold PanelWindow._apply_talk_threshold, update_panel.
    exists (Ok tt),
      (PanelWindow.with_talk_th
         (Py.max 0.001%float (Py.min 0.5%float (round value 3%Z))) (values (panel w))),
      (avatar w), (rng w), [].
    split; [f_equal; destruct w as [[v l ls n tm] a m lm g rd gu]; reflexivity|].
    split; [reflexivity|]. split; [reflexivity|]. split; intros H; exact H.
  - (* idle_frames_chosen *)
    unfold PanelWindow._set_idle_frames. rewrite bind_update_panel.
    unfold PanelWindow._reload_avatar_images. rewrite bind_get.
    match goal with
    | |- context [AvatarWindow.load_images ?a1 ?a2 ?a3 ?a4 ?w1] =>
        destruct (load_images_frame w1 a1 a2 a3 a4)
          as (r & t & g & c & pl & d & raw & calls & E & Hc & Hstop & _)
    end.
    cbv zeta in E, Hstop.
    eexists r, _, _, g, calls.
    split; [rewrite E; reflexivity|].
    split; [assumption|]. split; [reflexivity|]. split.
    + intros _ Hp. apply Hstop. exact Hp.
    + intros H. exact H.
  - (* width_valueChanged *)
    unfold PanelWindow._on_width_changed. rewrite bind_update_panel.
    unfold PanelWindow._reload_avatar_images. rewrite bind_get.
    match goal with
    | |- context [AvatarWindow.load_images ?a1 ?a2 ?a3 ?a4 ?w1] =>
        destruct (load_images_frame w1 a1 a2 a3 a4)
          as (r & t & g & c & pl & d & raw & calls & E & Hc & Hstop & _)
    end.
    cbv zeta in E, Hstop.
    eexists r, _, _, g, calls.
    split; [rewrite E; reflexivity|].
    split; [assumption|]. split; [reflexivity|]. split.
    + intros _ Hp. apply Hstop. exact Hp.
    + intros H. exact H.
Qed.

(** ** What a poll tick leaves behind *)

Lemma notices_app (calls l : list gui_call) :
  List.length (filter is_mic_notice (calls ++ l))
  = (List.length (filter is_mic_notice calls) + List.length (filter is_mic_notice l))%nat.
Proof. now rewrite filter_app, length_app. Qed.

Lemma notices_silent (calls l : list gui_call) :
  filter is_mic_notice calls = [] ->
  List.length (filter is_mic_notice (calls ++ l)) = List.length (filter is_mic_notice l).
Proof. intros H. now rewrite notices_app, H. Qed.

Lemma _poll_mic_props (w : World) (now : float) :
  let w' := snd (PanelWindow._poll_mic now w) in
  fst (PanelWindow._poll_mic now w) = Ok tt
  /\ level (panel w') = smoothed_next w
  /\ is_talking (avatar w') = xorb (is_talking (avatar w)) (flips now w)
  /\ values (panel w') = values (panel w)
  /\ _rms_queue (mic w') = []
  /\ (timer_rule (avatar w) -> timer_rule (avatar w'))
  /\ (timing_rule (avatar w) -> timing_rule (avatar w'))
  /\ (notice_rule w -> notice_rule w')
  /\ (timer (panel w) = false -> timer (panel w') = false)
  /\ (last_switch (panel w') = last_switch (panel w)
      \/ (flips now w = true /\ last_switch (panel w') = now))
  /\ (timer (panel w') = true ->
      last_switch (panel w') = if flips now w then now else last_switch (panel w)).
Proof.
  cbv zeta.
  destruct (_poll_mic_cases w now) as (c & calls & Hc & Hcases). cbv zeta in Hcases.
  destruct Hcases as [(Hf & _ & E)|(Hf & t & g & c' & calls' & Hc' & Hstop & Hend)].
  - rewrite E, Hf. cbn [fst snd].
    split; [reflexivity|]. split; [reflexivity|].
    split; [now rewrite Bool.xorb_false_r|].
    split; [reflexivity|]. split; [reflexivity|].
    split; [intros H; exact H|]. split; [intros H; exact H|].
    split.
    { unfold notice_rule, notices. cbn [level_published gui with_gui panel with_avatar
        with_level_meter with_panel with_mic set_level _mic_error_notified].
      rewrite (notices_silent calls _ Hc). cbn [filter is_mic_notice]. intros H; exact H. }
    split; [intros H; exact H|]. split; [left; reflexivity|]. intros _. reflexivity.
  - destruct Hend as [(_ & E)|(e & calls'' & Ht & _ & E & Hn)]; rewrite E, Hf; cbn [fst snd].
    + split; [reflexivity|]. split; [reflexivity|].
      split; [now rewrite Bool.xorb_true_r|].
      split; [reflexivity|]. split; [reflexivity|].
      split; [intros _; exact Hstop|]. split; [intros H; exact H|].
      split.
      { unfold notice_rule, notices. simpl.
        rewrite (notices_silent calls' _ Hc'), (notices_silent calls _ Hc).
        cbn [filter is_mic_notice]. intros H; exact H. }
      split; [intros H; exact H|]. split; [right; split; reflexivity|].
      intros _. reflexivity.
    + split; [reflexivity|]. split; [reflexivity|].
      split; [now rewrite Bool.xorb_true_r|].
      split; [reflexivity|]. split; [reflexivity|].
      split; [intros _; exact Hstop|]. split; [intros H; exact H|].
      split.
      { unfold notice_rule, notices. simpl.
        rewrite notices_app, Hn, (notices_silent calls' _ Hc'), (notices_silent calls _ Hc).
        cbn [filter is_mic_notice].
        intros [H1 H2]. split; [|discriminate].
        destruct (_mic_error_notified (panel w)); [exact H1|].
        rewrite H2 by reflexivity. simpl. lia. }
      split; [reflexivity|]. split; [left; reflexivity|].
      simpl. discriminate.
Qed.

(** ** The event loop *)

Lemma step_poll (round : float -> Z -> float) (now : float) (w : World) :
  step round (timer_timeout now) w =
  if timer (panel w) then snd (PanelWindow._poll_mic now w) else w.
Proof.
  unfold step. cbn [slot]. destruct (timer (panel w)); [|reflexivity].
  pose proof (_poll_mic_props w now) as (Hok & _). cbv zeta in Hok.
  destruct (PanelWindow._poll_mic now w) as [[[]|e] w']; [reflexivity|discriminate].
Qed.

Lemma step_rules (round : float -> Z -> float) (e : event) (w : World) :
  let w' := step round e w in
  (timer_rule (avatar w) -> timer_rule (avatar w'))
  /\ (timing_rule (avatar w) -> timing_rule (avatar w'))
  /\ (notice_rule w -> notice_rule w')
  /\ (timer (panel w) = false -> timer (panel w') = false)
  /\ (is_poll e = false ->
      level (panel w') = level (panel w)
      /\ last_switch (panel w') = last_switch (panel w)
      /\ is_talking (avatar w') = is_talking (avatar w)
      /\ timer (panel w') = timer (panel w)).
Proof.
  cbv zeta.
  destruct (is_poll e) eqn:Hpoll; [|destruct (is_audio e) eqn:Haudio].
  - destruct e; try discriminate. rewrite step_poll.
    destruct (timer (panel w)) eqn:Ht.
    + pose proof (_poll_mic_props w now) as (_ & _ & _ & _ & _ & H1 & H2 & H3 & H4 & _).
      cbv zeta in *.
      split; [exact H1|]. split; [exact H2|]. split; [exact H3|].
      split; [intros Hx; discriminate Hx|].
      intros Hx; discriminate Hx.
    + split; [intros H; exact H|]. split; [intros H; exact H|].
      split; [intros H; exact H|]. split; [intros _; exact Ht|].
      intros Hx; discriminate Hx.
  - destruct e as [[r|]| | | | | | |]; try discriminate; unfold step; cbn;
      (split; [intros H; exact H|]); (split; [intros H; exact H|]);
      (split; [intros H; exact H|]); (split; [intros H; exact H|]);
      intros _; repeat split.
  - destruct (config_slot_frame round e w Hpoll Haudio)
      as (r & v & a & g & calls & E & Hc & Htalk & Htimer & Htiming).
    unfold step. rewrite E.
    assert (Hn : forall extra,
              filter is_mic_notice extra = [] ->
              notice_rule w ->
              notice_rule
                (with_gui (extra ++ gui (avatar_moved (with_panel (set_values v (panel w)) w)
                                           a g calls))
                   (avatar_moved (with_panel (set_values v (panel w)) w) a g calls))).
    { intros extra He. unfold notice_rule, notices. simpl.
      rewrite (notices_silent extra _ He), (notices_silent calls _ Hc).
      intros H; exact H. }
    destruct r as [[]|ex].
    + split; [exact Htimer|]. split; [exact Htiming|].
      split; [exact (Hn [] eq_refl)|].
      split; [intros H; exact H|]. intros _. repeat split. exact Htalk.
    + split; [exact Htimer|]. split; [exact Htiming|].
      split; [exact (Hn [QMessageBox_critical "error.unexpected.title"] eq_refl)|].
      split; [intros H; exact H|]. intros _. repeat split. exact Htalk.
Qed.

Lemma run_cons (round : float -> Z -> float) (e : event) (events : list event) (w : World) :
  run round (e :: events) w = run round events (step round e w).
Proof. reflexivity. Qed.

Lemma run_rules (round : float -> Z -> float) (events : list event) :
  forall w : World,
    let w' := run round events w in
    (timer_rule (avatar w) -> timer_rule (avatar w'))
    /\ (timing_rule (avatar w) -> timing_rule (avatar w'))
    /\ (notice_rule w -> notice_rule w')
    /\ (timer (panel w) = false -> timer (panel w') = false).
Proof.
  induction events as [|e events IH]; intros w; cbv zeta.
  - split; [intros H; exact H|]. split; [intros H; exact H|].
    split; intros H; exact H.
  - rewrite run_cons.
    destruct (step_rules round e w) as (H1 & H2 & H3 & H4 & _).
    destruct (IH (step round e w)) as (K1 & K2 & K3 & K4).
    cbv zeta in *.
    split; [intros H; apply K1, H1, H|]. split; [intros H; apply K2, H2, H|].
    split; [intros H; apply K3, H3, H|]. intros H; apply K4, H4, H.
Qed.

(** ** Start-up *)

Lemma AvatarWindow_init_frame (config_values : config.Values) (w : World) :
  exists (r : result unit) (a : AvatarWindow) (g : random.state) (calls : list gui_call),
    AvatarWindow.__init__ config_values w = (r, avatar_moved w a g calls)
    /\ filter is_mic_notice calls = []
    /\ is_talking a = false
    /\ timer_rule a.
Proof.
  unfold AvatarWindow.__init__.
  match goal with
  | |- context [AvatarWindow.load_images ?a1 ?a2 ?a3 ?a4 ?w1] =>
      destruct (load_images_frame w1 a1 a2 a3 a4)
        as (r1 & t1 & g1 & c1 & pl & d & raw & calls1 & E1 & Hc1 & Hstop1 & _)
  end.
  cbv zeta in E1, Hstop1.
  eexists r1, _, g1, calls1. split; [rewrite E1; reflexivity|].
  split; [assumption|]. split; [reflexivity|].
  intros Hp. apply Hstop1. exact Hp.
Qed.

Lemma main_outcome (round : float -> Z -> float) (persisted : config.Values)
    (now : float) (g : random.state) (files : string -> bool) :
  let r := fst (main round persisted now g files) in
  let w := snd (main round persisted now g files) in
  let v := PanelWindow._normalize_values persisted in
  is_talking (avatar w) = false
  /\ level (panel w) = 0.0%float
  /\ last_switch (panel w) = now
  /\ _mic_error_notified (panel w) = false
  /\ notices w = 0%nat
  /\ _rms_queue (mic w) = []
  /\ timer_rule (avatar w)
  /\ (r = Ok tt ->
      timer (panel w) = true
      /\ idle_interval_min (avatar w) = Py.max 0.05%float (config.idle_interval_min v)
      /\ idle_interval_max (avatar w)
         = Py.max (Py.max 0.05%float (config.idle_interval_min v))
             (config.idle_interval_max v)).
Proof.
  cbv zeta. unfold main, PanelWindow.__init__.
  erewrite bind_Ok by reflexivity. cbv beta.
  rewrite bind_get.
  match goal with
  | |- context [bind (AvatarWindow.__init__ ?cv) _ ?w1] =>
      destruct (AvatarWindow_init_frame cv w1) as (r1 & a1 & g1 & calls1 & E1 & Hc1 & Ht1 & Hr1)
  end.
  destruct r1 as [[]|e1].
  - erewrite (bind_Ok _ _ _ _ _ E1). cbv beta.
    rewrite bind_get. unfold PanelWindow._apply_talk_threshold.
    rewrite !bind_update_panel.
    match goal with
    | |- context [PanelWindow._sync_idle_anim_options ?w5] =>
        destruct (_sync_idle_anim_options_frame w5) as (r2 & t2 & g2 & calls2 & E2 & Hc2 & Hstop2)
    end.
    rewrite E2. cbn [fst snd].
    split; [exact Ht1|]. split; [reflexivity|]. split; [reflexivity|].
    split; [reflexivity|].
    split.
    { unfold notices. simpl.
      now rewrite (notices_silent calls2 _ Hc2), (notices_silent calls1 _ Hc1). }
    split; [reflexivity|].
    split; [intros Hp; apply Hstop2; exact Hp|].
    intros _. repeat split.
  - erewrite (bind_Raise _ _ _ _ _ E1). cbn [fst snd].
    split; [exact Ht1|]. split; [reflexivity|]. split; [reflexivity|].
    split; [reflexivity|].
    split.
    { unfold notices. simpl. now rewrite (notices_silent calls1 _ Hc1). }
    split; [reflexivity|].
    split; [exact Hr1|].
    discriminate.
Qed.

(** ** The talk-state machine *)

(** C1.  The avatar starts idle.  On a poll tick, with [smoothed] the level
    the tick has just computed, [release_th = talk_th * 0.7] and [elapsed]
    the clock reading minus [last_switch]: an idle avatar starts talking
    exactly when [smoothed > talk_th] and [elapsed > 0.05]; a talking avatar
    falls idle exactly when [smoothed < release_th] and [elapsed > 0.05]; and
    for [release_th <= smoothed <= talk_th] the talk state does not change,
    whichever it is. *)
Theorem talk_state_hysteresis :
  (forall (round : float -> Z -> float) (persisted : config.Values) (now : float)
          (g : random.state) (files : string -> bool),
     is_talking (avatar (snd (main round persisted now g files))) = false)
  /\ (forall (w : World) (now : float),
        let w' := snd (PanelWindow._poll_mic now w) in
        let smoothed := level (panel w') in
        let talk_th := config.talk_th (values (panel w)) in
        let release_th := (talk_th * 0.7)%float in
        let elapsed := (now - last_switch (panel w))%float in
        (is_talking (avatar w) = false ->
         (is_talking (avatar w') = true
          <-> (talk_th <? smoothed)%float = true /\ (0.05 <? elapsed)%float = true))
        /\ (is_talking (avatar w) = true ->
            (is_talking (avatar w') = false
             <-> (smoothed <? release_th)%float = true /\ (0.05 <? elapsed)%float = true))
        /\ ((release_th <=? smoothed)%float = true ->
            (smoothed <=? talk_th)%float = true ->
            is_talking (avatar w') = is_talking (avatar w))).
Proof.
  split.
  - intros round persisted now g files.
    exact (proj1 (main_outcome round persisted now g files)).
  - intros w now. cbv zeta.
    destruct (_poll_mic_props w now) as (_ & Hl & Ht & _). cbv zeta in Hl, Ht.
    rewrite Ht, Hl. unfold flips.
    split; [|split].
    + intros Hidle. rewrite Hidle.
      rewrite Bool.xorb_false_l, Bool.andb_true_iff. tauto.
    + intros Htalk. rewrite Htalk.
      rewrite Bool.xorb_true_l, Bool.negb_false_iff, Bool.andb_true_iff. tauto.
    + intros Hlo Hhi.
      destruct (is_talking (avatar w)).
      * rewrite (leb_not_ltb _ _ Hlo). reflexivity.
      * rewrite (leb_not_ltb _ _ Hhi). reflexivity.
Qed.

(** A loud reading long after the last switch: the idle avatar starts
    talking. *)
Lemma talk_state_hysteresis_witness :
  is_talking (avatar started) = false
  /\ is_talking
       (avatar (snd (PanelWindow._poll_mic 100.1%float
                       (step sample_round (audio_callback (Some 0.5%float)) started))))
     = true.
Proof.
  split; [reflexivity|].
  apply (proj1 (proj2 talk_state_hysteresis
                  (step sample_round (audio_callback (Some 0.5%float)) started)
                  100.1%float)).
  - reflexivity.
  - split; reflexivity.
Defined.

(** ** The dwell-time guard *)

Lemma transitions_timer_off (round : float -> Z -> float) (events : list event) :
  forall w : World, timer (panel w) = false -> transitions round events w = [].
Proof.
  induction events as [|e events IH]; intros w Hoff; [reflexivity|].
  cbn [transitions].
  pose proof (step_rules round e w) as (_ & _ & _ & Hkeep & _). cbv zeta in Hkeep.
  specialize (IH _ (Hkeep Hoff)).
  destruct e; try exact IH.
  rewrite step_poll, Hoff in *. now rewrite Bool.eqb_reflx.
Qed.

(** The transitions of a run are pairwise more than the dwell time apart, and
    the first of them is so from [last_switch]. *)
Lemma transitions_dwell (round : float -> Z -> float) (events : list event) :
  forall w : World,
    Sorted dwell_apart (transitions round events w)
    /\ HdRel dwell_apart (last_switch (panel w)) (transitions round events w).
Proof.
  induction events as [|e events IH]; intros w; [split; constructor|].
  cbn [transitions].
  destruct (is_poll e) eqn:Hpoll.
  - destruct e as [|now| | | | | |]; try discriminate.
    rewrite step_poll.
    destruct (timer (panel w)) eqn:Hon.
    + destruct (_poll_mic_props w now)
        as (_ & _ & Ht & _ & _ & _ & _ & _ & _ & Hls & Hnow).
      cbv zeta in Ht, Hls, Hnow.
      set (w' := snd (PanelWindow._poll_mic now w)) in *.
      destruct (IH w') as [IHs IHh].
      rewrite Ht.
      destruct (flips now w) eqn:Hf.
      * assert (Hne : Bool.eqb (xorb (is_talking (avatar w)) true) (is_talking (avatar w))
                      = false) by (now destruct (is_talking (avatar w))).
        rewrite Hne.
        assert (Hd : dwell_apart (last_switch (panel w)) now).
        { unfold flips in Hf. apply Bool.andb_true_iff in Hf. exact (proj2 Hf). }
        split; [|constructor; exact Hd].
        constructor; [exact IHs|].
        destruct (timer (panel w')) eqn:Hon'.
        -- rewrite (Hnow eq_refl) in IHh. exact IHh.
        -- rewrite (transitions_timer_off round events w' Hon'). constructor.
      * rewrite Bool.xorb_false_r, Bool.eqb_reflx.
        destruct Hls as [Hls|[Hls _]]; [|discriminate].
        rewrite Hls in IHh. split; assumption.
    + rewrite Bool.eqb_reflx. apply IH.
  - destruct (step_rules round e w) as (_ & _ & _ & _ & Hkeep).
    cbv zeta in Hkeep. destruct (Hkeep Hpoll) as (_ & Hls & _ & _).
    destruct (IH (step round e w)) as [IHs IHh]. rewrite Hls in IHh.
    destruct e; try discriminate; split; assumption.
Qed.

(** C4.  Along every run of the event loop, two consecutive talk-state
    transitions are more than 0.05 s apart (by the subtraction the tick
    itself performs), and the first one is more than 0.05 s after the
    [last_switch] the run starts with.  Only poll ticks change the talk state
    and [last_switch].  On a poll tick, [last_switch] changes only when the
    talk state changes, and then it becomes the tick's clock reading; a tick
    whose clock reading is not more than 0.05 s after [last_switch] changes
    neither, whatever the level; and every tick that changes the talk state
    is more than 0.05 s after [last_switch]. *)
Theorem dwell_time_guard :
  (forall (round : float -> Z -> float) (events : list event) (w : World),
     Sorted dwell_apart (transitions round events w)
     /\ HdRel dwell_apart (last_switch (panel w)) (transitions round events w))
  /\ (forall (round : float -> Z -> float) (e : event) (w : World),
        is_poll e = false ->
        is_talking (avatar (step round e w)) = is_talking (avatar w)
        /\ last_switch (panel (step round e w)) = last_switch (panel w))
  /\ (forall (w : World) (now : float),
        let w' := snd (PanelWindow._poll_mic now w) in
        (last_switch (panel w') <> last_switch (panel w) ->
         is_talking (avatar w') <> is_talking (avatar w) /\ last_switch (panel w') = now)
        /\ ((0.05 <? now - last_switch (panel w))%float = false ->
            is_talking (avatar w') = is_talking (avatar w)
            /\ last_switch (panel w') = last_switch (panel w))
        /\ (is_talking (avatar w') <> is_talking (avatar w) ->
            dwell_apart (last_switch (panel w)) now)).
Proof.
  split; [|split].
  - intros round events w. apply transitions_dwell.
  - intros round e w Hpoll.
    destruct (step_rules round e w) as (_ & _ & _ & _ & Hkeep).
    cbv zeta in Hkeep. destruct (Hkeep Hpoll) as (_ & Hls & Ht & _). now split.
  - intros w now. cbv zeta.
    destruct (_poll_mic_props w now) as (_ & _ & Ht & _ & _ & _ & _ & _ & _ & Hls & _).
    cbv zeta in Ht, Hls. rewrite Ht.
    split; [|split].
    + intros Hchanged. destruct Hls as [Hls|[Hf Hls]]; [contradiction|].
      rewrite Hf. split; [now destruct (is_talking (avatar w))|exact Hls].
    + intros Hdwell.
      assert (Hf : flips now w = false).
      { unfold flips. rewrite Hdwell. apply Bool.andb_false_r. }
      rewrite Hf, Bool.xorb_false_r. split; [reflexivity|].
      destruct Hls as [Hls|[Hf' _]]; [exact Hls|congruence].
    + intros Hchanged. unfold dwell_apart.
      destruct (flips now w) eqn:Hf.
      * unfold flips in Hf. apply Bool.andb_true_iff in Hf. exact (proj2 Hf).
      * rewrite Bool.xorb_false_r in Hchanged. contradiction.
Qed.

(** A tick 0.02 s after a transition whose level is below the release
    threshold leaves the avatar talking. *)
Lemma dwell_time_guard_witness :
  let w := run sample_round
             [audio_callback (Some 0.5%float); timer_timeout 100.1%float;
              timer_timeout 100.11%float] started_dwell in
  is_talking (avatar w) = true
  /\ last_switch (panel w) = 100.1%float
  /\ (smoothed_next w <? config.talk_th (values (panel w)) * 0.7)%float = true
  /\ is_talking (avatar (snd (PanelWindow._poll_mic 100.12%float w))) = true.
Proof.
  cbv zeta. split; [reflexivity|]. split; [reflexivity|]. split; [reflexivity|].
  set (w := run sample_round _ started_dwell).
  transitivity (is_talking (avatar w)); [|reflexivity].
  apply (proj1 (proj2 (proj2 (proj2 dwell_time_guard) w 100.12%float))).
  reflexivity.
Defined.

(** The run of the example: the avatar starts talking at 100.1, the
    candidate at 100.12 is suppressed, and it falls idle at 100.2. *)
Example dwell_time_run :
  transitions sample_round
    [audio_callback (Some 0.5%float); timer_timeout 100.1%float;
     timer_timeout 100.11%float; timer_timeout 100.12%float;
     timer_timeout 100.2%float] started_dwell
  = [100.1%float; 100.2%float].
Proof. vm_compute. reflexivity. Qed.

(** ** The level smoother *)

Lemma last_nonneg (q : list float) :
  Forall (fun r => (0 <=? r)%float = true) q ->
  (0 <=? List.last q 0.0%float)%float = true.
Proof.
  intros Hq. destruct q as [|x q]; [reflexivity|].
  assert (Hin : In (List.last (x :: q) 0.0%float) (x :: q)).
  { destruct (exists_last (l := x :: q)) as (q' & y & E); [discriminate|].
    rewrite E, last_last. apply in_or_app. right. now left. }
  exact (proj1 (Forall_forall _ _) Hq _ Hin).
Qed.

Lemma step_config_mic (round : float -> Z -> float) (e : event) (w : World) :
  is_poll e = false -> is_audio e = false -> mic (step round e w) = mic w.
Proof.
  intros Hpoll Haudio.
  destruct (config_slot_frame round e w Hpoll Haudio)
    as (r & v & a & g & calls & E & _).
  unfold step. rewrite E. now destruct r.
Qed.

(** While the readings are at least zero, so are the queue's entries and the
    smoothed level. *)
Lemma step_level_nonneg (round : float -> Z -> float) (e : event) (w : World) :
  (forall r, e = audio_callback (Some r) -> (0 <=? r)%float = true) ->
  (0 <=? level (panel w))%float = true ->
  Forall (fun r => (0 <=? r)%float = true) (_rms_queue (mic w)) ->
  (0 <=? level (panel (step round e w)))%float = true
  /\ Forall (fun r => (0 <=? r)%float = true) (_rms_queue (mic (step round e w))).
Proof.
  intros Hr Hl Hq.
  destruct (is_poll e) eqn:Hpoll; [|destruct (is_audio e) eqn:Haudio].
  - destruct e; try discriminate. rewrite step_poll.
    destruct (timer (panel w)); [|now split].
    destruct (_poll_mic_props w now) as (_ & El & _ & _ & Eq & _).
    cbv zeta in El, Eq. rewrite El, Eq. split; [|constructor].
    unfold smoothed_next. apply ewma_nonneg; [exact Hl|now apply last_nonneg].
  - destruct e as [[r|]| | | | | | |]; try discriminate; unfold step; cbn.
    + split; [exact Hl|]. unfold Queue.put. apply Forall_app. split; [exact Hq|].
      constructor; [|constructor]. now apply Hr.
    + now split.
  - destruct (step_rules round e w) as (_ & _ & _ & _ & Hkeep).
    cbv zeta in Hkeep. destruct (Hkeep Hpoll) as (El & _).
    rewrite El, (step_config_mic round e w Hpoll Haudio). now split.
Qed.

Lemma run_level_nonneg (round : float -> Z -> float) (events : list event) :
  forall w : World,
    readings_nonneg events ->
    (0 <=? level (panel w))%float = true ->
    Forall (fun r => (0 <=? r)%float = true) (_rms_queue (mic w)) ->
    (0 <=? level (panel (run round events w)))%float = true.
Proof.
  induction events as [|e events IH]; intros w Hr Hl Hq; [exact Hl|].
  rewrite run_cons.
  destruct (step_level_nonneg round e w) as [Hl' Hq']; try assumption.
  { intros r ->. apply Hr. now left. }
  apply IH; try assumption.
  intros r Hin. apply Hr. now right.
Qed.

(** C3 (as the code has it).  Each poll tick replaces the smoothed level,
    once, by [level * 0.7 + raw * 0.3] in binary64 arithmetic, where [raw] is
    what the tick drained from the sampler (the newest reading, or 0.0); no
    other event changes it; it starts at 0.0; and along every run whose
    readings are at least zero the smoothed level is at least zero.  (The
    rounded result need not lie between the previous level and the reading,
    as the examples after the theorem show.) *)
Theorem smoothed_level_update :
  (forall (w : World) (now : float),
     level (panel (snd (PanelWindow._poll_mic now w)))
     = ((level (panel w) * 0.7) + (List.last (_rms_queue (mic w)) 0.0 * 0.3))%float
     /\ fst (Mic.read w) = Ok (List.last (_rms_queue (mic w)) 0.0%float))
  /\ (forall (round : float -> Z -> float) (e : event) (w : World),
        is_poll e = false -> level (panel (step round e w)) = level (panel w))
  /\ (forall (round : float -> Z -> float) (persisted : config.Values) (now : float)
             (g : random.state) (files : string -> bool),
        level (panel (snd (main round persisted now g files))) = 0.0%float)
  /\ (forall (round : float -> Z -> float) (persisted : config.Values) (now : float)
             (g : random.state) (files : string -> bool) (events : list event),
        readings_nonneg events ->
        (0 <=? level (panel (run round events (snd (main round persisted now g files)))))%float
        = true).
Proof.
  split; [|split; [|split]].
  - intros w now. split.
    + exact (proj1 (proj2 (_poll_mic_props w now))).
    + now rewrite Mic_read_spec.
  - intros round e w Hpoll.
    destruct (step_rules round e w) as (_ & _ & _ & _ & Hkeep).
    cbv zeta in Hkeep. exact (proj1 (Hkeep Hpoll)).
  - intros round persisted now g files.
    exact (proj1 (proj2 (main_outcome round persisted now g files))).
  - intros round persisted now g files events Hr.
    destruct (main_outcome round persisted now g files)
      as (_ & Hl & _ & _ & _ & Hq & _). cbv zeta in Hl, Hq.
    apply run_level_nonneg; [exact Hr| |].
    + now rewrite Hl.
    + rewrite Hq. constructor.
Qed.

Lemma smoothed_level_update_witness :
  readings_nonneg (rounding_run ++ [timer_timeout 100.2%float])
  /\ (0 <=? level (panel (run sample_round (rounding_run ++ [timer_timeout 100.2%float])
                            started)))%float = true.
Proof.
  assert (H : readings_nonneg (rounding_run ++ [timer_timeout 100.2%float])).
  { intros r [E|[E|[E|[E|[]]]]]; inversion E; reflexivity. }
  split; [exact H|].
  exact (proj2 (proj2 (proj2 smoothed_level_update))
           sample_round sample_settings 100%float sample_rng all_files _ H).
Defined.

(** C3, the claim as stated fails: after the readings 0.07 and 0.021 the
    level is 0.021 (the nearest binary64 number), the second tick drains the
    reading 0.021, and the level it computes, 0.020999999999999998, is
    below both. *)
Lemma smoothed_level_leaves_interval :
  let w := run sample_round rounding_run started in
  let previous := level (panel w) in
  let raw := List.last (_rms_queue (mic w)) 0.0%float in
  let updated := level (panel (step sample_round (timer_timeout 100.2%float) w)) in
  readings_nonneg rounding_run
  /\ previous = 0.021%float
  /\ raw = 0.021%float
  /\ (updated <? 0.021)%float = true
  /\ between previous raw updated = false.
Proof.
  cbv zeta. split.
  { intros r [E|[E|[E|[]]]]; inversion E; reflexivity. }
  repeat split; vm_compute; reflexivity.
Qed.

(** The same with readings that are binary32 numbers, as numpy publishes
    them: one loud reading, then a steady tone.  After 105 ticks of the tone
    the level equals the reading, and the next tick puts it below. *)
Example smoothed_level_steady_tone :
  let tone := 0x1.eb851ep-6%float in
  let w := run sample_round
             (audio_callback (Some 0.5%float) :: timer_timeout 100.06%float
              :: steady_tone tone 100.12%float 105) started in
  let w' := run sample_round [audio_callback (Some tone); timer_timeout 200%float] w in
  timer (panel w) = true
  /\ level (panel w) = tone
  /\ (level (panel w') <? tone)%float = true
  /\ between (level (panel w)) tone (level (panel w')) = false.
Proof. vm_compute. repeat split. Qed.

(** ** The idle timing *)

(** C8.  Once the panel has been built from persisted settings (they are
    normalized, and [_sync_idle_anim_options] hands them to the avatar), the
    timing the scheduler draws from satisfies
    [0.05 <= idle_interval_min <= idle_interval_max], and it still does after
    any run of the event loop.  Right after start-up the minimum is the
    normalized minimum raised to 0.05 and the maximum is the normalized
    maximum raised to that minimum.  The hand-over alone establishes the
    bounds, whatever the settings and whether or not its timer update
    raises. *)
Theorem idle_timing_clamped :
  (forall (round : float -> Z -> float) (persisted : config.Values) (now : float)
          (g : random.state) (files : string -> bool) (events : list event),
     fst (main round persisted now g files) = Ok tt ->
     let a := avatar (run round events (snd (main round persisted now g files))) in
     (0.05 <=? idle_interval_min a)%float = true
     /\ (idle_interval_min a <=? idle_interval_max a)%float = true)
  /\ (forall (round : float -> Z -> float) (persisted : config.Values) (now : float)
             (g : random.state) (files : string -> bool),
        fst (main round persisted now g files) = Ok tt ->
        let a := avatar (snd (main round persisted now g files)) in
        let v := PanelWindow._normalize_values persisted in
        idle_interval_min a = Py.max 0.05%float (config.idle_interval_min v)
        /\ idle_interval_max a = Py.max (idle_interval_min a) (config.idle_interval_max v))
  /\ (forall (persisted : config.Values) (w : World),
        let loaded :=
          with_panel (set_values (PanelWindow._normalize_values persisted) (panel w)) w in
        let a := avatar (snd (PanelWindow._sync_idle_anim_options loaded)) in
        (0.05 <=? idle_interval_min a)%float = true
        /\ (idle_interval_min a <=? idle_interval_max a)%float = true).
Proof.
  split; [|split].
  - intros round persisted now g files events Hok. cbv zeta.
    destruct (main_outcome round persisted now g files) as (_ & _ & _ & _ & _ & _ & _ & Hstart).
    cbv zeta in Hstart. destruct (Hstart Hok) as (_ & Emin & Emax).
    apply (proj1 (proj2 (run_rules round events _))).
    unfold timing_rule. rewrite Emin, Emax. split.
    + apply max_floor.
    + apply max_ge_left. apply (leb_self_r _ _ (max_floor _)).
  - intros round persisted now g files Hok. cbv zeta.
    destruct (main_outcome round persisted now g files) as (_ & _ & _ & _ & _ & _ & _ & Hstart).
    cbv zeta in Hstart. destruct (Hstart Hok) as (_ & Emin & Emax).
    split; [exact Emin|]. rewrite Emax, Emin. reflexivity.
  - intros persisted w. cbv zeta.
    match goal with
    | |- context [PanelWindow._sync_idle_anim_options ?w1] =>
        destruct (_sync_idle_anim_options_frame w1) as (r & t & g & calls & -> & _)
    end.
    apply set_idle_options_timing.
Qed.

(** Settings with the timing 0.01 .. 0.005: the scheduler gets 0.05 .. 0.05. *)
Lemma idle_timing_clamped_witness :
  fst (main sample_round low_timing_settings 100%float sample_rng all_files) = Ok tt
  /\ (let a := avatar (run sample_round [idle_timer_timeout]
                         (snd (main sample_round low_timing_settings 100%float
                                 sample_rng all_files))) in
      (0.05 <=? idle_interval_min a)%float = true
      /\ (idle_interval_min a <=? idle_interval_max a)%float = true).
Proof.
  split; [reflexivity|].
  apply (proj1 idle_timing_clamped sample_round low_timing_settings 100%float
           sample_rng all_files [idle_timer_timeout]).
  reflexivity.
Defined.

Example idle_timing_clamped_example :
  let a := avatar (snd (main sample_round low_timing_settings 100%float
                          sample_rng all_files)) in
  idle_interval_min a = 0.05%float /\ idle_interval_max a = 0.05%float
  /\ idle_timer a = Some 50%Z.
Proof. vm_compute. repeat split. Qed.

(** ** The idle scheduler: firings *)






(** The index sequence for three frames, and the timer while talking. *)
Example idle_scheduler_example :
  map (fun k => idle_index (avatar (fire_times k started))) [0; 1; 2; 3; 4; 5; 6]%nat
  = [0; 1; 2; 0; 1; 2; 0]%nat
  /\ idle_timer
       (avatar (run sample_round
                  [audio_callback (Some 0.5%float); timer_timeout 100.1%float] started))
     = None.
Proof. vm_compute. split; reflexivity. Qed.

(** ** Faults in a poll tick *)

(** C9 (as the code has it).  (1) [_poll_mic] never raises: what its [try]
    suite raises is caught.  (2) When the [try] suite raises, the handler
    stops the polling timer, sets the flag, shows the notice only if the flag
    was not set, and leaves everything else as the [try] suite left it: the
    avatar (talk state, label, idle timer), the smoothed level and
    [last_switch].  Nothing the tick wrote before the exception is rolled
    back.  (3) With the polling timer stopped no further tick runs, and
    nothing restarts the timer.  (4) Along every run the notice is shown at
    most once. *)
Theorem poll_fault_handling :
  (forall (w : World) (now : float), fst (PanelWindow._poll_mic now w) = Ok tt)
  /\ (forall (w : World) (now : float) (e : exn),
        fst (PanelWindow._poll_mic_try now w) = Raise e ->
        let faulted := snd (PanelWindow._poll_mic_try now w) in
        let w' := snd (PanelWindow._poll_mic now w) in
        timer (panel w') = false
        /\ _mic_error_notified (panel w') = true
        /\ notices w' = (notices w + if _mic_error_notified (panel w) then 0 else 1)%nat
        /\ avatar w' = avatar faulted
        /\ level (panel w') = level (panel faulted)
        /\ last_switch (panel w') = last_switch (panel faulted))
  /\ (forall (round : float -> Z -> float) (events : list event) (w : World) (now : float),
        timer (panel w) = false ->
        step round (timer_timeout now) w = w
        /\ timer (panel (run round events w)) = false)
  /\ (forall (round : float -> Z -> float) (persisted : config.Values) (now : float)
             (g : random.state) (files : string -> bool) (events : list event),
        (notices (run round events (snd (main round persisted now g files))) <= 1)%nat).
Proof.
  split; [|split; [|split]].
  - intros w now. exact (proj1 (_poll_mic_props w now)).
  - intros w now e Hraise. cbv zeta.
    destruct (_poll_mic_cases w now) as (c & calls & Hc & Hcases). cbv zeta in Hcases.
    destruct Hcases as [(_ & Etry & _)|(_ & t & g & c' & calls' & Hc' & _ & Hend)].
    { rewrite Etry in Hraise. discriminate. }
    destruct Hend as [(Etry & _)|(e' & calls'' & _ & Etry & E & Hn)].
    { rewrite Etry in Hraise. discriminate. }
    rewrite Etry, E. cbn [fst snd].
    split; [reflexivity|]. split; [reflexivity|].
    split; [|repeat split].
    unfold notices. simpl.
    rewrite notices_app, Hn, (notices_silent calls' _ Hc'), (notices_silent calls _ Hc).
    cbn [filter is_mic_notice]. lia.
  - intros round events w now Hoff. split.
    + now rewrite step_poll, Hoff.
    + exact (proj2 (proj2 (proj2 (run_rules round events w))) Hoff).
  - intros round persisted now g files events.
    destruct (main_outcome round persisted now g files)
      as (_ & _ & _ & Hflag & Hnone & _). cbv zeta in Hflag, Hnone.
    refine (proj1 (proj1 (proj2 (proj2 (run_rules round events _))) _)).
    unfold notice_rule. rewrite Hnone. split; [lia|reflexivity].
Qed.

(** The tick at 100.7 of the example raises, and the handler does what the
    theorem says. *)
Lemma poll_fault_handling_witness :
  fst (PanelWindow._poll_mic_try 100.7%float last_good) = Raise OverflowError
  /\ timer (panel (snd (PanelWindow._poll_mic 100.7%float last_good))) = false
  /\ notices (snd (PanelWindow._poll_mic 100.7%float last_good)) = 1%nat.
Proof.
  assert (H : fst (PanelWindow._poll_mic_try 100.7%float last_good) = Raise OverflowError)
    by reflexivity.
  destruct (proj1 (proj2 poll_fault_handling) last_good 100.7%float OverflowError H)
    as (Ht & _ & Hn & _).
  split; [exact H|]. split; [exact Ht|]. rewrite Hn. reflexivity.
Defined.

(** C9, the claim as stated fails.  The settings hold one idle frame, a talk
    image and an unbounded idle interval; the avatar starts talking at
    100.1, a second idle frame is added while it talks, and the level decays.
    After the tick at 100.6, the last good one, the avatar talks and shows
    the talk image.  The tick at 100.7 makes it idle: [set_talking(False)]
    writes the flag and shows the idle frame, then the interval it draws is
    infinite and [int] raises.  The exception is caught, and the talk state
    and the image are those of the faulted tick, not of the last good one. *)
Lemma poll_fault_keeps_partial_update :
  fst (main sample_round unbounded_settings 100%float sample_rng all_files) = Ok tt
  /\ timer (panel last_good) = true
  /\ is_talking (avatar last_good) = true
  /\ label (avatar last_good) = label_pixmap (pix "talk.png")
  /\ fst (PanelWindow._poll_mic_try 100.7%float last_good) = Raise OverflowError
  /\ is_talking (avatar (step sample_round (timer_timeout 100.7%float) last_good)) = false
  /\ label (avatar (step sample_round (timer_timeout 100.7%float) last_good))
     = label_pixmap (pix "a.png").
Proof. repeat split; vm_compute; reflexivity. Qed.

(* ================================================================== *)
(** * Part II, continued: the level meter, the settings editor and the
      invariants of a session *)
(* ================================================================== *)

(** ** Rules for pre- and postconditions *)

Lemma triple_bind {A B : Type} (P : World -> Prop) (R : A -> World -> Prop)
    (Q : B -> World -> Prop) (E : exn -> World -> Prop) (m : M A) (k : A -> M B) :
  triple P m R E -> (forall a, triple (R a) (k a) Q E) -> triple P (bind m k) Q E.
Proof.
  intros Hm Hk w Hw. unfold bind. specialize (Hm w Hw).
  destruct (m w) as [[a|e] w1]; [|exact Hm].
  exact (Hk a w1 Hm).
Qed.

Lemma triple_try {A : Type} (P : World -> Prop) (Q : A -> World -> Prop)
    (R E : exn -> World -> Prop) (m : M A) (h : exn -> M A) :
  triple P m Q R -> (forall e, triple (R e) (h e) Q E) -> triple P (try_except m h) Q E.
Proof.
  intros Hm Hh w Hw. unfold try_except. specialize (Hm w Hw).
  destruct (m w) as [[a|e] w1]; [exact Hm|].
  exact (Hh e w1 Hm).
Qed.

Lemma triple_weaken {A : Type} (P P' : World -> Prop) (Q Q' : A -> World -> Prop)
    (E E' : exn -> World -> Prop) (m : M A) :
  triple P m Q E ->
  (forall w, P' w -> P w) -> (forall a w, Q a w -> Q' a w) -> (forall e w, E e w -> E' e w) ->
  triple P' m Q' E'.
Proof.
  intros Hm HP HQ HE w Hw. specialize (Hm w (HP w Hw)).
  destruct (m w) as [[a|e] w1]; auto.
Qed.

Lemma keeps_bind {A B : Type} (I : World -> Prop) (m : M A) (k : A -> M B) :
  keeps I m -> (forall a, keeps I (k a)) -> keeps I (bind m k).
Proof. intros Hm Hk. unfold keeps in *. eapply triple_bind; [exact Hm|exact Hk]. Qed.

Lemma keeps_try {A : Type} (I : World -> Prop) (m : M A) (h : exn -> M A) :
  keeps I m -> (forall e, keeps I (h e)) -> keeps I (try_except m h).
Proof. intros Hm Hh. unfold keeps in *. eapply triple_try; [exact Hm|exact Hh]. Qed.

Lemma keeps_snd {A : Type} (I : World -> Prop) (m : M A) (w : World) :
  keeps I m -> I w -> I (snd (m w)).
Proof.
  intros Hm Hw. specialize (Hm w Hw). destruct (m w) as [[a|e] w1]; exact Hm.
Qed.

Lemma snd_keeps {A : Type} (I : World -> Prop) (m : M A) :
  (forall w, I w -> I (snd (m w))) -> keeps I m.
Proof.
  intros H w Hw. specialize (H w Hw). destruct (m w) as [[a|e] w1]; exact H.
Qed.

(** ** What the label shows *)

Lemma refresh_displayed (w : World) :
  exists calls : list gui_call,
    AvatarWindow.refresh w =
    (Ok tt, with_gui (calls ++ gui w)
              (with_avatar (set_label (displayed (avatar w)) (avatar w)) w)).
Proof.
  unfold AvatarWindow.refresh, displayed, bind, get.
  destruct (if is_talking (avatar w)
            then snd (AvatarWindow._resolve_talk_variant (avatar w) None)
            else AvatarWindow._current_idle_pix (avatar w)) as [p|].
  - exists [label_setPixmap p; label_setText ""]. reflexivity.
  - exists [label_setText "avatar.placeholder.no_images"]. reflexivity.
Qed.

(** The image the selector returns is determined by the index it returns. *)
Lemma resolve_scan_index (l1 l2 : float) (variants : list (float * QPixmap)) :
  forall (i : Z) (b1 b2 : Z * option QPixmap),
    (fst b1 < i)%Z -> (fst b2 < i)%Z ->
    (fst b1 = fst b2 -> snd b1 = snd b2) ->
    fst (AvatarWindow.resolve_scan l1 variants i b1)
    = fst (AvatarWindow.resolve_scan l2 variants i b2) ->
    snd (AvatarWindow.resolve_scan l1 variants i b1)
    = snd (AvatarWindow.resolve_scan l2 variants i b2).
Proof.
  induction variants as [|[t p] rest IH]; intros i b1 b2 H1 H2 Hb; cbn [AvatarWindow.resolve_scan].
  - exact Hb.
  - apply IH.
    + destruct (Py.ge l1 t); cbn [fst]; lia.
    + destruct (Py.ge l2 t); cbn [fst]; lia.
    + destruct (Py.ge l1 t), (Py.ge l2 t); cbn [fst snd]; intros E;
        try reflexivity; try (exfalso; lia). exact (Hb E).
Qed.

Lemma displayed_talk_level (a : AvatarWindow) (lvl : float) :
  let a1 := set_talk_level_field lvl a in
  (is_talking a1 && negb (fst (AvatarWindow._resolve_talk_variant a None)
                          =? fst (AvatarWindow._resolve_talk_variant a1 None))%Z)%bool = false ->
  displayed a1 = displayed a.
Proof.
  cbv zeta. unfold displayed. cbn [is_talking set_talk_level_field].
  destruct (is_talking a); [|reflexivity].
  cbn [andb]. intros H. apply Bool.negb_false_iff, Z.eqb_eq in H.
  unfold AvatarWindow._resolve_talk_variant in *.
  cbn [talk_level talk_variants talk_pix set_talk_level_field] in *.
  rewrite (resolve_scan_index lvl (talk_level a) (talk_variants a) 0
             ((-1)%Z, talk_pix a) ((-1)%Z, talk_pix a));
    [reflexivity| cbn; lia | cbn; lia | reflexivity | now symmetry].
Qed.

Lemma set_talk_level_sound (lvl : float) : keeps avatar_sound (AvatarWindow.set_talk_level lvl).
Proof.
  apply snd_keeps. intros w [Hl Hi].
  unfold AvatarWindow.set_talk_level, bind, get, update_avatar, ret.
  match goal with
  | |- context [if ?b then _ else _] => destruct b eqn:Hb
  end.
  - match goal with
    | |- context [AvatarWindow.refresh ?w1] => destruct (refresh_displayed w1) as (calls & ->)
    end.
    split; [reflexivity|exact Hi].
  - split; [|exact Hi]. cbn.
    change (label (avatar w) = displayed (set_talk_level_field (Py.max 0.0%float lvl) (avatar w))).
    rewrite displayed_talk_level; [exact Hl|]. exact Hb.
Qed.

Lemma _update_idle_timer_sound : keeps avatar_sound AvatarWindow._update_idle_timer.
Proof.
  apply snd_keeps. intros w H.
  destruct (_update_idle_timer_frame w) as (r & t & g & calls & -> & _).
  exact H.
Qed.

(** [refresh] puts the label right, whatever it showed. *)
Lemma refresh_sound (E : exn -> World -> Prop) :
  triple (fun w => idle_index_ok (avatar w)) AvatarWindow.refresh (fun _ => avatar_sound) E.
Proof.
  intros w H. destruct (refresh_displayed w) as (calls & ->).
  split; [reflexivity|exact H].
Qed.

Lemma refresh_then_timer_sound :
  triple (fun w => idle_index_ok (avatar w))
    (AvatarWindow.refresh ;;; AvatarWindow._update_idle_timer)
    (fun _ => avatar_sound) (fun _ => avatar_sound).
Proof.
  eapply triple_bind; [apply refresh_sound|].
  intros u. apply _update_idle_timer_sound.
Qed.

Lemma set_talking_sound (talking : bool) : keeps avatar_sound (AvatarWindow.set_talking talking).
Proof.
  intros w H. unfold AvatarWindow.set_talking. rewrite bind_get.
  destruct (Bool.eqb (is_talking (avatar w)) talking); [exact H|].
  rewrite bind_update_avatar.
  apply refresh_then_timer_sound. exact (proj2 H).
Qed.

Lemma _advance_idle_frame_sound : keeps avatar_sound AvatarWindow._advance_idle_frame.
Proof.
  intros w H. unfold AvatarWindow._advance_idle_frame. rewrite bind_get.
  destruct (idle_pix_list (avatar w)) as [|p0 ps] eqn:Hl;
    [apply _update_idle_timer_sound; exact H|].
  destruct (is_talking (avatar w)); [apply _update_idle_timer_sound; exact H|].
  assert (Hn : (0 < List.length (p0 :: ps))%nat) by (cbn; lia).
  destruct (idle_random (avatar w)).
  - unfold AvatarWindow.random_randrange, random.randrange.
    unfold bind at 1. unfold bind at 1. cbn [update_avatar].
    apply refresh_then_timer_sound.
    unfold idle_index_ok. cbn [avatar with_avatar with_rng idle_index idle_pix_list set_idle_index].
    rewrite Hl.
    pose proof (Nat.mod_upper_bound
                  (random.index_draws (rng w) (random.cursor (rng w)))
                  (List.length (p0 :: ps)) ltac:(lia)).
    lia.
  - unfold bind at 1. cbn [update_avatar].
    apply refresh_then_timer_sound.
    unfold idle_index_ok. cbn [avatar with_avatar idle_index idle_pix_list set_idle_index].
    rewrite Hl.
    pose proof (Nat.mod_upper_bound (idle_index (avatar w) + 1)
                  (List.length (p0 :: ps)) ltac:(lia)).
    lia.
Qed.

Lemma update_idle_anim_options_sound (random_order : bool) (lo hi : float) :
  keeps avatar_sound (AvatarWindow.update_idle_anim_options random_order lo hi).
Proof.
  intros w H. unfold AvatarWindow.update_idle_anim_options. rewrite bind_update_avatar.
  apply _update_idle_timer_sound. exact H.
Qed.

(** ** Loading the images: what is loaded *)

Lemma load_idle_exact (idle_paths : list string) (width : Z) :
  forall (pix_list : list QPixmap) (idle_errors : list string) (w : World),
  exists idle_errors',
    AvatarWindow.load_idle idle_paths width pix_list idle_errors w =
    (Ok (pix_list ++ loaded_idle (readable w) idle_paths width, idle_errors'), w).
Proof.
  induction idle_paths as [|path rest IH]; intros pix_list idle_errors w.
  - exists idle_errors. cbn. now rewrite app_nil_r.
  - cbn [AvatarWindow.load_idle]. unfold loaded_idle. cbn [filter].
    destruct (path =? "")%string; [apply IH|].
    unfold bind, try_except, load_scaled, ret. cbn [negb andb].
    destruct (readable w path); cbn [fst snd map].
    + destruct (IH (pix_list ++ [{| source_path := path; scaled_width := width |}])
                  idle_errors w) as (errs & ->).
      exists errs. unfold loaded_idle. now rewrite <- app_assoc.
    + apply IH.
Qed.

(** [load_images] in closed form: the images are replaced by those the
    files give, the label is put right, and the idle timer is updated. *)
Lemma load_images_exact (w : World) (idle_paths : list string) (talk_default_path : string)
    (talk_frames_data : list config.talk_frame) (width : Z) :
  exists calls : list gui_call,
    AvatarWindow.load_images idle_paths talk_default_path talk_frames_data width w =
    (AvatarWindow.refresh ;;; AvatarWindow._update_idle_timer)
      (with_gui (calls ++ gui w)
         (with_avatar
            (images_loaded (readable w) idle_paths talk_default_path talk_frames_data width
               (avatar w)) w)).
Proof.
  destruct (load_idle_exact idle_paths width [] [] w) as (idle_errors & E1).
  cbn [app] in E1.
  set (pix_list := loaded_idle (readable w) idle_paths width) in *.
  set (w1 := with_avatar
               (set_talk_pix None (set_idle_index 0 (set_idle_pix_list pix_list (avatar w)))) w).
  assert (Hdef : exists errs,
    (if (talk_default_path =? "")%string then ret idle_errors
     else try_except
            (p <- load_scaled talk_default_path width ;;
             update_avatar (set_talk_pix (Some p)) ;;; ret idle_errors)
            (fun _ => ret (idle_errors ++ [talk_default_path]))) w1
    = (Ok errs,
       with_avatar
         (set_talk_pix (loaded_default (readable w) talk_default_path width) (avatar w1)) w1)).
  { unfold loaded_default. destruct (talk_default_path =? "")%string.
    - exists idle_errors. reflexivity.
    - unfold try_except, bind, load_scaled, update_avatar, ret.
      change (readable w1 talk_default_path) with (readable w talk_default_path).
      cbn [negb andb].
      destruct (readable w talk_default_path).
      + exists idle_errors. reflexivity.
      + exists (idle_errors ++ [talk_default_path]). reflexivity. }
  destruct Hdef as (errs & E2).
  set (w2 := with_avatar
               (set_talk_pix (loaded_default (readable w) talk_default_path width)
                  (avatar w1)) w1) in E2.
  destruct (load_variants_pure talk_frames_data width [] [] w2)
    as (variant_errors & E3).
  cbn [app] in E3.
  change (readable w2) with (readable w) in E3.
  set (raw := loaded_variants (readable w) talk_frames_data width) in E3.
  assert (Hwarn : forall (b : bool) (title : string) (w0 : World),
            exists calls,
              (if b then ret tt else qt (QMessageBox_warning title)) w0
              = (Ok tt, with_gui (calls ++ gui w0) w0)).
  { intros [|] title w0.
    - exists []. destruct w0; reflexivity.
    - exists [QMessageBox_warning title]. reflexivity. }
  set (w3 := with_avatar (set_talk_variants (list_sort fst raw) (avatar w2)) w2).
  destruct (Hwarn (AvatarWindow.is_nil errs) "avatar.error.images_title"%string w3)
    as (calls1 & E4).
  set (w4 := with_gui (calls1 ++ gui w3) w3) in E4.
  destruct (Hwarn (AvatarWindow.is_nil variant_errors)
              "avatar.error.talk_frames_title"%string w4)
    as (calls2 & E5).
  set (w5 := with_gui (calls2 ++ gui w4) w4) in E5.
  exists (calls2 ++ calls1).
  unfold AvatarWindow.load_images.
  erewrite bind_Ok.
  2:{ eapply try_except_Ok.
      erewrite (bind_Ok _ _ _ _ _ E1). cbv beta. cbn [fst snd].
      rewrite !bind_update_avatar. fold w1.
      erewrite (bind_Ok _ _ _ _ _ E2). cbv beta.
      erewrite (bind_Ok _ _ _ _ _ E3). cbv beta. cbn [fst snd].
      rewrite bind_update_avatar. fold w3.
      erewrite (bind_Ok _ _ _ _ _ E4). cbv beta.
      erewrite (bind_Ok _ _ _ _ _ E5). cbv beta.
      reflexivity. }
  cbv beta iota.
  f_equal. subst w5 w4 w3 w2 w1. unfold images_loaded. cbn.
  now rewrite <- app_assoc.
Qed.

Lemma images_loaded_index_ok (files : string -> bool) (idle_paths : list string)
    (talk_default_path : string) (talk_frames_data : list config.talk_frame) (width : Z)
    (a : AvatarWindow) :
  idle_index_ok (images_loaded files idle_paths talk_default_path talk_frames_data width a).
Proof.
  unfold idle_index_ok, images_loaded.
  cbn [idle_index idle_pix_list set_talk_variants set_talk_pix set_idle_index
       set_idle_pix_list].
  lia.
Qed.

Lemma load_images_sound (idle_paths : list string) (talk_default_path : string)
    (talk_frames_data : list config.talk_frame) (width : Z) :
  triple (fun _ => True)
    (AvatarWindow.load_images idle_paths talk_default_path talk_frames_data width)
    (fun _ => avatar_sound) (fun _ => avatar_sound).
Proof.
  intros w _.
  destruct (load_images_exact w idle_paths talk_default_path talk_frames_data width)
    as (calls & ->).
  apply refresh_then_timer_sound. apply images_loaded_index_ok.
Qed.

(** ** The avatar's label and index along the slots *)

Lemma neutral_sound {A : Type} (m : M A) :
  (forall w, avatar (snd (m w)) = avatar w) -> keeps avatar_sound m.
Proof.
  intros H. apply snd_keeps. intros w Hw. unfold avatar_sound. now rewrite H.
Qed.

Lemma _poll_mic_sound (now : float) : keeps avatar_sound (PanelWindow._poll_mic now).
Proof.
  unfold PanelWindow._poll_mic. apply keeps_try.
  - unfold PanelWindow._poll_mic_try.
    apply keeps_bind.
    { apply neutral_sound. intros w. unfold Mic.read.
      destruct (Mic.drain _ _). reflexivity. }
    intros mic_level. apply keeps_bind; [apply neutral_sound; reflexivity|]. intros _.
    apply keeps_bind; [apply neutral_sound; reflexivity|]. intros w1.
    apply keeps_bind; [apply neutral_sound; reflexivity|]. intros _.
    apply keeps_bind; [apply set_talk_level_sound|]. intros _.
    apply keeps_bind; [apply neutral_sound; reflexivity|]. intros w2.
    cbv zeta.
    destruct (is_talking (avatar w2));
      match goal with
      | |- context [if ?b then _ else _] => destruct b
      end;
      try (apply neutral_sound; reflexivity);
      (apply keeps_bind; [apply set_talking_sound|]; intros _;
       apply neutral_sound; reflexivity).
  - intros e. unfold PanelWindow._poll_mic_except.
    apply neutral_sound. intros w. rewrite bind_get.
    destruct w as [[v l ls notified tm] a m lm g rd gu].
    destruct tm, notified; reflexivity.
Qed.

Lemma _sync_idle_anim_options_sound : keeps avatar_sound PanelWindow._sync_idle_anim_options.
Proof.
  intros w H. unfold PanelWindow._sync_idle_anim_options. rewrite bind_get.
  apply update_idle_anim_options_sound. exact H.
Qed.

(** A slot of the image lists puts the avatar right whatever state it
    starts from. *)
Lemma editing_sound (m : M unit) :
  editing m -> triple (fun _ => True) m (fun _ => avatar_sound) (fun _ => avatar_sound).
Proof.
  induction 1 as [|f m Hf Hm IH|m Hm IH].
  - intros w _. unfold PanelWindow._reload_avatar_images. rewrite bind_get.
    now apply load_images_sound.
  - intros w _. rewrite bind_update_panel. now apply IH.
  - intros w _. unfold Editor._sorted_talk_frames.
    unfold bind at 1. unfold bind at 1. unfold bind at 1. cbn [get update_panel ret].
    now apply IH.
Qed.

Lemma _set_idle_frames_editing (frames : list string) :
  editing (PanelWindow._set_idle_frames frames).
Proof.
  unfold PanelWindow._set_idle_frames.
  apply (editing_write
           (fun v => PanelWindow.with_idle_frames (filter PanelWindow.nonempty frames)
                       match filter PanelWindow.nonempty frames with
                       | [] => config.idle_image v
                       | first :: _ => first
                       end v)).
  - intros v. repeat split.
  - apply editing_reload.
Qed.

Lemma _on_width_changed_editing (value : Z) : editing (PanelWindow._on_width_changed value).
Proof.
  unfold PanelWindow._on_width_changed.
  apply (editing_write (fun v => PanelWindow.with_width value v)).
  - intros v. repeat split.
  - apply editing_reload.
Qed.

Lemma slot_sound (round : float -> Z -> float) (e : event) :
  keeps avatar_sound (slot round e).
Proof.
  destruct e as [rms|now| |state|kind value|value|frames|value]; cbn [slot].
  - apply neutral_sound. intros w. destruct rms; reflexivity.
  - intros w H. destruct (timer (panel w)); [now apply _poll_mic_sound|exact H].
  - intros w H. destruct (idle_timer (avatar w));
      [now apply _advance_idle_frame_sound|exact H].
  - unfold PanelWindow._toggle_idle_random.
    apply keeps_bind; [apply neutral_sound; reflexivity|]. intros _.
    apply _sync_idle_anim_options_sound.
  - unfold PanelWindow._on_idle_interval_changed.
    apply keeps_bind; [apply neutral_sound; reflexivity|]. intros _.
    apply _sync_idle_anim_options_sound.
  - apply neutral_sound. reflexivity.
  - intros w _. now apply (editing_sound _ (_set_idle_frames_editing frames)).
  - intros w _. now apply (editing_sound _ (_on_width_changed_editing value)).
Qed.

(** ** What an action of a session does to the state of the engine *)

Section Actions.

Variable round : float -> Z -> float.

Lemma with_gui_same (w : World) : w = with_gui ([] ++ gui w) w.
Proof. destruct w; reflexivity. Qed.

(** The end of [perform]: the hook adds its message box. *)
Lemma perform_end (a : Editor.action) (d : Editor.Desk) (r : Editor.outcome unit)
    (d' : Editor.Desk) :
  Editor.act round a d = (r, d') ->
  exists calls : list gui_call,
    Editor.world (Editor.perform round a d)
    = with_gui (calls ++ gui (Editor.world d')) (Editor.world d').
Proof.
  intros E. unfold Editor.perform. rewrite E. destruct r as [u|e].
  - exists []. apply with_gui_same.
  - exists [QMessageBox_critical "error.unexpected.title"]. reflexivity.
Qed.

Lemma on_world_snd {A : Type} (m : M A) (d : Editor.Desk) :
  Editor.world (snd (Editor.on_world m d)) = snd (m (Editor.world d)).
Proof. unfold Editor.on_world. destruct (m (Editor.world d)) as [[a|e] w]; reflexivity. Qed.

(** A slot followed by [_sync_talk_markers]. *)
Lemma synced_snd (m : M unit) (d : Editor.Desk) :
  exists calls : list gui_call,
    Editor.world (snd (Editor.and_then (Editor.on_world m)
                         (fun _ => Editor._sync_talk_markers) d))
    = with_gui (calls ++ gui (snd (m (Editor.world d)))) (snd (m (Editor.world d))).
Proof.
  unfold Editor.and_then, Editor.on_world.
  destruct (m (Editor.world d)) as [[u|e] w]; cbn.
  - exists [level_meter_update]. reflexivity.
  - exists []. apply with_gui_same.
Qed.

Lemma with_gui_with_gui (l1 l2 : list gui_call) (w : World) :
  with_gui (l1 ++ gui (with_gui (l2 ++ gui w) w)) (with_gui (l2 ++ gui w) w)
  = with_gui ((l1 ++ l2) ++ gui w) w.
Proof. unfold with_gui. cbn. now rewrite <- app_assoc. Qed.

(** [_rebuild_talk_rows] is one more [_sorted_talk_frames]. *)
Lemma _rebuild_talk_rows_bind (k : M unit) (w : World) :
  (Editor._rebuild_talk_rows ;;; k) w = (Editor._sorted_talk_frames ;;; k) w.
Proof. reflexivity. Qed.

Lemma reaches_on_world (a : Editor.action) (d : Editor.Desk) (m0 m : M unit) :
  Editor.act round a d = Editor.on_world m0 d ->
  m0 (Editor.world d) = m (Editor.world d) ->
  exists calls : list gui_call,
    Editor.world (Editor.perform round a d)
    = with_gui (calls ++ gui (snd (m (Editor.world d)))) (snd (m (Editor.world d))).
Proof.
  intros Ea Em.
  destruct (Editor.on_world m0 d) as [r d'] eqn:E.
  destruct (perform_end a d r d' Ea) as (calls & ->).
  exists calls.
  assert (Hw : Editor.world d' = snd (m (Editor.world d))).
  { rewrite <- Em, <- on_world_snd, E. reflexivity. }
  now rewrite Hw.
Qed.

Lemma reaches_synced (a : Editor.action) (d : Editor.Desk) (m0 m : M unit) :
  Editor.act round a d
  = Editor.and_then (Editor.on_world m0) (fun _ => Editor._sync_talk_markers) d ->
  m0 (Editor.world d) = m (Editor.world d) ->
  exists calls : list gui_call,
    Editor.world (Editor.perform round a d)
    = with_gui (calls ++ gui (snd (m (Editor.world d)))) (snd (m (Editor.world d))).
Proof.
  intros Ea Em.
  destruct (Editor.and_then (Editor.on_world m0) (fun _ => Editor._sync_talk_markers) d)
    as [r d'] eqn:E.
  destruct (perform_end a d r d' Ea) as (calls & ->).
  destruct (synced_snd m0 d) as (calls' & Hs). rewrite E in Hs. cbn [snd] in Hs.
  rewrite Hs, Em. exists (calls ++ calls'). apply with_gui_with_gui.
Qed.

Lemma reaches_nothing (a : Editor.action) (d : Editor.Desk) (r : Editor.outcome unit) :
  Editor.act round a d = (r, d) ->
  exists calls : list gui_call,
    Editor.world (Editor.perform round a d)
    = with_gui (calls ++ gui (snd (ret tt (Editor.world d)))) (snd (ret tt (Editor.world d))).
Proof. intros E. exact (perform_end a d r d E). Qed.

(** The three ways [_move_idle_frame] ends. *)
Lemma _move_idle_frame_cases (direction current : Z) (d : Editor.Desk) :
  let frames := config.idle_frames (values (panel (Editor.world d))) in
  let target := (current + direction)%Z in
  Editor._move_idle_frame direction current d = (Editor.Done current, d)
  \/ Editor._move_idle_frame direction current d = (Editor.Failed Editor.IndexError, d)
  \/ exists at_target at_current : string,
       direction <> 0%Z
       /\ (0 <= current)%Z
       /\ (0 <= target < Z.of_nat (List.length frames))%Z
       /\ nth_error frames (Z.to_nat target) = Some at_target
       /\ nth_error frames (Z.to_nat current) = Some at_current
       /\ Editor._move_idle_frame direction current d
          = Editor.and_then
              (Editor.on_world
                 (PanelWindow._set_idle_frames
                    (Editor.setitem (Z.to_nat target) at_current
                       (Editor.setitem (Z.to_nat current) at_target frames))))
              (fun _ d' => (Editor.Done target, d')) d.
Proof.
  cbv zeta. unfold Editor._move_idle_frame.
  destruct (direction =? 0)%Z eqn:H0; [left; reflexivity|].
  destruct (Z.of_nat (List.length _) =? 0)%Z eqn:H0'; [left; reflexivity|].
  cbn [orb].
  destruct (current <? 0)%Z eqn:H1; [left; reflexivity|].
  destruct ((0 <=? current + direction)%Z
            && (current + direction <? Z.of_nat (List.length _))%Z) eqn:H2;
    cbn [negb]; [|left; reflexivity].
  destruct (nth_error _ (Z.to_nat (current + direction))) as [at_target|] eqn:H3;
    [|right; left; reflexivity].
  destruct (nth_error _ (Z.to_nat current)) as [at_current|] eqn:H4;
    [|right; left; reflexivity].
  right; right. exists at_target, at_current.
  apply Z.eqb_neq in H0. apply Z.ltb_ge in H1.
  apply andb_prop in H2 as [H2 H2']. apply Z.leb_le in H2. apply Z.ltb_lt in H2'.
  repeat split; assumption.
Qed.

(** Every action runs one computation on the state of the engine: the slot
    of an event, a slot of the image lists, or nothing; the rest of what it
    does goes to the call log and to the markers. *)
Lemma act_world (a : Editor.action) (d : Editor.Desk) :
  exists (m : M unit) (calls : list gui_call),
    world_slot round a m
    /\ Editor.world (Editor.perform round a d)
       = with_gui (calls ++ gui (snd (m (Editor.world d)))) (snd (m (Editor.world d))).
Proof.
  destruct a as [e|dialog|selected|direction current|yes|kind dialog| |index picked
                |index value|index].
  - (* engine *)
    exists (slot round e).
    assert (H : exists calls,
               Editor.world (Editor.perform round (Editor.engine e) d)
               = with_gui (calls ++ gui (snd (slot round e (Editor.world d))))
                   (snd (slot round e (Editor.world d)))).
    { destruct e;
        match goal with
        | |- context [Editor.engine (talk_spin_valueChanged ?v)] =>
            apply (reaches_synced (Editor.engine (talk_spin_valueChanged v)) d
                     (slot round (talk_spin_valueChanged v)) _ eq_refl eq_refl)
        | |- context [Editor.engine ?e0] =>
            apply (reaches_on_world (Editor.engine e0) d (slot round e0) _ eq_refl eq_refl)
        end. }
    destruct H as (calls & H). exists calls. split; [now constructor|exact H].
  - (* add_idle_clicked *)
    destruct dialog as [selected|].
    + eexists (PanelWindow._set_idle_frames _).
      destruct (reaches_on_world (Editor.add_idle_clicked (Some selected)) d
                  (Editor._add_idle_frames (Some selected))
                  (PanelWindow._set_idle_frames
                     (Editor.add_selected selected
                        (config.idle_frames (values (panel (Editor.world d)))))))
        as (calls & H); [reflexivity|reflexivity|].
      exists calls. split; [|exact H].
      apply world_slot_editing, _set_idle_frames_editing.
    + exists (ret tt).
      destruct (reaches_on_world (Editor.add_idle_clicked None) d (ret tt) (ret tt))
        as (calls & H); [reflexivity|reflexivity|].
      exists calls. split; [apply world_slot_none|exact H].
  - (* remove_idle_clicked *)
    destruct (Editor.sorted_rows selected) as [|row rows] eqn:Hrows.
    + exists (ret tt).
      destruct (reaches_on_world (Editor.remove_idle_clicked selected) d
                  (Editor._remove_idle_frames selected) (ret tt))
        as (calls & H); [reflexivity| |].
      { unfold Editor._remove_idle_frames. now rewrite Hrows. }
      exists calls. split; [apply world_slot_none|exact H].
    + eexists (PanelWindow._set_idle_frames _).
      destruct (reaches_on_world (Editor.remove_idle_clicked selected) d
                  (Editor._remove_idle_frames selected)
                  (PanelWindow._set_idle_frames
                     (Editor.pop_rows (row :: rows)
                        (config.idle_frames (values (panel (Editor.world d)))))))
        as (calls & H); [reflexivity| |].
      { unfold Editor._remove_idle_frames. now rewrite Hrows. }
      exists calls. split; [|exact H].
      apply world_slot_editing, _set_idle_frames_editing.
  - (* move_idle_clicked *)
    assert (Hnone : forall r,
              Editor.act round (Editor.move_idle_clicked direction current) d = (r, d) ->
              exists (m : M unit) (calls : list gui_call),
                world_slot round (Editor.move_idle_clicked direction current) m
                /\ Editor.world (Editor.perform round
                                   (Editor.move_idle_clicked direction current) d)
                   = with_gui (calls ++ gui (snd (m (Editor.world d))))
                       (snd (m (Editor.world d)))).
    { intros r E. exists (ret tt). destruct (reaches_nothing _ d r E) as (calls & H).
      exists calls. split; [apply world_slot_none|exact H]. }
    destruct (_move_idle_frame_cases direction current d)
      as [E|[E|(at_target & at_current & _ & _ & _ & _ & _ & E)]].
    + apply (Hnone (Editor.Done tt)). cbn [Editor.act]. unfold Editor.and_then.
      now rewrite E.
    + apply (Hnone (Editor.Failed Editor.IndexError)). cbn [Editor.act].
      unfold Editor.and_then. now rewrite E.
    + eexists (PanelWindow._set_idle_frames _).
      match type of E with
      | _ = Editor.and_then (Editor.on_world ?m0) _ _ => set (m := m0) in *
      end.
      assert (E' : Editor.act round (Editor.move_idle_clicked direction current) d
                   = Editor.on_world m d).
      { cbn [Editor.act]. unfold Editor.and_then at 1. rewrite E.
        unfold Editor.and_then, Editor.on_world.
        destruct (m (Editor.world d)) as [[u|e] w]; [destruct u|]; reflexivity. }
      destruct (reaches_on_world _ d m m E' eq_refl) as (calls & H).
      exists calls. split; [|exact H].
      apply world_slot_editing, _set_idle_frames_editing.
  - (* clear_idle_clicked *)
    destruct yes.
    + eexists. 
      destruct (reaches_on_world (Editor.clear_idle_clicked true) d
                  (Editor._clear_idle_frames true) (Editor._clear_idle_frames true))
        as (calls & H); [reflexivity|reflexivity|].
      exists calls. split; [|exact H].
      apply world_slot_editing. unfold Editor._clear_idle_frames.
      apply (editing_write
               (fun v => PanelWindow.with_idle_frames (config.idle_frames v) "" v)).
      * intros v. repeat split.
      * apply _set_idle_frames_editing.
    + exists (ret tt).
      destruct (reaches_on_world (Editor.clear_idle_clicked false) d (ret tt) (ret tt))
        as (calls & H); [reflexivity|reflexivity|].
      exists calls. split; [apply world_slot_none|exact H].
  - (* browse_clicked *)
    destruct dialog as [[|path rest]|].
    + exists (ret tt).
      destruct (reaches_nothing (Editor.browse_clicked kind (Some [])) d
                  (Editor.Failed Editor.IndexError) eq_refl) as (calls & H).
      exists calls. split; [apply world_slot_none|exact H].
    + destruct (kind =? "talk")%string eqn:Hk.
      * eexists.
        destruct (reaches_on_world (Editor.browse_clicked kind (Some (path :: rest))) d
                    (update_panel
                       (fun p => set_values (Editor.with_talk_image path (values p)) p) ;;;
                     PanelWindow._reload_avatar_images)
                    (update_panel
                       (fun p => set_values (Editor.with_talk_image path (values p)) p) ;;;
                     PanelWindow._reload_avatar_images))
          as (calls & H); [|reflexivity|].
        { cbn [Editor.act Editor._pick_image]. now rewrite Hk. }
        exists calls. split; [|exact H].
        apply world_slot_editing.
        apply (editing_write (fun v => Editor.with_talk_image path v)).
        -- intros v. repeat split.
        -- apply editing_reload.
      * eexists.
        destruct (reaches_on_world (Editor.browse_clicked kind (Some (path :: rest))) d
                    (PanelWindow._set_idle_frames [path])
                    (PanelWindow._set_idle_frames [path]))
          as (calls & H); [|reflexivity|].
        { cbn [Editor.act Editor._pick_image]. now rewrite Hk. }
        exists calls. split; [|exact H].
        apply world_slot_editing, _set_idle_frames_editing.
    + exists (ret tt).
      destruct (reaches_nothing (Editor.browse_clicked kind None) d
                  (Editor.Done tt) eq_refl) as (calls & H).
      exists calls. split; [apply world_slot_none|exact H].
  - (* add_level_clicked *)
    eexists.
    destruct (reaches_synced Editor.add_level_clicked d _
                (update_panel (fun p =>
                   set_values
                     (PanelWindow.with_talk_frames
                        (config.talk_frames (values p)
                         ++ [{| config.image := config.talk_image (values p);
                                config.threshold := config.talk_th (values p) |}])
                        (values p)) p) ;;;
                 Editor._sorted_talk_frames ;;;
                 Editor._sorted_talk_frames ;;;
                 PanelWindow._reload_avatar_images)
                eq_refl eq_refl) as (calls & H).
    exists calls. split; [|exact H].
    apply world_slot_editing.
    apply (editing_write
             (fun v => PanelWindow.with_talk_frames
                         (config.talk_frames v
                          ++ [{| config.image := config.talk_image v;
                                 config.threshold := config.talk_th v |}]) v)).
    + intros v. repeat split.
    + apply editing_sorted, editing_sorted, editing_reload.
  - (* row_browse_clicked *)
    set (frames := config.talk_frames (values (panel (Editor.world d)))).
    assert (Hnone : Editor._pick_talk_row_image index picked (Editor.world d)
                    = ret tt (Editor.world d) ->
              exists (m : M unit) (calls : list gui_call),
                world_slot round (Editor.row_browse_clicked index picked) m
                /\ Editor.world (Editor.perform round
                                   (Editor.row_browse_clicked index picked) d)
                   = with_gui (calls ++ gui (snd (m (Editor.world d))))
                       (snd (m (Editor.world d)))).
    { intros E. exists (ret tt).
      destruct (reaches_on_world (Editor.row_browse_clicked index picked) d
                  (Editor._pick_talk_row_image index picked) (ret tt) eq_refl E)
        as (calls & H).
      exists calls. split; [apply world_slot_none|exact H]. }
    destruct (negb (Editor.in_range index frames)) eqn:Hr.
    { apply Hnone. unfold Editor._pick_talk_row_image. rewrite bind_get.
      fold frames. now rewrite Hr. }
    destruct picked as [path|].
    2:{ apply Hnone. unfold Editor._pick_talk_row_image. rewrite bind_get.
        fold frames. now rewrite Hr. }
    destruct (path =? "")%string eqn:Hp.
    { apply Hnone. unfold Editor._pick_talk_row_image. rewrite bind_get.
      fold frames. now rewrite Hr, Hp. }
    eexists.
    destruct (reaches_on_world (Editor.row_browse_clicked index (Some path)) d
                (Editor._pick_talk_row_image index (Some path))
                (update_panel (fun p =>
                   set_values
                     (PanelWindow.with_talk_frames
                        (Editor.update_row (Z.to_nat index)
                           (fun frame =>
                              {| config.image := path;
                                 config.threshold := config.threshold frame |})
                           frames)
                        (values p)) p) ;;;
                 Editor._sorted_talk_frames ;;;
                 PanelWindow._reload_avatar_images)
                eq_refl) as (calls & H).
    { unfold Editor._pick_talk_row_image. rewrite bind_get. fold frames.
      now rewrite Hr, Hp. }
    exists calls. split; [|exact H].
    apply world_slot_editing.
    apply (editing_write
             (fun v => PanelWindow.with_talk_frames
                         (Editor.update_row (Z.to_nat index)
                            (fun frame =>
                               {| config.image := path;
                                  config.threshold := config.threshold frame |})
                            frames) v)).
    + intros v. repeat split.
    + apply editing_sorted, editing_reload.
  - (* row_spin_valueChanged *)
    set (frames := config.talk_frames (values (panel (Editor.world d)))).
    destruct (negb (Editor.in_range index frames)) eqn:Hr.
    { exists (ret tt).
      destruct (reaches_nothing (Editor.row_spin_valueChanged index value) d
                  (Editor.Done tt)) as (calls & H).
      { cbn [Editor.act]. unfold Editor._update_talk_row_threshold. fold frames.
        now rewrite Hr. }
      exists calls. split; [apply world_slot_none|exact H]. }
    eexists.
    destruct (reaches_synced (Editor.row_spin_valueChanged index value) d
                (update_panel (fun p =>
                   set_values
                     (PanelWindow.with_talk_frames
                        (Editor.update_row (Z.to_nat index)
                           (fun frame =>
                              {| config.image := config.image frame;
                                 config.threshold := value |})
                           frames)
                        (values p)) p) ;;;
                 Editor._sorted_talk_frames ;;;
                 Editor._rebuild_talk_rows ;;;
                 PanelWindow._reload_avatar_images)
                (update_panel (fun p =>
                   set_values
                     (PanelWindow.with_talk_frames
                        (Editor.update_row (Z.to_nat index)
                           (fun frame =>
                              {| config.image := config.image frame;
                                 config.threshold := value |})
                           frames)
                        (values p)) p) ;;;
                 Editor._sorted_talk_frames ;;;
                 Editor._sorted_talk_frames ;;;
                 PanelWindow._reload_avatar_images))
      as (calls & H); [|reflexivity|].
    { cbn [Editor.act]. unfold Editor._update_talk_row_threshold. fold frames.
      now rewrite Hr. }
    exists calls. split; [|exact H].
    apply world_slot_editing.
    apply (editing_write
             (fun v => PanelWindow.with_talk_frames
                         (Editor.update_row (Z.to_nat index)
                            (fun frame =>
                               {| config.image := config.image frame;
                                  config.threshold := value |})
                            frames) v)).
    + intros v. repeat split.
    + apply editing_sorted, editing_sorted, editing_reload.
  - (* row_remove_clicked *)
    set (frames := config.talk_frames (values (panel (Editor.world d)))).
    destruct (negb (Editor.in_range index frames)) eqn:Hr.
    { exists (ret tt).
      destruct (reaches_nothing (Editor.row_remove_clicked index) d
                  (Editor.Done tt)) as (calls & H).
      { cbn [Editor.act]. unfold Editor._remove_talk_row. fold frames.
        now rewrite Hr. }
      exists calls. split; [apply world_slot_none|exact H]. }
    eexists.
    destruct (reaches_synced (Editor.row_remove_clicked index) d
                (update_panel (fun p =>
                   set_values
                     (PanelWindow.with_talk_frames
                        (Editor.pop (Z.to_nat index) frames) (values p)) p) ;;;
                 Editor._rebuild_talk_rows ;;;
                 PanelWindow._reload_avatar_images)
                (update_panel (fun p =>
                   set_values
                     (PanelWindow.with_talk_frames
                        (Editor.pop (Z.to_nat index) frames) (values p)) p) ;;;
                 Editor._sorted_talk_frames ;;;
                 PanelWindow._reload_avatar_images))
      as (calls & H); [|reflexivity|].
    { cbn [Editor.act]. unfold Editor._remove_talk_row. fold frames.
      now rewrite Hr. }
    exists calls. split; [|exact H].
    apply world_slot_editing.
    apply (editing_write
             (fun v => PanelWindow.with_talk_frames (Editor.pop (Z.to_nat index) frames) v)).
    + intros v. repeat split.
    + apply editing_sorted, editing_reload.
Qed.

End Actions.

(** ** Invariants of a session *)

Section Sessions.

Variable round : float -> Z -> float.

Lemma session_cons (a : Editor.action) (actions : list Editor.action) (d : Editor.Desk) :
  Editor.session round (a :: actions) d
  = Editor.session round actions (Editor.perform round a d).
Proof. reflexivity. Qed.

(** A property of the state of the engine that the call log does not
    affect, and that every computation an action may run keeps, holds all
    along a session. *)
Lemma session_invariant (I : World -> Prop) (ok : Editor.action -> Prop) :
  (forall w calls, I w -> I (with_gui calls w)) ->
  (forall a m, ok a -> world_slot round a m -> keeps I m) ->
  forall (actions : list Editor.action) (d : Editor.Desk),
    Forall ok actions ->
    I (Editor.world d) -> I (Editor.world (Editor.session round actions d)).
Proof.
  intros Hgui Hkeeps. induction actions as [|a actions IH]; intros d Hok Hd.
  - exact Hd.
  - rewrite session_cons. inversion Hok as [|? ? Ha Hrest]; subst.
    apply IH; [exact Hrest|].
    destruct (act_world round a d) as (m & calls & Hm & ->).
    apply Hgui. apply keeps_snd; [|exact Hd]. exact (Hkeeps a m Ha Hm).
Qed.

Lemma Forall_True (actions : list Editor.action) : Forall (fun _ => True) actions.
Proof. induction actions; constructor; auto. Qed.

Lemma world_slot_sound (a : Editor.action) (m : M unit) :
  world_slot round a m -> keeps avatar_sound m.
Proof.
  intros [e _|m' Hm|].
  - apply slot_sound.
  - intros w _. now apply (editing_sound m' Hm).
  - intros w H. exact H.
Qed.

Lemma AvatarWindow_init_sound (config_values : config.Values) :
  triple (fun _ => True) (AvatarWindow.__init__ config_values)
    (fun _ => avatar_sound) (fun _ => avatar_sound).
Proof.
  intros w _. unfold AvatarWindow.__init__. now apply load_images_sound.
Qed.

Lemma main_sound (persisted : config.Values) (now : float)
    (g : random.state) (files : string -> bool) :
  avatar_sound (snd (main round persisted now g files)).
Proof.
  unfold main, PanelWindow.__init__.
  erewrite bind_Ok by reflexivity. cbv beta. rewrite bind_get.
  match goal with
  | |- context [bind (AvatarWindow.__init__ ?cv) ?k ?w1] =>
      pose proof (AvatarWindow_init_sound cv w1 I) as H;
      unfold bind at 1;
      destruct (AvatarWindow.__init__ cv w1) as [[u|e] w2]
  end; [|cbn [snd]; exact H].
  rewrite bind_get. unfold PanelWindow._apply_talk_threshold.
  rewrite !bind_update_panel.
  apply (keeps_snd avatar_sound _ _ _sync_idle_anim_options_sound). exact H.
Qed.

Lemma session_sound (persisted : config.Values) (now : float)
    (g : random.state) (files : string -> bool) (actions : list Editor.action) :
  avatar_sound
    (Editor.world (Editor.session round actions
                     (Editor.opened round persisted now g files))).
Proof.
  apply (session_invariant avatar_sound (fun _ => True)).
  - intros w calls H. exact H.
  - intros a m _. apply world_slot_sound.
  - apply Forall_True.
  - apply main_sound.
Qed.

(** *** What the slots leave alone *)

Lemma avatar_same (a : AvatarWindow) :
  a = set_idle_timer (idle_timer a)
        (set_label (label a)
           (set_idle_index (idle_index a)
              (set_idle_options (idle_random a) (idle_interval_min a)
                 (idle_interval_max a) a))).
Proof. destruct a; reflexivity. Qed.

(** The slot of an event that is neither the poll tick nor a reload writes,
    at most, the idle options, the idle index, the label and the idle timer
    of the avatar, the queue (the audio callback only), and settings other
    than those naming the images. *)
Lemma slot_footprint (e : event) (w : World) :
  is_poll e = false -> reloads e = false ->
  exists (r : result unit) (v' : config.Values) (q : Mic) (t : option Z)
         (c : label_content) (i : nat) (rnd : bool) (lo hi : float)
         (g : random.state) (calls : list gui_call),
    slot round e w
    = (r, with_gui (calls ++ gui w)
            (with_mic q
               (with_avatar
                  (set_idle_timer t
                     (set_label c (set_idle_index i (set_idle_options rnd lo hi (avatar w)))))
                  (with_rng g (with_panel (set_values v' (panel w)) w)))))
    /\ image_settings v' = image_settings (values (panel w))
    /\ (is_audio e = false -> q = mic w).
Proof.
  intros Hpoll Hreload.
  destruct e as [rms|now| |state|kind value|value|frames|value]; try discriminate;
    cbn [slot].
  - (* audio_callback *)
    exists (Ok tt), (values (panel w)),
      (match rms with
       | Some r => {| _rms_queue := Queue.put r (_rms_queue (mic w)) |}
       | None => mic w
       end),
      (idle_timer (avatar w)), (label (avatar w)), (idle_index (avatar w)),
      (idle_random (avatar w)), (idle_interval_min (avatar w)),
      (idle_interval_max (avatar w)), (rng w), [].
    split; [|split; [reflexivity|discriminate]].
    rewrite <- avatar_same.
    destruct w as [[v l ls n tm] a m lm g0 rd gu]. destruct rms; reflexivity.
  - (* idle_timer_timeout *)
    destruct (idle_timer (avatar w)) eqn:Ht.
    + destruct (_advance_idle_frame_frame w) as (r & t & g & c & i & calls & E & _).
      exists r, (values (panel w)), (mic w), t, c, i,
        (idle_random (avatar w)), (idle_interval_min (avatar w)),
        (idle_interval_max (avatar w)), g, calls.
      split; [|split; reflexivity].
      rewrite E. destruct w as [[v l ls n tm] a m lm g0 rd gu]. destruct a. reflexivity.
    + exists (Ok tt), (values (panel w)), (mic w),
        (idle_timer (avatar w)), (label (avatar w)), (idle_index (avatar w)),
        (idle_random (avatar w)), (idle_interval_min (avatar w)),
        (idle_interval_max (avatar w)), (rng w), [].
      split; [|split; reflexivity].
      rewrite <- avatar_same.
      destruct w as [[v l ls n tm] a m lm g0 rd gu]. reflexivity.
  - (* idle_random_stateChanged *)
    unfold PanelWindow._toggle_idle_random. rewrite bind_update_panel.
    match goal with
    | |- context [PanelWindow._sync_idle_anim_options ?w1] =>
        destruct (_sync_idle_anim_options_frame w1) as (r & t & g & calls & E & _)
    end.
    rewrite E. clear E.
    exists r, (PanelWindow.with_idle_anim_random (state =? 2)%Z (values (panel w))),
      (mic w), t, (label (avatar w)), (idle_index (avatar w)),
      (state =? 2)%Z,
      (Py.max 0.05%float (config.idle_interval_min (values (panel w)))),
      (Py.max (Py.max 0.05%float (config.idle_interval_min (values (panel w))))
         (config.idle_interval_max (values (panel w)))),
      g, calls.
    split; [reflexivity|split; reflexivity].
  - (* idle_interval_valueChanged *)
    unfold PanelWindow._on_idle_interval_changed. rewrite bind_update_panel.
    match goal with
    | |- context [PanelWindow._sync_idle_anim_options ?w1] =>
        destruct (_sync_idle_anim_options_frame w1) as (r & t & g & calls & E & _)
    end.
    rewrite E. clear E.
    set (v := values (panel w)).
    destruct (kind =? "min")%string.
    + exists r,
        (PanelWindow.with_idle_interval value
           (if Py.gt value (config.idle_interval_max v) then value
            else config.idle_interval_max v) v),
        (mic w), t, (label (avatar w)), (idle_index (avatar w)),
        (config.idle_anim_random v),
        (Py.max 0.05%float value),
        (Py.max (Py.max 0.05%float value)
           (if Py.gt value (config.idle_interval_max v) then value
            else config.idle_interval_max v)),
        g, calls.
      split; [reflexivity|split; reflexivity].
    + exists r,
        (PanelWindow.with_idle_interval
           (if (value <? config.idle_interval_min v)%float then value
            else config.idle_interval_min v) value v),
        (mic w), t, (label (avatar w)), (idle_index (avatar w)),
        (config.idle_anim_random v),
        (Py.max 0.05%float
           (if (value <? config.idle_interval_min v)%float then value
            else config.idle_interval_min v)),
        (Py.max
           (Py.max 0.05%float
              (if (value <? config.idle_interval_min v)%float then value
               else config.idle_interval_min v)) value),
        g, calls.
      split; [reflexivity|split; reflexivity].
  - (* talk_spin_valueChanged *)
    unfold PanelWindow._apply_talk_threshold, update_panel.
    exists (Ok tt),
      (PanelWindow.with_talk_th
         (Py.max 0.001%float (Py.min 0.5%float (round value 3%Z))) (values (panel w))),
      (mic w),
      (idle_timer (avatar w)), (label (avatar w)), (idle_index (avatar w)),
      (idle_random (avatar w)), (idle_interval_min (avatar w)),
      (idle_interval_max (avatar w)), (rng w), [].
    split; [|split; reflexivity].
    rewrite <- avatar_same.
    destruct w as [[v l ls n tm] a m lm g0 rd gu]. reflexivity.
Qed.

(** What a poll tick leaves alone, and where it puts the level. *)
Lemma _poll_mic_footprint (w : World) (now : float) :
  let w' := snd (PanelWindow._poll_mic now w) in
  readable w' = readable w
  /\ idle_pix_list (avatar w') = idle_pix_list (avatar w)
  /\ talk_pix (avatar w') = talk_pix (avatar w)
  /\ talk_variants (avatar w') = talk_variants (avatar w)
  /\ level_meter w' = Py.max 0.0%float (smoothed_next w)
  /\ talk_level (avatar w') = Py.max 0.0%float (smoothed_next w).
Proof.
  cbv zeta.
  destruct (_poll_mic_cases w now) as (c & calls & _ & Hcases). cbv zeta in Hcases.
  destruct Hcases as [(_ & _ & E)|(_ & t & g & c' & calls' & _ & _ & Hend)].
  - rewrite E. repeat split.
  - destruct Hend as [(_ & E)|(e & calls'' & _ & _ & E & _)]; rewrite E; repeat split.
Qed.

(** [load_images] and [_reload_avatar_images] in closed form. *)
Lemma load_images_closed (w : World) (idle_paths : list string) (talk_default_path : string)
    (talk_frames_data : list config.talk_frame) (width : Z) :
  exists (r : result unit) (t : option Z) (g : random.state) (calls : list gui_call),
    let a1 := images_loaded (readable w) idle_paths talk_default_path talk_frames_data
                width (avatar w) in
    AvatarWindow.load_images idle_paths talk_default_path talk_frames_data width w
    = (r, avatar_moved w (set_idle_timer t (set_label (displayed a1) a1)) g calls)
    /\ (idle_paused a1 = true -> t = None /\ r = Ok tt).
Proof.
  destruct (load_images_exact w idle_paths talk_default_path talk_frames_data width)
    as (calls1 & E).
  match type of E with
  | _ = _ ?w1 => destruct (refresh_displayed w1) as (calls2 & E2)
  end.
  match type of E2 with
  | _ = (_, ?w2) =>
      destruct (_update_idle_timer_frame w2) as (r & t & g & calls3 & E3 & _ & Hstop & _)
  end.
  exists r, t, g, (calls3 ++ calls2 ++ calls1). cbv zeta. split.
  - rewrite E. erewrite (bind_Ok _ _ _ _ _ E2). cbv beta. rewrite E3.
    unfold avatar_moved. cbn. now rewrite <- !app_assoc.
  - intros Hp. apply Hstop. exact Hp.
Qed.

Lemma _reload_avatar_images_exact (w : World) :
  exists (r : result unit) (t : option Z) (g : random.state) (calls : list gui_call),
    let v := values (panel w) in
    let a1 := images_loaded (readable w) (PanelWindow._idle_paths v) (config.talk_image v)
                (config.talk_frames v) (config.width v) (avatar w) in
    PanelWindow._reload_avatar_images w
    = (r, avatar_moved w (set_idle_timer t (set_label (displayed a1) a1)) g calls)
    /\ (idle_paused a1 = true -> t = None /\ r = Ok tt).
Proof.
  unfold PanelWindow._reload_avatar_images. rewrite bind_get. apply load_images_closed.
Qed.

Lemma kept_settings_refl (v : config.Values) : kept_settings v v.
Proof. repeat split. Qed.

Lemma kept_settings_trans (v1 v2 v3 : config.Values) :
  kept_settings v1 v2 -> kept_settings v2 v3 -> kept_settings v1 v3.
Proof.
  unfold kept_settings. intros (A1 & A2 & A3 & A4) (B1 & B2 & B3 & B4).
  repeat split; congruence.
Qed.

(** A slot of the image lists leaves the avatar with the images its settings
    name, and leaves the levels, the talk state, the queue and the other
    settings as they were. *)
Lemma editing_footprint (m : M unit) :
  editing m ->
  forall w : World,
    let w' := snd (m w) in
    images_agree w'
    /\ kept_settings (values (panel w)) (values (panel w'))
    /\ level (panel w') = level (panel w)
    /\ mic w' = mic w
    /\ level_meter w' = level_meter w
    /\ readable w' = readable w
    /\ talk_level (avatar w') = talk_level (avatar w)
    /\ is_talking (avatar w') = is_talking (avatar w).
Proof.
  induction 1 as [|f m Hf Hm IH|m Hm IH]; intros w; cbv zeta.
  - destruct (_reload_avatar_images_exact w) as (r & t & g & calls & E & _).
    cbv zeta in E. rewrite E. cbn [snd].
    split; [|repeat split].
    unfold images_agree. cbn. repeat split.
  - rewrite bind_update_panel.
    destruct (IH (with_panel (set_values (f (values (panel w))) (panel w)) w))
      as (H1 & H2 & H3 & H4 & H5 & H6 & H7 & H8).
    cbv zeta in *.
    split; [exact H1|].
    split; [exact (kept_settings_trans _ _ _ (Hf (values (panel w))) H2)|].
    repeat split; assumption.
  - unfold Editor._sorted_talk_frames.
    unfold bind at 1. unfold bind at 1. unfold bind at 1. cbn [get update_panel ret].
    match goal with
    | |- context [m ?w1] => destruct (IH w1) as (H1 & H2 & H3 & H4 & H5 & H6 & H7 & H8)
    end.
    cbv zeta in *.
    split; [exact H1|].
    split; [exact (kept_settings_trans _ _ _ ltac:(repeat split) H2)|].
    repeat split; assumption.
Qed.

(** The settings after the slot of an event. *)
Lemma slot_values (e : event) (w : World) :
  let v := values (panel w) in
  values (panel (snd (slot round e w)))
  = match e with
    | idle_random_stateChanged state => PanelWindow.with_idle_anim_random (state =? 2)%Z v
    | idle_interval_valueChanged kind value =>
        if (kind =? "min")%string then
          PanelWindow.with_idle_interval value
            (if Py.gt value (config.idle_interval_max v) then value
             else config.idle_interval_max v) v
        else
          PanelWindow.with_idle_interval
            (if (value <? config.idle_interval_min v)%float then value
             else config.idle_interval_min v) value v
    | talk_spin_valueChanged value =>
        PanelWindow.with_talk_th
          (Py.max 0.001%float (Py.min 0.5%float (round value 3%Z))) v
    | idle_frames_chosen frames =>
        PanelWindow.with_idle_frames (filter PanelWindow.nonempty frames)
          match filter PanelWindow.nonempty frames with
          | [] => config.idle_image v
          | first :: _ => first
          end v
    | width_valueChanged value => PanelWindow.with_width value v
    | _ => v
    end.
Proof.
  cbv zeta.
  destruct e as [rms|now| |state|kind value|value|frames|value]; cbn [slot].
  - destruct rms; reflexivity.
  - destruct (timer (panel w)); [|reflexivity].
    pose proof (_poll_mic_props w now) as (_ & _ & _ & H & _). exact H.
  - destruct (idle_timer (avatar w)); [|reflexivity].
    destruct (_advance_idle_frame_frame w) as (r & t & g & c & i & calls & -> & _).
    reflexivity.
  - unfold PanelWindow._toggle_idle_random. rewrite bind_update_panel.
    match goal with
    | |- context [PanelWindow._sync_idle_anim_options ?w1] =>
        destruct (_sync_idle_anim_options_frame w1) as (r & t & g & calls & -> & _)
    end.
    reflexivity.
  - unfold PanelWindow._on_idle_interval_changed. rewrite bind_update_panel.
    match goal with
    | |- context [PanelWindow._sync_idle_anim_options ?w1] =>
        destruct (_sync_idle_anim_options_frame w1) as (r & t & g & calls & -> & _)
    end.
    cbn. destruct (kind =? "min")%string; reflexivity.
  - reflexivity.
  - unfold PanelWindow._set_idle_frames. rewrite bind_update_panel.
    match goal with
    | |- context [PanelWindow._reload_avatar_images ?w1] =>
        destruct (_reload_avatar_images_exact w1) as (r & t & g & calls & E & _)
    end.
    cbv zeta in E. rewrite E. reflexivity.
  - unfold PanelWindow._on_width_changed. rewrite bind_update_panel.
    match goal with
    | |- context [PanelWindow._reload_avatar_images ?w1] =>
        destruct (_reload_avatar_images_exact w1) as (r & t & g & calls & E & _)
    end.
    cbv zeta in E. rewrite E. reflexivity.
Qed.

Lemma reloads_editing (e : event) : reloads e = true -> editing (slot round e).
Proof.
  destruct e; try discriminate; intros _; cbn [slot].
  - apply _set_idle_frames_editing.
  - apply _on_width_changed_editing.
Qed.

(** *** The images and the settings *)


Lemma AvatarWindow_init_closed (config_values : config.Values) (w : World) :
  exists (r : result unit) (t : option Z) (g : random.state) (calls : list gui_call)
         (self : AvatarWindow),
    let idle_paths := match config.idle_frames config_values with
                      | [] => [config.idle_image config_values]
                      | _ :: _ => config.idle_frames config_values
                      end in
    let a1 := images_loaded (readable w) idle_paths (config.talk_image config_values)
                (config.talk_frames config_values) (config.width config_values) self in
    AvatarWindow.__init__ config_values w
    = (r, avatar_moved w (set_idle_timer t (set_label (displayed a1) a1)) g calls)
    /\ talk_level self = 0.0%float
    /\ is_talking self = false.
Proof.
  unfold AvatarWindow.__init__.
  match goal with
  | |- context [AvatarWindow.load_images ?a1 ?a2 ?a3 ?a4 ?w1] =>
      destruct (load_images_closed w1 a1 a2 a3 a4) as (r1 & t1 & g1 & calls1 & E1 & _)
  end.
  cbv zeta in E1.
  eexists r1, t1, g1, calls1, _. cbv zeta.
  split; [rewrite E1; reflexivity|]. split; reflexivity.
Qed.

(** The state [main] leaves. *)
Lemma main_state (persisted : config.Values) (now : float)
    (g : random.state) (files : string -> bool) :
  let r := fst (main round persisted now g files) in
  let w := snd (main round persisted now g files) in
  let v := PanelWindow._normalize_values persisted in
  let idle_paths := match config.idle_frames v with
                    | [] => [config.idle_image v]
                    | _ :: _ => config.idle_frames v
                    end in
  readable w = files
  /\ image_settings (values (panel w)) = image_settings v
  /\ config.idle_image (values (panel w)) = config.idle_image v
  /\ config.idle_interval_min (values (panel w)) = config.idle_interval_min v
  /\ config.idle_interval_max (values (panel w)) = config.idle_interval_max v
  /\ idle_pix_list (avatar w) = loaded_idle files idle_paths (config.width v)
  /\ talk_pix (avatar w) = loaded_default files (config.talk_image v) (config.width v)
  /\ talk_variants (avatar w)
     = list_sort fst (loaded_variants files (config.talk_frames v) (config.width v))
  /\ idle_index (avatar w) = 0%nat
  /\ talk_level (avatar w) = 0.0%float
  /\ level_meter w = 0.0%float
  /\ (r = Ok tt ->
      config.talk_th (values (panel w))
      = Py.max 0.001%float (Py.min 0.5%float (round (config.talk_th v) 3%Z))).
Proof.
  cbv zeta. unfold main, PanelWindow.__init__.
  erewrite bind_Ok by reflexivity. cbv beta.
  rewrite bind_get.
  match goal with
  | |- context [bind (AvatarWindow.__init__ ?cv) _ ?w1] =>
      destruct (AvatarWindow_init_closed cv w1)
        as (r1 & t1 & g1 & calls1 & self & E1 & Hl & Ht)
  end.
  cbv zeta in E1.
  destruct r1 as [[]|e1].
  - erewrite (bind_Ok _ _ _ _ _ E1). cbv beta.
    rewrite bind_get. unfold PanelWindow._apply_talk_threshold.
    rewrite !bind_update_panel.
    match goal with
    | |- context [PanelWindow._sync_idle_anim_options ?w5] =>
        destruct (_sync_idle_anim_options_frame w5) as (r2 & t2 & g2 & calls2 & E2 & _)
    end.
    rewrite E2. cbn [fst snd]. repeat split. exact Hl.
  - erewrite (bind_Raise _ _ _ _ _ E1). cbn [fst snd].
    repeat split; [exact Hl|discriminate].
Qed.




(** *** The levels *)

Lemma world_slot_levels (a : Editor.action) (m : M unit) :
  world_slot round a m -> keeps level_shared m.
Proof.
  intros [e _|m' Hm|].
  - apply snd_keeps. intros w H.
    destruct (reloads e) eqn:Hr.
    { destruct (editing_footprint _ (reloads_editing e Hr) w)
        as (_ & _ & H3 & _ & H5 & _ & H7 & _).
      cbv zeta in *. unfold level_shared in *. now rewrite H3, H5, H7. }
    destruct (is_poll e) eqn:Hp.
    + destruct e; try discriminate. cbn [slot].
      destruct (timer (panel w)); [|exact H].
      pose proof (_poll_mic_footprint w now) as (_ & _ & _ & _ & H5 & H6).
      pose proof (_poll_mic_props w now) as (_ & H2 & _).
      cbv zeta in *. unfold level_shared. now rewrite H5, H6, H2.
    + destruct (slot_footprint e w Hp Hr)
        as (r & v' & q & t & c & i & rnd & lo & hi & g & calls & E & _ & _).
      rewrite E. exact H.
  - apply snd_keeps. intros w H.
    destruct (editing_footprint m' Hm w) as (_ & _ & H3 & _ & H5 & _ & H7 & _).
    cbv zeta in *. unfold level_shared in *. now rewrite H3, H5, H7.
  - intros w H. exact H.
Qed.

Lemma main_levels (persisted : config.Values) (now : float)
    (g : random.state) (files : string -> bool) :
  level_shared (snd (main round persisted now g files)).
Proof.
  pose proof (main_state persisted now g files)
    as (_ & _ & _ & _ & _ & _ & _ & _ & _ & H1 & H2 & _).
  pose proof (main_outcome round persisted now g files) as (_ & H3 & _).
  cbv zeta in *. unfold level_shared. rewrite H1, H2, H3. split; reflexivity.
Qed.

(** *** The talk threshold *)

Lemma clamp_talk_th (x : float) :
  (0.001 <=? Py.max 0.001 (Py.min 0.5 x))%float = true
  /\ (Py.max 0.001 (Py.min 0.5 x) <=? 0.5)%float = true.
Proof.
  unfold Py.max, Py.min, Py.gt.
  destruct (x <? 0.5)%float eqn:H1.
  - destruct (0.001 <? x)%float eqn:H2.
    + split; now apply ltb_leb.
    + split; reflexivity.
  - split; reflexivity.
Qed.

Lemma world_slot_talk_th (a : Editor.action) (m : M unit) :
  world_slot round a m -> keeps (fun w => talk_th_clamped (values (panel w))) m.
Proof.
  intros [e _|m' Hm|].
  - apply snd_keeps. intros w H. pose proof (slot_values e w) as Hv. cbv zeta in Hv.
    rewrite Hv.
    destruct e as [rms|now| |state|kind value|value|frames|value]; try exact H.
    + destruct (kind =? "min")%string; exact H.
    + apply clamp_talk_th.
  - apply snd_keeps. intros w H.
    destruct (editing_footprint m' Hm w) as (_ & (H2 & _) & _).
    cbv zeta in *. unfold talk_th_clamped in *. now rewrite H2.
  - intros w H. exact H.
Qed.

Lemma main_talk_th (persisted : config.Values) (now : float)
    (g : random.state) (files : string -> bool) :
  fst (main round persisted now g files) = Ok tt ->
  talk_th_clamped (values (panel (snd (main round persisted now g files)))).
Proof.
  intros Hok.
  pose proof (main_state persisted now g files) as H.
  cbv zeta in H. destruct H as (_ & _ & _ & _ & _ & _ & _ & _ & _ & _ & _ & H).
  unfold talk_th_clamped. rewrite (H Hok). apply clamp_talk_th.
Qed.

(** *** The idle interval of the settings *)

Lemma interval_min_changed (value hi : float) :
  (value <=? value)%float = true -> (hi <=? hi)%float = true ->
  (value <=? (if Py.gt value hi then value else hi))%float = true.
Proof.
  intros Hv Hh. unfold Py.gt. destruct (hi <? value)%float eqn:H; [exact Hv|].
  now apply not_ltb_leb.
Qed.

Lemma interval_max_changed (value lo : float) :
  (value <=? value)%float = true -> (lo <=? lo)%float = true ->
  ((if (value <? lo)%float then value else lo) <=? value)%float = true.
Proof.
  intros Hv Hl. destruct (value <? lo)%float eqn:H; [exact Hv|].
  now apply not_ltb_leb.
Qed.

Lemma leb_self_l (x y : float) : (x <=? y)%float = true -> (x <=? x)%float = true.
Proof.
  rewrite !leb_spec. intros H.
  destruct (SFcompare (Prim2SF x) (Prim2SF y)) as [c|] eqn:E.
  - exact (proj1 (SFleb_refl_of_comparable _ _ c E)).
  - unfold SFleb in H. now rewrite E in H.
Qed.

Lemma world_slot_interval (a : Editor.action) (m : M unit) :
  (forall kind value,
     a = Editor.engine (idle_interval_valueChanged kind value) ->
     (value <=? value)%float = true) ->
  world_slot round a m -> keeps (fun w => interval_ordered (values (panel w))) m.
Proof.
  intros Hok [e He|m' Hm|].
  - apply snd_keeps. intros w H. pose proof (slot_values e w) as Hv. cbv zeta in Hv.
    rewrite Hv.
    destruct e as [rms|now| |state|kind value|value|frames|value]; try exact H.
    unfold interval_ordered in *.
    pose proof (Hok kind value He) as Hval.
    destruct (kind =? "min")%string; cbn.
    + apply interval_min_changed; [exact Hval|]. exact (leb_self_r _ _ H).
    + apply interval_max_changed; [exact Hval|]. exact (leb_self_l _ _ H).
  - apply snd_keeps. intros w H.
    destruct (editing_footprint m' Hm w) as (_ & (_ & _ & H3 & H4) & _).
    cbv zeta in *. unfold interval_ordered in *. now rewrite H3, H4.
  - intros w H. exact H.
Qed.

Lemma _normalize_values_interval (v : config.Values) :
  (config.idle_interval_min v <=? config.idle_interval_min v)%float = true ->
  (config.idle_interval_max v <=? config.idle_interval_max v)%float = true ->
  interval_ordered (PanelWindow._normalize_values v)
  /\ (0 <? config.idle_interval_min (PanelWindow._normalize_values v))%float = true.
Proof.
  intros Hlo Hhi. unfold interval_ordered, PanelWindow._normalize_values. cbn.
  destruct (config.idle_interval_min v <=? 0)%float eqn:H0.
  - split; [|reflexivity].
    destruct (config.idle_interval_max v <? 0.1)%float eqn:H1; [reflexivity|].
    now apply not_ltb_leb.
  - split.
    + destruct (config.idle_interval_max v <? config.idle_interval_min v)%float eqn:H1;
        [exact Hlo|].
      now apply not_ltb_leb.
    + rewrite ltb_spec. rewrite leb_spec in H0, Hlo. unfold SFltb, SFleb in *.
      rewrite (SFcompare_swap (Prim2SF (config.idle_interval_min v)) (Prim2SF 0)).
      destruct (SFcompare (Prim2SF (config.idle_interval_min v)) (Prim2SF 0))
        as [[| |]|] eqn:E; try discriminate; try reflexivity.
      exfalso.
      destruct (Prim2SF (config.idle_interval_min v)); cbn in *; try discriminate;
        destruct s; discriminate.
Qed.

(** *** Silence *)

Lemma hushed_poll (w : World) (now : float) :
  hushed w -> talk_th_clamped (values (panel w)) ->
  hushed (snd (PanelWindow._poll_mic now w)).
Proof.
  intros (H1 & H2 & H3) (H4 & _).
  pose proof (_poll_mic_props w now) as (_ & P1 & P2 & _ & P3 & _). cbv zeta in *.
  assert (Hs : smoothed_next w = 0.0%float).
  { unfold smoothed_next. rewrite H1, H2. reflexivity. }
  assert (Hf : flips now w = false).
  { unfold flips. rewrite H3, Hs.
    assert (H0 : (config.talk_th (values (panel w)) <? 0)%float = false).
    { apply leb_not_ltb. apply (leb_trans _ 0.001%float); [reflexivity|exact H4]. }
    now rewrite H0. }
  unfold hushed. rewrite P1, P2, P3, Hs, Hf, H3. repeat split.
Qed.

Lemma world_slot_hushed (a : Editor.action) (m : M unit) :
  (forall r, a <> Editor.engine (audio_callback (Some r))) ->
  world_slot round a m ->
  keeps (fun w => hushed w /\ talk_th_clamped (values (panel w))) m.
Proof.
  intros Hok Hm. apply snd_keeps. intros w [H Ht].
  split; [|exact (keeps_snd _ _ _ (world_slot_talk_th a m Hm) Ht)].
  destruct Hm as [e He|m' Hm|]; [| |exact H].
  - destruct (reloads e) eqn:Hr.
    { destruct (editing_footprint _ (reloads_editing e Hr) w)
        as (_ & _ & H3 & H4 & _ & _ & _ & H8).
      cbv zeta in *. unfold hushed in *. now rewrite H3, H4, H8. }
    destruct (is_poll e) eqn:Hp.
    + destruct e; try discriminate. cbn [slot].
      destruct (timer (panel w)); [|exact H]. now apply hushed_poll.
    + destruct (slot_footprint e w Hp Hr)
        as (r & v' & q & t & c & i & rnd & lo & hi & g & calls & E & _ & Hq).
      rewrite E. unfold hushed in *. cbn.
      destruct e as [[x|]| | | | | | |]; try discriminate;
        try (rewrite Hq by reflexivity; exact H).
      * exfalso. exact (Hok x He).
      * cbn [slot Mic._stream_callback] in E. injection E as _ E.
        apply (f_equal mic) in E. cbn in E. rewrite <- E. exact H.
  - destruct (editing_footprint m' Hm w) as (_ & _ & H3 & H4 & _ & _ & _ & H8).
    cbv zeta in *. unfold hushed in *. now rewrite H3, H4, H8.
Qed.

End Sessions.

(** ** The label *)

(** X1.  Once the panel is open, and after any actions of a session, the
    avatar's label shows what its state calls for: while the avatar talks,
    the image [_resolve_talk_variant] selects for the stored talk level;
    otherwise the idle frame at the idle index; and the placeholder text
    when there is no such image.  No slot leaves a stale image behind, also
    not one that raises. *)
Theorem label_shows_state :
  forall (round : float -> Z -> float) (persisted : config.Values) (now : float)
         (g : random.state) (files : string -> bool) (actions : list Editor.action),
    let w := Editor.world (Editor.session round actions
                             (Editor.opened round persisted now g files)) in
    label (avatar w) = displayed (avatar w).
Proof.
  intros round persisted now g files actions. cbv zeta.
  exact (proj1 (session_sound round persisted now g files actions)).
Qed.

Example label_shows_state_example :
  let w := Editor.world (Editor.session sample_round sample_session sample_desk) in
  is_talking (avatar w) = true
  /\ label (avatar w) = label_pixmap (pix "talk.png").
Proof. vm_compute. split; reflexivity. Qed.

(** ** The idle index *)

(** X3.  Once the panel is open, and after any actions of a session, the
    idle index designates a frame of the idle list (it is 0 when the list is
    empty), so the [% len(...)] of [_current_idle_pix] changes nothing: the
    current idle frame is the entry at the idle index. *)
Theorem idle_index_in_range :
  forall (round : float -> Z -> float) (persisted : config.Values) (now : float)
         (g : random.state) (files : string -> bool) (actions : list Editor.action),
    let a := avatar (Editor.world (Editor.session round actions
                                     (Editor.opened round persisted now g files))) in
    (idle_index a < Nat.max 1 (List.length (idle_pix_list a)))%nat
    /\ AvatarWindow._current_idle_pix a = nth_error (idle_pix_list a) (idle_index a).
Proof.
  intros round persisted now g files actions. cbv zeta.
  pose proof (proj2 (session_sound round persisted now g files actions)) as H.
  split; [exact H|].
  unfold idle_index_ok in H. unfold AvatarWindow._current_idle_pix.
  destruct (idle_pix_list _) as [|p ps] eqn:Hl.
  - now destruct (idle_index _).
  - rewrite Nat.mod_small; [reflexivity|]. cbn [List.length] in *. lia.
Qed.

(** ** The images and the settings *)





(** ** The levels *)

(** X4.  Once the panel is open, and after any actions of a session, the
    level meter and the avatar hold the same level: the smoothed level of
    the panel, clamped at zero ([max(0.0, level)], which also turns a NaN
    into zero). *)
Theorem level_reaches_meter_and_avatar :
  forall (round : float -> Z -> float) (persisted : config.Values) (now : float)
         (g : random.state) (files : string -> bool) (actions : list Editor.action),
    let w := Editor.world (Editor.session round actions
                             (Editor.opened round persisted now g files)) in
    level_meter w = Py.max 0.0%float (level (panel w))
    /\ talk_level (avatar w) = Py.max 0.0%float (level (panel w)).
Proof.
  intros round persisted now g files actions. cbv zeta.
  apply (session_invariant round level_shared (fun _ => True)).
  - intros w calls Hw. exact Hw.
  - intros a m _. apply world_slot_levels.
  - apply Forall_True.
  - apply main_levels.
Qed.

(** ** The talk threshold *)

(** X2.  Once the panel is open, the talk threshold of the settings lies in
    [0.001, 0.5], and stays there through any actions of a session, whatever
    the persisted threshold was, whatever the spin box delivers, and
    whatever [round] returns (a NaN ends as 0.5). *)
Theorem talk_threshold_clamped :
  forall (round : float -> Z -> float) (persisted : config.Values) (now : float)
         (g : random.state) (files : string -> bool) (actions : list Editor.action),
    fst (main round persisted now g files) = Ok tt ->
    let v := values (panel (Editor.world (Editor.session round actions
                                            (Editor.opened round persisted now g files)))) in
    (0.001 <=? config.talk_th v)%float = true /\ (config.talk_th v <=? 0.5)%float = true.
Proof.
  intros round persisted now g files actions Hok. cbv zeta.
  apply (session_invariant round (fun w => talk_th_clamped (values (panel w)))
           (fun _ => True)).
  - intros w calls Hw. exact Hw.
  - intros a m _. apply world_slot_talk_th.
  - apply Forall_True.
  - apply main_talk_th. exact Hok.
Qed.

Lemma talk_threshold_clamped_witness :
  let v := values (panel (Editor.world
                            (Editor.session (fun _ _ => nan)
                               [Editor.engine (talk_spin_valueChanged 7%float)]
                               (Editor.opened (fun _ _ => nan)
                                  (PanelWindow.with_talk_th 9%float sample_settings)
                                  100%float sample_rng all_files)))) in
  (0.001 <=? config.talk_th v)%float = true /\ (config.talk_th v <=? 0.5)%float = true.
Proof.
  apply (talk_threshold_clamped (fun _ _ => nan)
           (PanelWindow.with_talk_th 9%float sample_settings) 100%float sample_rng
           all_files [Editor.engine (talk_spin_valueChanged 7%float)]).
  reflexivity.
Defined.

(** ** The idle interval of the settings *)

(** X7.  When the persisted idle interval holds no NaN, and neither does any
    value an interval spin box delivers, the settings keep
    [idle_interval_min <= idle_interval_max] from the start and through any
    actions of a session: a minimum raised above the maximum drags the
    maximum up, a maximum lowered below the minimum drags the minimum
    down. *)
Theorem settings_interval_ordered :
  forall (round : float -> Z -> float) (persisted : config.Values) (now : float)
         (g : random.state) (files : string -> bool) (actions : list Editor.action),
    (config.idle_interval_min persisted <=? config.idle_interval_min persisted)%float = true ->
    (config.idle_interval_max persisted <=? config.idle_interval_max persisted)%float = true ->
    intervals_comparable actions ->
    let v := values (panel (Editor.world (Editor.session round actions
                                            (Editor.opened round persisted now g files)))) in
    (config.idle_interval_min v <=? config.idle_interval_max v)%float = true.
Proof.
  intros round persisted now g files actions Hlo Hhi Hact. cbv zeta.
  apply (session_invariant round (fun w => interval_ordered (values (panel w)))
           (fun a => forall kind value,
                       a = Editor.engine (idle_interval_valueChanged kind value) ->
                       (value <=? value)%float = true)).
  - intros w calls Hw. exact Hw.
  - intros a m Ha. now apply world_slot_interval.
  - apply Forall_forall. intros a Hin kind value ->. exact (Hact kind value Hin).
  - pose proof (main_state round persisted now g files)
      as (_ & _ & _ & H1 & H2 & _).
    cbv zeta in *. unfold interval_ordered. cbn [Editor.world Editor.opened].
    rewrite H1, H2.
    exact (proj1 (_normalize_values_interval persisted Hlo Hhi)).
Qed.

Lemma settings_interval_ordered_witness :
  let v := values (panel (Editor.world
                            (Editor.session sample_round sample_session
                               (Editor.opened sample_round low_timing_settings
                                  100%float sample_rng all_files)))) in
  (config.idle_interval_min v <=? config.idle_interval_max v)%float = true.
Proof.
  apply (settings_interval_ordered sample_round low_timing_settings 100%float sample_rng
           all_files sample_session).
  - reflexivity.
  - reflexivity.
  - intros kind value Hin. cbn in Hin.
    repeat (destruct Hin as [Hin|Hin]; [try discriminate Hin|]); [|contradiction].
    injection Hin as _ <-. reflexivity.
Defined.

(** ** Silence *)

(** X21.  When the panel has opened and the audio callback publishes no
    reading (the microphone delivers empty buffers only, or nothing), the
    smoothed level stays 0.0 and the avatar never starts talking, whatever
    else happens in the session. *)
Theorem silence_keeps_idle :
  forall (round : float -> Z -> float) (persisted : config.Values) (now : float)
         (g : random.state) (files : string -> bool) (actions : list Editor.action),
    fst (main round persisted now g files) = Ok tt ->
    silent actions ->
    let w := Editor.world (Editor.session round actions
                             (Editor.opened round persisted now g files)) in
    level (panel w) = 0.0%float /\ is_talking (avatar w) = false.
Proof.
  intros round persisted now g files actions Hok Hsilent. cbv zeta.
  assert (H : hushed (Editor.world (Editor.session round actions
                                      (Editor.opened round persisted now g files)))
              /\ talk_th_clamped
                   (values (panel (Editor.world
                                     (Editor.session round actions
                                        (Editor.opened round persisted now g files)))))).
  { apply (session_invariant round
             (fun w => hushed w /\ talk_th_clamped (values (panel w)))
             (fun a => forall r, a <> Editor.engine (audio_callback (Some r)))).
    - intros w calls Hw. exact Hw.
    - intros a m Ha. now apply world_slot_hushed.
    - apply Forall_forall. intros a Hin r ->. exact (Hsilent r Hin).
    - split; [|now apply main_talk_th].
      pose proof (main_outcome round persisted now g files)
        as (H1 & H2 & _ & _ & _ & H3 & _).
      cbv zeta in *. repeat split; assumption. }
  destruct H as ((H1 & _ & H3) & _). split; assumption.
Qed.

Lemma silence_keeps_idle_witness :
  let w := Editor.world (Editor.session sample_round silent_session sample_desk) in
  level (panel w) = 0.0%float /\ is_talking (avatar w) = false.
Proof.
  apply (silence_keeps_idle sample_round sample_settings 100%float sample_rng all_files
           silent_session).
  - reflexivity.
  - intros r Hin. cbn in Hin.
    repeat (destruct Hin as [Hin|Hin]; [discriminate Hin|]). contradiction.
Defined.

(** ** More on the order of binary64 numbers and on the sort *)

Lemma ltb_irrefl (x : float) : (x <? x)%float = false.
Proof.
  destruct (x <? x)%float eqn:H; [|reflexivity].
  pose proof (leb_not_ltb x x (ltb_leb x x H)). congruence.
Qed.

Lemma max0_nonneg (x : float) : (0 <=? Py.max 0.0 x)%float = true.
Proof.
  unfold Py.max, Py.gt. destruct (0 <? x)%float eqn:H; [now apply ltb_leb|reflexivity].
Qed.

Lemma max0_idem (x : float) : Py.max 0.0%float (Py.max 0.0%float x) = Py.max 0.0%float x.
Proof.
  unfold Py.max, Py.gt. destruct (0 <? x)%float eqn:H.
  - now rewrite H.
  - reflexivity.
Qed.

(** The stable sort leaves an ascending list as it is. *)
Lemma list_sort_id {A : Type} (key : A -> float) (l : list A) :
  Sorted (fun a b => (key a <=? key b)%float = true) l -> list_sort key l = l.
Proof.
  induction 1 as [|x l Hs IH Hhd]; [reflexivity|].
  cbn [list_sort]. rewrite IH.
  destruct Hhd as [|y l' Hxy]; [reflexivity|].
  cbn [sort_insert]. now rewrite (leb_not_ltb _ _ Hxy).
Qed.

Lemma list_sort_idem {A : Type} (key : A -> float) (l : list A) :
  Forall (fun v => (key v <=? key v)%float = true) l ->
  list_sort key (list_sort key l) = list_sort key l.
Proof. intros H. apply list_sort_id. now apply list_sort_sorted. Qed.

Lemma filter_id {A : Type} (f : A -> bool) (l : list A) :
  Forall (fun x => f x = true) l -> filter f l = l.
Proof.
  induction 1 as [|x l Hx Hl IH]; [reflexivity|].
  cbn [filter]. now rewrite Hx, IH.
Qed.

Lemma filter_filter {A : Type} (f : A -> bool) (l : list A) :
  filter f (filter f l) = filter f l.
Proof.
  apply filter_id. apply Forall_forall. intros x Hx. now apply filter_In in Hx.
Qed.

(** ** [_normalize_values] *)

Lemma normalize_talk_frames_clamped (frames : list config.talk_frame) :
  Forall (fun frame =>
            (config.image frame =? "")%string = false
            /\ Py.max 0.0%float (config.threshold frame) = config.threshold frame)
    (PanelWindow.normalize_talk_frames frames).
Proof.
  induction frames as [|frame frames IH]; [constructor|].
  cbn [PanelWindow.normalize_talk_frames].
  destruct (config.image frame =? "")%string eqn:E; [exact IH|].
  constructor; [|exact IH]. cbn. split; [exact E|apply max0_idem].
Qed.

Lemma normalize_talk_frames_fixed (frames : list config.talk_frame) :
  Forall (fun frame =>
            (config.image frame =? "")%string = false
            /\ Py.max 0.0%float (config.threshold frame) = config.threshold frame) frames ->
  PanelWindow.normalize_talk_frames frames = frames.
Proof.
  induction 1 as [|frame frames [Hi Ht] Hrest IH]; [reflexivity|].
  cbn [PanelWindow.normalize_talk_frames]. rewrite Hi, Ht, IH. now destruct frame.
Qed.

Lemma clamped_comparable (frames : list config.talk_frame) :
  Forall (fun frame =>
            (config.image frame =? "")%string = false
            /\ Py.max 0.0%float (config.threshold frame) = config.threshold frame) frames ->
  Forall (fun frame => (config.threshold frame <=? config.threshold frame)%float = true)
    frames.
Proof.
  apply Forall_impl. intros frame [_ H].
  apply (leb_self_r 0%float). rewrite <- H. apply max0_nonneg.
Qed.

Lemma normalized_talk_frames_fixed (frames : list config.talk_frame) :
  let sorted := list_sort config.threshold (PanelWindow.normalize_talk_frames frames) in
  list_sort config.threshold (PanelWindow.normalize_talk_frames sorted) = sorted.
Proof.
  cbv zeta.
  pose proof (normalize_talk_frames_clamped frames) as H.
  pose proof (Permutation_Forall (list_sort_perm config.threshold _) H) as H'.
  rewrite (normalize_talk_frames_fixed _ H').
  apply list_sort_idem. now apply clamped_comparable.
Qed.

(** X8.  [_normalize_values] is idempotent: settings that went through it
    are left as they are by a second pass (as when the panel is rebuilt for
    another language from a copy of its normalized settings), for every
    settings value, NaN thresholds and intervals included. *)
Theorem normalize_values_idempotent :
  forall v : config.Values,
    PanelWindow._normalize_values (PanelWindow._normalize_values v)
    = PanelWindow._normalize_values v.
Proof.
  intros [ii ti tf wd th ifr ar lo hi].
  unfold PanelWindow._normalize_values.
  cbn [config.idle_image config.talk_image config.talk_frames config.width config.talk_th
       config.idle_frames config.idle_anim_random config.idle_interval_min
       config.idle_interval_max PanelWindow.with_idle_interval PanelWindow.with_talk_frames
       PanelWindow.with_idle_frames].
  rewrite filter_filter.
  pose proof (normalized_talk_frames_fixed tf) as Hf. cbv zeta in Hf. rewrite Hf.
  assert (Himg : match filter PanelWindow.nonempty ifr with
                 | first :: _ => first
                 | [] => match filter PanelWindow.nonempty ifr with
                         | first :: _ => first
                         | [] => ii
                         end
                 end
                 = match filter PanelWindow.nonempty ifr with
                   | first :: _ => first
                   | [] => ii
                   end).
  { now destruct (filter PanelWindow.nonempty ifr). }
  rewrite Himg.
  set (lo' := if (lo <=? 0)%float then 0.1%float else lo).
  assert (Hlo : (if (lo' <=? 0)%float then 0.1%float else lo') = lo').
  { subst lo'. destruct (lo <=? 0)%float eqn:E; [reflexivity|now rewrite E]. }
  rewrite Hlo.
  set (hi' := if (hi <? lo')%float then lo' else hi).
  assert (Hhi : (if (hi' <? lo')%float then lo' else hi') = hi').
  { subst hi'. destruct (hi <? lo')%float eqn:E.
    - now rewrite ltb_irrefl.
    - now rewrite E. }
  rewrite Hhi. reflexivity.
Qed.

Lemma max0_fixed_nonneg (t : float) :
  Py.max 0.0%float t = t -> (0 <=? t)%float = true.
Proof. intros H. rewrite <- H. apply max0_nonneg. Qed.

(** X9.  What [_normalize_values] leaves, for every settings value: the
    idle frames are those of the settings that are not empty, in their
    order, and the idle image is the first of them when there is one; the
    talk frames are those with an image, each threshold clamped at zero (a
    NaN becomes zero), sorted by threshold: none has an empty image, every
    threshold is at least zero, and the list is ascending. *)
Theorem normalize_values_frames :
  forall v : config.Values,
    let v' := PanelWindow._normalize_values v in
    config.idle_frames v' = filter PanelWindow.nonempty (config.idle_frames v)
    /\ Forall (fun path => path <> ""%string) (config.idle_frames v')
    /\ (forall first rest, config.idle_frames v' = first :: rest ->
                           config.idle_image v' = first)
    /\ (config.idle_frames v' = [] -> config.idle_image v' = config.idle_image v)
    /\ Permutation (PanelWindow.normalize_talk_frames (config.talk_frames v))
         (config.talk_frames v')
    /\ frames_normalized (config.talk_frames v').
Proof.
  intros v. cbv zeta.
  change (config.idle_frames (PanelWindow._normalize_values v))
    with (filter PanelWindow.nonempty (config.idle_frames v)).
  change (config.idle_image (PanelWindow._normalize_values v))
    with (match filter PanelWindow.nonempty (config.idle_frames v) with
          | first :: _ => first
          | [] => config.idle_image v
          end).
  change (config.talk_frames (PanelWindow._normalize_values v))
    with (list_sort config.threshold
            (PanelWindow.normalize_talk_frames (config.talk_frames v))).
  split; [reflexivity|]. split.
  { apply Forall_forall. intros path Hin. apply filter_In in Hin as [_ Hne].
    unfold PanelWindow.nonempty in Hne. apply Bool.negb_true_iff in Hne.
    now apply String.eqb_neq. }
  split; [intros first rest ->; reflexivity|].
  split; [intros ->; reflexivity|].
  split; [apply list_sort_perm|].
  pose proof (normalize_talk_frames_clamped (config.talk_frames v)) as H.
  pose proof (Permutation_Forall (list_sort_perm config.threshold _) H) as H'.
  split.
  - revert H'. apply Forall_impl. intros frame [Hi Ht].
    split; [exact Hi|now apply max0_fixed_nonneg].
  - apply list_sort_strongly_sorted. now apply clamped_comparable.
Qed.

Lemma normalize_values_frames_witness :
  config.idle_image (PanelWindow._normalize_values sample_settings) = "a.png"%string
  /\ config.idle_image (PanelWindow._normalize_values legacy_settings) = "idle.png"%string.
Proof.
  split.
  - exact (proj1 (proj2 (proj2 (normalize_values_frames sample_settings)))
             "a.png"%string ["b.png"; "c.png"]%string eq_refl).
  - exact (proj1 (proj2 (proj2 (proj2 (normalize_values_frames legacy_settings)))) eq_refl).
Defined.

(** ** The level meter *)

Lemma _scale_value_floor (level : float) (self : level_meter.Markers) :
  (0.001 <=? level_meter._scale_value level self)%float = true.
Proof.
  unfold level_meter._scale_value, Py.max at 1, Py.gt.
  match goal with
  | |- context [(0.001 <? ?y)%float] => destruct (0.001 <? y)%float eqn:H
  end.
  - now apply ltb_leb.
  - reflexivity.
Qed.

Lemma floor_not_zero (x : float) : (0.001 <=? x)%float = true -> (x =? 0)%float = false.
Proof.
  intros H. destruct (x =? 0)%float eqn:E; [|reflexivity].
  pose proof (leb_trans _ _ _ H (eqb_leb _ _ E)) as H0.
  discriminate H0.
Qed.

Lemma unit_ratio (q : float) :
  (0 <=? Py.max 0.0 (Py.min 1.0 q))%float = true
  /\ (Py.max 0.0 (Py.min 1.0 q) <=? 1)%float = true.
Proof.
  split; [apply max0_nonneg|].
  unfold Py.max, Py.min, Py.gt.
  destruct (q <? 1)%float eqn:H1.
  - destruct (0 <? q)%float eqn:H2; [now apply ltb_leb|reflexivity].
  - reflexivity.
Qed.

(** X10.  [_value_to_x] never divides by zero: the scale is at least 0.001
    whatever the level and the threshold are (NaN and infinities included).
    The position it returns is [left + width * ratio] with a ratio in
    [0, 1], for every value (a NaN quotient gives the ratio 1). *)
Theorem value_to_x_within_bar :
  forall (level : float) (self : level_meter.Markers) (left width value : float),
    (0.001 <=? level_meter._scale_value level self)%float = true
    /\ exists ratio : float,
         level_meter._value_to_x level self left width value
         = Some (left + width * ratio)%float
         /\ (0 <=? ratio)%float = true
         /\ (ratio <=? 1)%float = true.
Proof.
  intros level self left width value.
  pose proof (_scale_value_floor level self) as Hs.
  split; [exact Hs|].
  unfold level_meter._value_to_x, operator.truediv.
  rewrite (floor_not_zero _ Hs).
  eexists. split; [reflexivity|]. apply unit_ratio.
Qed.

Lemma clamped_levels (levels : list float) :
  Forall (fun y => Py.max 0.0%float y = y) (map (fun value => Py.max 0.0%float value) levels).
Proof.
  induction levels as [|x levels IH]; constructor; [apply max0_idem|exact IH].
Qed.

Lemma fixed_comparable (l : list float) :
  Forall (fun y => Py.max 0.0%float y = y) l ->
  Forall (fun y => (y <=? y)%float = true) l.
Proof.
  apply Forall_impl. intros y H. apply (leb_self_r 0%float). now apply max0_fixed_nonneg.
Qed.

(** X11.  [set_thresholds] stores a threshold that is at least zero and
    markers that are the given levels clamped at zero, in ascending order,
    for every list of levels (a NaN and a negative level become zero). *)
Theorem set_thresholds_sorted :
  forall (talk : float) (levels : list float) (self : level_meter.Markers),
    let self' := level_meter.set_thresholds talk levels self in
    (0 <=? level_meter.talk_th self')%float = true
    /\ Permutation (map (fun value => Py.max 0.0%float value) levels)
         (level_meter.talk_levels self')
    /\ Forall (fun y => (0 <=? y)%float = true) (level_meter.talk_levels self')
    /\ StronglySorted (fun a b => (a <=? b)%float = true) (level_meter.talk_levels self').
Proof.
  intros talk levels self. cbv zeta. cbn [level_meter.set_thresholds
    level_meter.talk_th level_meter.talk_levels]. unfold level_meter.sorted.
  pose proof (clamped_levels levels) as H.
  split; [apply max0_nonneg|].
  split; [apply list_sort_perm|].
  split.
  - apply (Permutation_Forall (list_sort_perm (fun x => x) _)).
    revert H. apply Forall_impl. intros y Hy. now apply max0_fixed_nonneg.
  - apply (list_sort_strongly_sorted (fun x : float => x)). now apply fixed_comparable.
Qed.

Lemma map_fixed (l : list float) :
  Forall (fun y => Py.max 0.0%float y = y) l ->
  map (fun value => Py.max 0.0%float value) l = l.
Proof. induction 1 as [|y l Hy Hl IH]; [reflexivity|]. cbn [map]. now rewrite Hy, IH. Qed.

(** X12.  [set_threshold] moves the threshold line only: on a meter whose
    markers were stored by [set_thresholds] (or on a new meter), the markers
    it stores again, clamped and sorted once more, are the markers that
    were there. *)
Theorem set_threshold_keeps_markers :
  forall (talk talk0 : float) (levels : list float) (self0 : level_meter.Markers),
    let self := level_meter.set_thresholds talk0 levels self0 in
    level_meter.talk_levels (level_meter.set_threshold talk self)
    = level_meter.talk_levels self
    /\ level_meter.talk_th (level_meter.set_threshold talk self) = Py.max 0.0%float talk
    /\ level_meter.talk_levels (level_meter.set_threshold talk level_meter.__init__) = [].
Proof.
  intros talk talk0 levels self0. cbv zeta.
  split; [|split; reflexivity].
  unfold level_meter.set_threshold.
  cbn [level_meter.set_thresholds level_meter.talk_levels]. unfold level_meter.sorted.
  pose proof (clamped_levels levels) as H.
  pose proof (Permutation_Forall (list_sort_perm (fun x => x) _) H) as H'.
  rewrite (map_fixed _ H').
  apply (list_sort_idem (fun x : float => x)). now apply fixed_comparable.
Qed.

Example set_thresholds_example :
  level_meter.talk_levels sample_markers = [0%float; 0.05%float; 0.2%float]
  /\ level_meter._value_to_x 0.02%float sample_markers 8%float 100%float 0.03%float
     = Some (8 + 100 * (0.03 / (0.03 * 1.5)))%float
  /\ level_meter._value_to_x nan sample_markers 8%float 100%float nan
     = Some 108%float.
Proof. vm_compute. repeat split. Qed.

(** ** The background *)

Lemma background_slot_kept (e : Background.action) (p : Background.PanelWindow) :
  let ok := fun p : Background.PanelWindow =>
    Background.bg_color (Background.avatar p) = Background.bg p
    /\ Background.transparent_bg (Background.avatar p) = Background.bg_transparent p
    /\ Background.styleSheet (Background.avatar p)
       = Background.sheet (Background.bg p) (Background.bg_transparent p)
    /\ Background.label_styleSheet (Background.avatar p)
       = Background.sheet (Background.bg p) (Background.bg_transparent p)
    /\ Background.bg_button_enabled p = negb (Background.bg_transparent p)
    /\ Background.bg_button_text p = Background.bg p
    /\ Background.bg_button_styleSheet p = Background.sheet (Background.bg p) false in
  ok p -> ok (Background.slot e p).
Proof.
  cbv zeta. destruct p as [b tr txt sh en [c t s ls]]. cbn.
  intros (H1 & H2 & H3 & H4 & H5 & H6 & H7). subst c t s ls en txt sh.
  destruct e as [checked|[css|]]; cbn;
    unfold Background._toggle_bg_transparent, Background._pick_bg_color,
      Background._sync_bg_controls, Background.set_transparent_bg, Background.set_bg,
      Background._apply_bg_style, Background.sheet; cbn;
    try (destruct tr, checked; cbn; repeat split);
    try (destruct tr; cbn; repeat split).
Qed.

(** X20.  From the start and after any changes of the transparency box and
    of the colour, the avatar's window and its label carry the style sheet
    of the settings: transparent when [bg_transparent] is set, the colour
    [bg] otherwise; the avatar keeps the colour of the settings also while
    it is transparent; the colour button shows the colour of the settings
    and is enabled exactly when the background is not transparent. *)
Theorem background_follows_settings :
  forall (values_bg : string) (values_bg_transparent : bool)
         (events : list Background.action),
    let p := Background.run events
               (Background.PanelWindow__init__ values_bg values_bg_transparent) in
    Background.styleSheet (Background.avatar p)
    = Background.sheet (Background.bg p) (Background.bg_transparent p)
    /\ Background.label_styleSheet (Background.avatar p)
       = Background.sheet (Background.bg p) (Background.bg_transparent p)
    /\ Background.bg_color (Background.avatar p) = Background.bg p
    /\ Background.transparent_bg (Background.avatar p) = Background.bg_transparent p
    /\ Background.bg_button_enabled p = negb (Background.bg_transparent p)
    /\ Background.bg_button_text p = Background.bg p
    /\ Background.bg_button_styleSheet p = Background.sheet (Background.bg p) false.
Proof.
  intros values_bg values_bg_transparent events. cbv zeta.
  assert (H : forall p,
            (Background.bg_color (Background.avatar p) = Background.bg p
             /\ Background.transparent_bg (Background.avatar p) = Background.bg_transparent p
             /\ Background.styleSheet (Background.avatar p)
                = Background.sheet (Background.bg p) (Background.bg_transparent p)
             /\ Background.label_styleSheet (Background.avatar p)
                = Background.sheet (Background.bg p) (Background.bg_transparent p)
             /\ Background.bg_button_enabled p = negb (Background.bg_transparent p)
             /\ Background.bg_button_text p = Background.bg p
             /\ Background.bg_button_styleSheet p = Background.sheet (Background.bg p) false) ->
            let p' := Background.run events p in
            Background.bg_color (Background.avatar p') = Background.bg p'
            /\ Background.transparent_bg (Background.avatar p') = Background.bg_transparent p'
            /\ Background.styleSheet (Background.avatar p')
               = Background.sheet (Background.bg p') (Background.bg_transparent p')
            /\ Background.label_styleSheet (Background.avatar p')
               = Background.sheet (Background.bg p') (Background.bg_transparent p')
            /\ Background.bg_button_enabled p' = negb (Background.bg_transparent p')
            /\ Background.bg_button_text p' = Background.bg p'
            /\ Background.bg_button_styleSheet p'
               = Background.sheet (Background.bg p') false).
  { induction events as [|e events IH]; intros p Hp; [exact Hp|].
    cbn [Background.run fold_left]. apply IH.
    exact (background_slot_kept e p Hp). }
  destruct (H (Background.PanelWindow__init__ values_bg values_bg_transparent))
    as (H1 & H2 & H3 & H4 & H5 & H6 & H7).
  { destruct values_bg_transparent; cbn; repeat split. }
  cbv zeta in *. repeat split; assumption.
Qed.

Example background_example :
  let p := Background.run
             [Background.bg_transparent_stateChanged true;
              Background.bg_button_clicked (Some "#112233"%string);
              Background.bg_transparent_stateChanged false]
             (Background.PanelWindow__init__ "#00FF00" false) in
  Background.styleSheet (Background.avatar p) = "background:#112233;"%string.
Proof. reflexivity. Qed.

(** ** The list of idle frames *)

Section IdleList.
#[local] Open Scope Z_scope.









End IdleList.

(** [_set_idle_frames]: the settings it writes and the images it loads. *)
Lemma _set_idle_frames_effect (frames : list string) (w : World) :
  let w' := snd (PanelWindow._set_idle_frames frames w) in
  config.idle_frames (values (panel w')) = filter PanelWindow.nonempty frames
  /\ config.idle_image (values (panel w'))
     = match filter PanelWindow.nonempty frames with
       | [] => config.idle_image (values (panel w))
       | first :: _ => first
       end
  /\ images_agree w'.
Proof.
  cbv zeta.
  pose proof (slot_values (fun x _ => x) (idle_frames_chosen frames) w) as Hv.
  cbv zeta in Hv. cbn [slot] in Hv.
  split; [now rewrite Hv|]. split; [now rewrite Hv|].
  exact (proj1 (editing_footprint _ (_set_idle_frames_editing frames) w)).
Qed.



Example remove_idle_frames_example :
  config.idle_frames
    (values (panel (snd (Editor._remove_idle_frames [0%Z; 2%Z; 0%Z; 7%Z]
                           (Editor.world sample_desk)))))
  = ["b.png"%string].
Proof. reflexivity. Qed.




Example add_idle_frames_example :
  config.idle_frames
    (values (panel (snd (Editor._add_idle_frames
                           (Some ["d.png"; "a.png"; "d.png"; "e.png"]%string)
                           (Editor.world sample_desk)))))
  = ["a.png"; "b.png"; "c.png"; "d.png"; "e.png"]%string.
Proof. reflexivity. Qed.

(** X16.  [_clear_idle_frames], once confirmed, leaves no idle frame and no
    idle image in the settings and none in the avatar, stops the idle timer
    and does not raise; an idle avatar then shows the placeholder text.
    Declined, it changes nothing. *)
Theorem clear_idle_frames_empties :
  forall w : World,
    let w' := snd (Editor._clear_idle_frames true w) in
    Editor._clear_idle_frames false w = (Ok tt, w)
    /\ fst (Editor._clear_idle_frames true w) = Ok tt
    /\ config.idle_frames (values (panel w')) = []
    /\ config.idle_image (values (panel w')) = ""%string
    /\ idle_pix_list (avatar w') = []
    /\ idle_timer (avatar w') = None
    /\ (is_talking (avatar w) = false ->
        label (avatar w') = label_text "avatar.placeholder.no_images").
Proof.
  intros w. cbv zeta. split; [reflexivity|].
  unfold Editor._clear_idle_frames, PanelWindow._set_idle_frames.
  rewrite !bind_update_panel.
  match goal with
  | |- context [PanelWindow._reload_avatar_images ?w1] =>
      destruct (_reload_avatar_images_exact w1) as (r & t & g & calls & E & Hstop)
  end.
  cbv zeta in E, Hstop. rewrite E. clear E.
  destruct Hstop as [-> ->]; [reflexivity|].
  cbn [fst snd]. repeat split.
  intros Ht. cbn. unfold displayed, AvatarWindow._current_idle_pix. cbn. now rewrite Ht.
Qed.

Lemma clear_idle_frames_empties_witness :
  label (avatar (snd (Editor._clear_idle_frames true (Editor.world sample_desk))))
  = label_text "avatar.placeholder.no_images".
Proof.
  apply (clear_idle_frames_empties (Editor.world sample_desk)).
  vm_compute. reflexivity.
Defined.

(** *** Moving a frame *)

Lemma setitem_length {A : Type} (i : nat) (x : A) (l : list A) :
  (i < List.length l)%nat -> List.length (Editor.setitem i x l) = List.length l.
Proof.
  intros H. unfold Editor.setitem.
  rewrite length_app, firstn_length_le by lia. cbn [List.length].
  rewrite length_skipn. lia.
Qed.

Lemma setitem_nth_error {A : Type} (i : nat) (x : A) (l : list A) (k : nat) :
  (i < List.length l)%nat ->
  nth_error (Editor.setitem i x l) k = if (k =? i)%nat then Some x else nth_error l k.
Proof.
  intros H. unfold Editor.setitem.
  destruct (Nat.ltb_spec k i) as [Hk|Hk].
  - rewrite nth_error_app1 by (rewrite firstn_length_le; lia).
    rewrite nth_error_firstn.
    replace (k <? i)%nat with true by (symmetry; apply Nat.ltb_lt; lia).
    replace (k =? i)%nat with false by (symmetry; apply Nat.eqb_neq; lia).
    reflexivity.
  - rewrite nth_error_app2 by (rewrite firstn_length_le; lia).
    rewrite firstn_length_le by lia.
    destruct (Nat.eqb_spec k i) as [->|Hne].
    + now rewrite Nat.sub_diag.
    + replace (k - i)%nat with (S (k - S i)) by lia. cbn [nth_error].
      rewrite nth_error_skipn. f_equal. lia.
Qed.

Lemma Forall_split {A : Type} (P : A -> Prop) (n : nat) (l : list A) :
  Forall P l -> Forall P (firstn n l) /\ Forall P (skipn n l).
Proof. intros H. apply Forall_app. now rewrite firstn_skipn. Qed.

Lemma setitem_Forall {A : Type} (P : A -> Prop) (i : nat) (x : A) (l : list A) :
  Forall P l -> P x -> Forall P (Editor.setitem i x l).
Proof.
  intros Hl Hx. unfold Editor.setitem. apply Forall_app. split.
  - exact (proj1 (Forall_split P i l Hl)).
  - constructor; [exact Hx|exact (proj2 (Forall_split P (S i) l Hl))].
Qed.

Lemma nonempty_filter_id (frames : list string) :
  Forall (fun path => path <> ""%string) frames ->
  filter PanelWindow.nonempty frames = frames.
Proof.
  intros H. apply filter_id. revert H. apply Forall_impl. intros path Hp.
  unfold PanelWindow.nonempty. apply Bool.negb_true_iff. now apply String.eqb_neq.
Qed.

(** [_move_idle_frame] on a current row and a target row of the list. *)
Lemma _move_idle_frame_moves (direction current : Z) (d : Editor.Desk) :
  let frames := config.idle_frames (values (panel (Editor.world d))) in
  let target := (current + direction)%Z in
  direction <> 0%Z ->
  (0 <= current < Z.of_nat (List.length frames))%Z ->
  (0 <= target < Z.of_nat (List.length frames))%Z ->
  exists at_target at_current : string,
    nth_error frames (Z.to_nat target) = Some at_target
    /\ nth_error frames (Z.to_nat current) = Some at_current
    /\ Editor._move_idle_frame direction current d
       = Editor.and_then
           (Editor.on_world
              (PanelWindow._set_idle_frames
                 (Editor.setitem (Z.to_nat target) at_current
                    (Editor.setitem (Z.to_nat current) at_target frames))))
           (fun _ d' => (Editor.Done target, d')) d.
Proof.
  cbv zeta. intros Hd Hc Ht.
  destruct (nth_error (config.idle_frames (values (panel (Editor.world d))))
              (Z.to_nat (current + direction))) as [at_target|] eqn:E1.
  2:{ apply nth_error_None in E1. lia. }
  destruct (nth_error (config.idle_frames (values (panel (Editor.world d))))
              (Z.to_nat current)) as [at_current|] eqn:E2.
  2:{ apply nth_error_None in E2. lia. }
  exists at_target, at_current. split; [reflexivity|]. split; [reflexivity|].
  unfold Editor._move_idle_frame.
  replace (direction =? 0)%Z with false by (symmetry; apply Z.eqb_neq; lia).
  replace (Z.of_nat (List.length (config.idle_frames (values (panel (Editor.world d)))))
           =? 0)%Z with false by (symmetry; apply Z.eqb_neq; lia).
  replace (current <? 0)%Z with false by (symmetry; apply Z.ltb_ge; lia).
  replace (0 <=? current + direction)%Z with true by (symmetry; apply Z.leb_le; lia).
  replace (current + direction
           <? Z.of_nat (List.length (config.idle_frames (values (panel (Editor.world d))))))%Z
    with true by (symmetry; apply Z.ltb_lt; lia).
  cbn [orb andb negb]. now rewrite E1, E2.
Qed.

(** The frames of the settings once [_move_idle_frame] has swapped two of
    them. *)
Lemma moved_frames (swapped : list string) (target : Z) (d d1 : Editor.Desk)
    (o : Editor.outcome Z) :
  Forall (fun path => path <> ""%string) swapped ->
  Editor.and_then (Editor.on_world (PanelWindow._set_idle_frames swapped))
    (fun _ d' => (Editor.Done target, d')) d = (o, d1) ->
  config.idle_frames (values (panel (Editor.world d1))) = swapped
  /\ (forall r, o = Editor.Done r -> r = target).
Proof.
  intros Hne E. unfold Editor.and_then, Editor.on_world in E.
  destruct (_set_idle_frames_effect swapped (Editor.world d)) as (H1 & _).
  cbv zeta in H1. rewrite (nonempty_filter_id _ Hne) in H1.
  destruct (PanelWindow._set_idle_frames swapped (Editor.world d)) as [[u|e] w1];
    injection E as <- <-; (split; [exact H1|]); intros r Hr; [now injection Hr|discriminate].
Qed.

(** X15.  [_move_idle_frame]: with the current row [current] and the row
    above it both in the list (whose frames are not empty), moving up swaps
    the two frames, leaves every other frame where it was, and makes the row
    above the current one; moving down from there puts the list back as it
    was. *)
Theorem move_idle_frame_up_then_down :
  forall (d d1 : Editor.Desk) (current r1 : Z),
    let frames := config.idle_frames (values (panel (Editor.world d))) in
    Forall (fun path => path <> ""%string) frames ->
    (1 <= current < Z.of_nat (List.length frames))%Z ->
    Editor._move_idle_frame (-1) current d = (Editor.Done r1, d1) ->
    let frames1 := config.idle_frames (values (panel (Editor.world d1))) in
    let back := Editor._move_idle_frame 1 r1 d1 in
    r1 = (current - 1)%Z
    /\ List.length frames1 = List.length frames
    /\ nth_error frames1 (Z.to_nat (current - 1)) = nth_error frames (Z.to_nat current)
    /\ nth_error frames1 (Z.to_nat current) = nth_error frames (Z.to_nat (current - 1))
    /\ (forall k, k <> Z.to_nat current -> k <> Z.to_nat (current - 1) ->
                  nth_error frames1 k = nth_error frames k)
    /\ config.idle_frames (values (panel (Editor.world (snd back)))) = frames
    /\ (forall r2, fst back = Editor.Done r2 -> r2 = current).
Proof.
  intros d d1 current r1. cbv zeta. intros Hne Hc E.
  set (frames := config.idle_frames (values (panel (Editor.world d)))) in *.
  destruct (_move_idle_frame_moves (-1) current d ltac:(lia) ltac:(fold frames; lia)
              ltac:(fold frames; lia))
    as (a_t & a_c & Et & Ec & Em).
  fold frames in Et, Ec, Em.
  replace (current + -1)%Z with (current - 1)%Z in * by lia.
  set (c := Z.to_nat current) in *. set (t := Z.to_nat (current - 1)) in *.
  assert (Hct : c <> t) by (subst c t; lia).
  assert (Hcl : (c < List.length frames)%nat) by (subst c; lia).
  assert (Htl : (t < List.length frames)%nat) by (subst t; lia).
  set (swapped := Editor.setitem t a_c (Editor.setitem c a_t frames)) in *.
  assert (Hlen1 : List.length (Editor.setitem c a_t frames) = List.length frames)
    by now apply setitem_length.
  assert (Hlen : List.length swapped = List.length frames).
  { subst swapped. rewrite setitem_length; lia. }
  assert (Hnth : forall k,
            nth_error swapped k
            = if (k =? t)%nat then Some a_c
              else if (k =? c)%nat then Some a_t else nth_error frames k).
  { intros k. subst swapped. rewrite setitem_nth_error by lia.
    destruct (k =? t)%nat; [reflexivity|]. now apply setitem_nth_error. }
  assert (Hin : forall k x, nth_error frames k = Some x -> x <> ""%string).
  { intros k x Hk. apply nth_error_In in Hk.
    exact (proj1 (Forall_forall _ _) Hne x Hk). }
  assert (Hne1 : Forall (fun path => path <> ""%string) swapped).
  { subst swapped. apply setitem_Forall; [apply setitem_Forall|]; eauto. }
  rewrite Em in E.
  destruct (moved_frames swapped (current - 1) d d1 _ Hne1 E) as (H1 & Hr).
  rewrite H1.
  split; [now apply Hr|].
  assert (Hr1 : r1 = (current - 1)%Z) by now apply Hr.
  subst r1.
  split; [exact Hlen|].
  split; [rewrite Hnth, Nat.eqb_refl; now symmetry|].
  split.
  { rewrite Hnth. replace (c =? t)%nat with false by (symmetry; now apply Nat.eqb_neq).
    rewrite Nat.eqb_refl. now symmetry. }
  split.
  { intros k Hk1 Hk2. rewrite Hnth.
    replace (k =? t)%nat with false by (symmetry; now apply Nat.eqb_neq).
    replace (k =? c)%nat with false by (symmetry; now apply Nat.eqb_neq).
    reflexivity. }
  (* and back *)
  destruct (_move_idle_frame_moves 1 (current - 1) d1 ltac:(lia)
              ltac:(rewrite H1, Hlen; lia) ltac:(rewrite H1, Hlen; lia))
    as (b_t & b_c & Et' & Ec' & Em').
  rewrite H1 in Et', Ec', Em'.
  replace (current - 1 + 1)%Z with current in * by lia.
  fold c in Et', Em'. fold t in Ec', Em'.
  rewrite Hnth in Et', Ec'.
  replace (c =? t)%nat with false in Et' by (symmetry; now apply Nat.eqb_neq).
  rewrite Nat.eqb_refl in Et', Ec'.
  injection Et' as <-. injection Ec' as <-.
  set (restored := Editor.setitem c a_c (Editor.setitem t a_t swapped)) in *.
  assert (Hback : restored = frames).
  { apply nth_error_ext. intros k. subst restored.
    rewrite setitem_nth_error by (rewrite setitem_length; lia).
    rewrite setitem_nth_error by lia. rewrite Hnth.
    destruct (Nat.eqb_spec k c) as [->|Hkc]; [now symmetry|].
    destruct (Nat.eqb_spec k t) as [->|Hkt]; [now symmetry|]. reflexivity. }
  rewrite Em'.
  match goal with
  | |- context [snd ?X] => destruct X as [o d2] eqn:E2
  end.
  assert (Hne2 : Forall (fun path => path <> ""%string) restored)
    by (rewrite Hback; exact Hne).
  destruct (moved_frames restored current d1 d2 o Hne2 E2) as (H2 & Hr2).
  cbn [fst snd]. split; [now rewrite H2|exact Hr2].
Qed.

Lemma move_idle_frame_up_then_down_witness :
  let d1 := snd (Editor._move_idle_frame (-1) 1 sample_desk) in
  config.idle_frames (values (panel (Editor.world d1))) = ["b.png"; "a.png"; "c.png"]%string
  /\ config.idle_frames
       (values (panel (Editor.world (snd (Editor._move_idle_frame 1 0 d1)))))
     = ["a.png"; "b.png"; "c.png"]%string.
Proof.
  pose proof (move_idle_frame_up_then_down sample_desk
                (snd (Editor._move_idle_frame (-1) 1 sample_desk)) 1 0) as H.
  cbv zeta in H.
  assert (F : config.idle_frames (values (panel (Editor.world sample_desk)))
              = ["a.png"; "b.png"; "c.png"]%string) by (vm_compute; reflexivity).
  rewrite F in H.
  destruct H as (_ & _ & _ & _ & _ & H & _).
  - repeat constructor; discriminate.
  - cbn [List.length]. lia.
  - vm_compute. reflexivity.
  - split; [vm_compute; reflexivity|exact H].
Defined.

(** ** The rows of the talk frames *)

Section TalkRows.
#[local] Open Scope float_scope.

Let has_image := fun frame : config.talk_frame => PanelWindow.nonempty (config.image frame).


(** Sorting after filtering, twice, is sorting after filtering once when no
    threshold is a NaN. *)
Lemma sorted_twice (frames : list config.talk_frame) :
  Forall (fun frame => (config.threshold frame <=? config.threshold frame) = true) frames ->
  let sorted := list_sort config.threshold (filter has_image frames) in
  list_sort config.threshold (filter has_image sorted) = sorted.
Proof.
  intros H. cbv zeta.
  assert (Hf : Forall (fun frame => has_image frame = true) (filter has_image frames)).
  { apply Forall_forall. intros x Hx. now apply filter_In in Hx. }
  assert (Hc : Forall (fun frame => (config.threshold frame <=? config.threshold frame) = true)
                 (filter has_image frames)).
  { apply Forall_forall. intros x Hx. apply filter_In in Hx as [Hx _].
    exact (proj1 (Forall_forall _ _) H x Hx). }
  rewrite (filter_id has_image).
  - now apply list_sort_idem.
  - exact (Permutation_Forall (list_sort_perm config.threshold _) Hf).
Qed.


Lemma _sorted_talk_frames_bind (k : M unit) (w : World) :
  (Editor._sorted_talk_frames ;;; k) w
  = k (with_panel
         (set_values
            (PanelWindow.with_talk_frames
               (list_sort config.threshold
                  (filter has_image (config.talk_frames (values (panel w)))))
               (values (panel w)))
            (panel w)) w).
Proof. reflexivity. Qed.

(** The two bodies of the slots of the talk rows: the frames are written,
    sorted (once by the slot, once more by [_rebuild_talk_rows]) and the
    avatar reloads. *)
Lemma talk_rows_sorted_twice (frames : list config.talk_frame) (w : World) :
  let body :=
    update_panel (fun p => set_values (PanelWindow.with_talk_frames frames (values p)) p) ;;;
    Editor._sorted_talk_frames ;;;
    Editor._rebuild_talk_rows ;;;
    PanelWindow._reload_avatar_images in
  let w' := snd (body w) in
  config.talk_frames (values (panel w'))
  = list_sort config.threshold
      (filter has_image (list_sort config.threshold (filter has_image frames)))
  /\ config.talk_th (values (panel w')) = config.talk_th (values (panel w))
  /\ images_agree w'.
Proof.
  cbv zeta. rewrite bind_update_panel.
  rewrite _sorted_talk_frames_bind, _rebuild_talk_rows_bind, _sorted_talk_frames_bind.
  match goal with
  | |- context [PanelWindow._reload_avatar_images ?w3] =>
      pose proof (proj1 (editing_footprint _ editing_reload w3)) as Hi;
      destruct (_reload_avatar_images_exact w3) as (r & t & g & calls & E & _)
  end.
  cbv zeta in E, Hi. rewrite E in Hi |- *. cbn [snd] in *.
  split; [reflexivity|]. split; [reflexivity|exact Hi].
Qed.

Lemma talk_rows_sorted_once (frames : list config.talk_frame) (w : World) :
  let body :=
    update_panel (fun p => set_values (PanelWindow.with_talk_frames frames (values p)) p) ;;;
    Editor._rebuild_talk_rows ;;;
    PanelWindow._reload_avatar_images in
  let w' := snd (body w) in
  config.talk_frames (values (panel w'))
  = list_sort config.threshold (filter has_image frames)
  /\ config.talk_th (values (panel w')) = config.talk_th (values (panel w))
  /\ images_agree w'.
Proof.
  cbv zeta. rewrite bind_update_panel.
  rewrite _rebuild_talk_rows_bind, _sorted_talk_frames_bind.
  match goal with
  | |- context [PanelWindow._reload_avatar_images ?w3] =>
      pose proof (proj1 (editing_footprint _ editing_reload w3)) as Hi;
      destruct (_reload_avatar_images_exact w3) as (r & t & g & calls & E & _)
  end.
  cbv zeta in E, Hi. rewrite E in Hi |- *. cbn [snd] in *.
  split; [reflexivity|]. split; [reflexivity|exact Hi].
Qed.

(** A slot that ends with [_sync_talk_markers]: where it leaves the state
    of the engine, and the markers when it returns. *)
Lemma synced_effect (body : M unit) (d : Editor.Desk) :
  let X := Editor.and_then (Editor.on_world body) (fun _ => Editor._sync_talk_markers) d in
  let w' := snd (body (Editor.world d)) in
  values (panel (Editor.world (snd X))) = values (panel w')
  /\ avatar (Editor.world (snd X)) = avatar w'
  /\ readable (Editor.world (snd X)) = readable w'
  /\ (fst X = Editor.Done tt ->
      Editor.markers (snd X)
      = level_meter.set_thresholds (config.talk_th (values (panel w')))
          (map config.threshold (config.talk_frames (values (panel w'))))
          (Editor.markers d)).
Proof.
  cbv zeta. unfold Editor.and_then, Editor.on_world.
  destruct (body (Editor.world d)) as [[u|e] w']; cbn.
  - repeat split.
  - repeat split. discriminate.
Qed.







(** What sorting leaves of frames that have an image and a threshold that
    is at least zero. *)
Lemma sorted_normalized (frames : list config.talk_frame) :
  Forall (fun frame => (config.image frame =? "")%string = false
                       /\ (0 <=? config.threshold frame) = true) frames ->
  let sorted := list_sort config.threshold frames in
  list_sort config.threshold
    (filter has_image (list_sort config.threshold (filter has_image frames))) = sorted
  /\ Permutation frames sorted
  /\ frames_normalized sorted.
Proof.
  intros H. cbv zeta.
  assert (Hi : Forall (fun frame => has_image frame = true) frames).
  { revert H. apply Forall_impl. intros frame [Hi _].
    unfold has_image, PanelWindow.nonempty. now rewrite Hi. }
  assert (Hc : Forall (fun frame =>
                         (config.threshold frame <=? config.threshold frame) = true) frames).
  { revert H. apply Forall_impl. intros frame [_ Ht]. exact (leb_self_r _ _ Ht). }
  split; [|split; [apply list_sort_perm|split]].
  - pose proof (sorted_twice frames Hc) as E. cbv zeta in E. rewrite E.
    now rewrite (filter_id has_image _ Hi).
  - exact (Permutation_Forall (list_sort_perm config.threshold _) H).
  - now apply list_sort_strongly_sorted.
Qed.

End TalkRows.



Example add_talk_frame_row_example :
  map config.image (config.talk_frames (values (panel (Editor.world rows_desk))))
  = ["soft.png"; "loud.png"]%string
  /\ config.talk_frames
       (values (panel (Editor.world (snd (Editor._add_talk_frame_row rows_desk)))))
     = config.talk_frames (values (panel (Editor.world rows_desk)))
  /\ map config.image
       (config.talk_frames
          (values (panel (Editor.world (snd (Editor._add_talk_frame_row sample_desk))))))
     = ["talk.png"]%string.
Proof. vm_compute. repeat split. Qed.





Example update_talk_row_threshold_example :
  let d' := snd (Editor._update_talk_row_threshold 0 0.3%float rows_desk) in
  map config.image (config.talk_frames (values (panel (Editor.world rows_desk))))
  = ["soft.png"; "loud.png"]%string
  /\ config.talk_frames (values (panel (Editor.world d')))
     = [ {| config.image := "loud.png"; config.threshold := 0.2%float |};
         {| config.image := "soft.png"; config.threshold := 0.3%float |} ]
  /\ level_meter.talk_levels (Editor.markers d') = [0.2%float; 0.3%float]
  /\ map fst (talk_variants (avatar (Editor.world d'))) = [0.2%float; 0.3%float].
Proof. vm_compute. repeat split. Qed.



Example remove_talk_row_example :
  let d' := snd (Editor._remove_talk_row 0 rows_desk) in
  map config.image (config.talk_frames (values (panel (Editor.world d'))))
  = ["loud.png"]%string
  /\ level_meter.talk_levels (Editor.markers d') = [0.2%float]
  /\ Editor._remove_talk_row 2 rows_desk = (Editor.Done tt, rows_desk).
Proof. vm_compute. repeat split. Qed.






Lemma talk_image_written (path : string) (w : World) :
  let m := update_panel (fun p => set_values (Editor.with_talk_image path (values p)) p) ;;;
           PanelWindow._reload_avatar_images in
  values (panel (snd (m w))) = Editor.with_talk_image path (values (panel w))
  /\ images_agree (snd (m w)).
Proof.
  cbv zeta. split.
  - rewrite bind_update_panel.
    match goal with
    | |- context [PanelWindow._reload_avatar_images ?w1] =>
        destruct (_reload_avatar_images_exact w1) as (r & t & g & calls & E & _)
    end.
    cbv zeta in E. rewrite E. reflexivity.
  - refine (proj1 (editing_footprint _ _ w)).
    apply (editing_write (Editor.with_talk_image path)); [|constructor].
    intros v. repeat split.
Qed.



(** ** The talk rows through a session *)

Section Rows.

Variable round : float -> Z -> float.

Lemma perform_values (a : Editor.action) (d : Editor.Desk) :
  values (panel (Editor.world (Editor.perform round a d)))
  = values (panel (Editor.world (snd (Editor.act round a d)))).
Proof.
  destruct (Editor.act round a d) as [r d'] eqn:E.
  destruct (perform_end round a d r d' E) as (calls & ->). reflexivity.
Qed.

Lemma _set_idle_frames_talk_frames (frames : list string) (w : World) :
  config.talk_frames (values (panel (snd (PanelWindow._set_idle_frames frames w))))
  = config.talk_frames (values (panel w)).
Proof.
  pose proof (slot_values (fun x _ => x) (idle_frames_chosen frames) w) as Hv.
  cbv zeta in Hv. cbn [slot] in Hv. rewrite Hv. reflexivity.
Qed.

(** What [_sorted_talk_frames] makes of rows whose thresholds are at least
    zero. *)
Lemma rows_rebuilt_normalized (written : list config.talk_frame) :
  Forall (fun frame => (0 <=? config.threshold frame)%float = true) written ->
  let rebuilt :=
    list_sort config.threshold
      (filter (fun frame => PanelWindow.nonempty (config.image frame)) written) in
  frames_normalized rebuilt
  /\ list_sort config.threshold
       (filter (fun frame => PanelWindow.nonempty (config.image frame)) rebuilt)
     = rebuilt.
Proof.
  intros H. cbv zeta.
  set (has_image := fun frame : config.talk_frame => PanelWindow.nonempty (config.image frame)).
  assert (Hall : Forall (fun frame => (config.image frame =? "")%string = false
                                      /\ (0 <=? config.threshold frame)%float = true)
                   (filter has_image written)).
  { apply Forall_forall. intros frame Hin. apply filter_In in Hin as [Hin Hi].
    split.
    - unfold has_image, PanelWindow.nonempty in Hi. now apply Bool.negb_true_iff in Hi.
    - exact (proj1 (Forall_forall _ _) H frame Hin). }
  destruct (sorted_normalized _ Hall) as (E & _ & Hs). cbv zeta in E, Hs.
  fold has_image in E. rewrite filter_filter in E.
  split; [exact Hs|exact E].
Qed.

Lemma normalized_thresholds (frames : list config.talk_frame) :
  frames_normalized frames ->
  Forall (fun frame => (0 <=? config.threshold frame)%float = true) frames.
Proof. intros [H _]. revert H. apply Forall_impl. now intros frame [_ H]. Qed.

Lemma update_row_Forall (P : config.talk_frame -> Prop) (i : nat)
    (f : config.talk_frame -> config.talk_frame) (frames : list config.talk_frame) :
  Forall P frames -> (forall frame, P frame -> P (f frame)) ->
  Forall P (Editor.update_row i f frames).
Proof.
  intros H Hf. unfold Editor.update_row.
  destruct (nth_error frames i) as [frame|] eqn:E; [|exact H].
  apply setitem_Forall; [exact H|]. apply Hf.
  apply nth_error_In in E. exact (proj1 (Forall_forall _ _) H frame E).
Qed.

Lemma normalize_values_normalized (v : config.Values) :
  frames_normalized (config.talk_frames (PanelWindow._normalize_values v)).
Proof.
  change (config.talk_frames (PanelWindow._normalize_values v))
    with (list_sort config.threshold
            (PanelWindow.normalize_talk_frames (config.talk_frames v))).
  pose proof (normalize_talk_frames_clamped (config.talk_frames v)) as H.
  pose proof (Permutation_Forall (list_sort_perm config.threshold _) H) as H'.
  split.
  - revert H'. apply Forall_impl. intros frame [Hi Ht].
    split; [exact Hi|now apply max0_fixed_nonneg].
  - apply list_sort_strongly_sorted. now apply clamped_comparable.
Qed.

(** No action of a session leaves the talk rows other than normalized. *)
Lemma act_rows (a : Editor.action) (d : Editor.Desk) :
  (forall index value, a = Editor.row_spin_valueChanged index value ->
                       (0 <=? value)%float = true) ->
  talk_th_clamped (values (panel (Editor.world d))) ->
  frames_normalized (config.talk_frames (values (panel (Editor.world d)))) ->
  frames_normalized
    (config.talk_frames (values (panel (Editor.world (snd (Editor.act round a d)))))).
Proof.
  intros Hval Hth Hn.
  pose proof (normalized_thresholds _ Hn) as Hts.
  destruct a as [e|dialog|selected|direction current|yes|kind dialog| |index picked
                |index value|index].
  - (* engine *)
    assert (Hv : values (panel (Editor.world (snd (Editor.act round (Editor.engine e) d))))
                 = values (panel (snd (slot round e (Editor.world d))))).
    { destruct e; cbn [Editor.act]; try (rewrite on_world_snd; reflexivity).
      exact (proj1 (synced_effect _ d)). }
    rewrite Hv. pose proof (slot_values round e (Editor.world d)) as Hs.
    cbv zeta in Hs. rewrite Hs.
    destruct e as [rms|now| |state|kind value|value|frames|value]; try exact Hn.
    destruct (kind =? "min")%string; exact Hn.
  - (* add_idle_clicked *)
    cbn [Editor.act]. rewrite on_world_snd. destruct dialog as [selected|]; [|exact Hn].
    unfold Editor._add_idle_frames. rewrite bind_get, _set_idle_frames_talk_frames.
    exact Hn.
  - (* remove_idle_clicked *)
    cbn [Editor.act]. rewrite on_world_snd. unfold Editor._remove_idle_frames.
    destruct (Editor.sorted_rows selected); [exact Hn|].
    rewrite bind_get, _set_idle_frames_talk_frames. exact Hn.
  - (* move_idle_clicked *)
    cbn [Editor.act].
    destruct (_move_idle_frame_cases direction current d)
      as [E|[E|(at_target & at_current & _ & _ & _ & _ & _ & E)]].
    + unfold Editor.and_then. rewrite E. exact Hn.
    + unfold Editor.and_then. rewrite E. exact Hn.
    + match type of E with
      | _ = Editor.and_then (Editor.on_world (PanelWindow._set_idle_frames ?fr)) _ _ =>
          pose proof (_set_idle_frames_talk_frames fr (Editor.world d)) as K
      end.
      unfold Editor.and_then at 1. rewrite E.
      unfold Editor.and_then, Editor.on_world.
      destruct (PanelWindow._set_idle_frames _ (Editor.world d)) as [[u|e] w];
        cbn in *; rewrite K; exact Hn.
  - (* clear_idle_clicked *)
    cbn [Editor.act]. rewrite on_world_snd. destruct yes; [|exact Hn].
    unfold Editor._clear_idle_frames.
    rewrite bind_update_panel, _set_idle_frames_talk_frames. exact Hn.
  - (* browse_clicked *)
    cbn [Editor.act]. unfold Editor._pick_image.
    destruct dialog as [[|path rest]|]; [exact Hn| |exact Hn].
    destruct (kind =? "talk")%string; rewrite on_world_snd.
    + rewrite (proj1 (talk_image_written path (Editor.world d))). exact Hn.
    + rewrite _set_idle_frames_talk_frames. exact Hn.
  - (* add_level_clicked *)
    cbn [Editor.act]. unfold Editor._add_talk_frame_row.
    set (v := values (panel (Editor.world d))) in *.
    set (new := {| config.image := config.talk_image v;
                   config.threshold := config.talk_th v |}).
    match goal with
    | |- context [Editor.and_then (Editor.on_world ?body) _ d] =>
        destruct (synced_effect body d) as (Sv & _);
        assert (Eb : body (Editor.world d)
                     = (update_panel (fun p =>
                          set_values
                            (PanelWindow.with_talk_frames (config.talk_frames v ++ [new])
                               (values p)) p) ;;;
                        Editor._sorted_talk_frames ;;;
                        Editor._rebuild_talk_rows ;;;
                        PanelWindow._reload_avatar_images) (Editor.world d))
          by reflexivity
    end.
    cbv zeta in Sv. rewrite Eb in Sv. clear Eb. rewrite Sv.
    rewrite (proj1 (talk_rows_sorted_twice (config.talk_frames v ++ [new]) (Editor.world d))).
    assert (Hw : Forall (fun frame => (0 <=? config.threshold frame)%float = true)
                   (config.talk_frames v ++ [new])).
    { apply Forall_app. split; [exact Hts|]. constructor; [|constructor].
      cbn. apply (leb_trans _ 0.001%float); [reflexivity|exact (proj1 Hth)]. }
    destruct (rows_rebuilt_normalized _ Hw) as (H1 & H2). cbv zeta in H1, H2.
    rewrite H2. exact H1.
  - (* row_browse_clicked *)
    cbn [Editor.act]. rewrite on_world_snd. unfold Editor._pick_talk_row_image.
    rewrite bind_get.
    destruct (Editor.in_range index _); cbn [negb]; [|exact Hn].
    destruct picked as [path|]; [|exact Hn].
    destruct (path =? "")%string; [exact Hn|].
    match goal with
    | |- context [PanelWindow.with_talk_frames ?written _] =>
        rewrite (proj1 (talk_rows_sorted_once written (Editor.world d)));
        apply rows_rebuilt_normalized
    end.
    apply update_row_Forall; [exact Hts|]. intros frame H. exact H.
  - (* row_spin_valueChanged *)
    cbn [Editor.act]. unfold Editor._update_talk_row_threshold.
    destruct (Editor.in_range index _); cbn [negb]; [|exact Hn].
    match goal with
    | |- context [Editor.and_then (Editor.on_world ?body) _ d] =>
        rewrite (proj1 (synced_effect body d))
    end.
    match goal with
    | |- context [PanelWindow.with_talk_frames ?written _] =>
        rewrite (proj1 (talk_rows_sorted_twice written (Editor.world d)));
        assert (Hw : Forall (fun frame => (0 <=? config.threshold frame)%float = true)
                       written)
    end.
    { apply update_row_Forall; [exact Hts|]. intros frame _. exact (Hval _ _ eq_refl). }
    destruct (rows_rebuilt_normalized _ Hw) as (H1 & H2). cbv zeta in H1, H2.
    rewrite H2. exact H1.
  - (* row_remove_clicked *)
    cbn [Editor.act]. unfold Editor._remove_talk_row.
    destruct (Editor.in_range index _); cbn [negb]; [|exact Hn].
    match goal with
    | |- context [Editor.and_then (Editor.on_world ?body) _ d] =>
        rewrite (proj1 (synced_effect body d))
    end.
    match goal with
    | |- context [PanelWindow.with_talk_frames ?written _] =>
        rewrite (proj1 (talk_rows_sorted_once written (Editor.world d)));
        apply rows_rebuilt_normalized
    end.
    unfold Editor.pop. apply Forall_app.
    split; [exact (proj1 (Forall_split _ _ _ Hts))|exact (proj2 (Forall_split _ _ _ Hts))].
Qed.

Lemma perform_talk_th (a : Editor.action) (d : Editor.Desk) :
  talk_th_clamped (values (panel (Editor.world d))) ->
  talk_th_clamped (values (panel (Editor.world (Editor.perform round a d)))).
Proof.
  intros H. destruct (act_world round a d) as (m & calls & Hm & ->).
  change (talk_th_clamped (values (panel (snd (m (Editor.world d)))))).
  apply (keeps_snd (fun w => talk_th_clamped (values (panel w)))); [|exact H].
  exact (world_slot_talk_th round a m Hm).
Qed.

Lemma session_rows (actions : list Editor.action) (d : Editor.Desk) :
  thresholds_in_range actions ->
  talk_th_clamped (values (panel (Editor.world d))) ->
  frames_normalized (config.talk_frames (values (panel (Editor.world d)))) ->
  frames_normalized
    (config.talk_frames (values (panel (Editor.world (Editor.session round actions d))))).
Proof.
  revert d. induction actions as [|a actions IH]; intros d Hok Hth Hn; [exact Hn|].
  rewrite session_cons. apply IH.
  - intros index value Hin. apply (Hok index value). now right.
  - now apply perform_talk_th.
  - rewrite perform_values. apply act_rows; [|exact Hth|exact Hn].
    intros index value ->. apply (Hok index value). now left.
Qed.

End Rows.

(** X24.  When the panel has opened and every threshold a spin box of the
    talk rows delivers is at least zero, the talk frames of the settings are
    normalized from the start and after any actions of a session: no frame
    has an empty image, every threshold is at least zero, and the frames are
    in ascending order of threshold. *)
Theorem talk_rows_stay_normalized :
  forall (round : float -> Z -> float) (persisted : config.Values) (now : float)
         (g : random.state) (files : string -> bool) (actions : list Editor.action),
    fst (main round persisted now g files) = Ok tt ->
    thresholds_in_range actions ->
    frames_normalized
      (config.talk_frames
         (values (panel (Editor.world (Editor.session round actions
                                         (Editor.opened round persisted now g files)))))).
Proof.
  intros round persisted now g files actions Hok Hval.
  apply session_rows; [exact Hval| |].
  - exact (main_talk_th round persisted now g files Hok).
  - pose proof (main_state round persisted now g files) as (_ & H2 & _).
    cbv zeta in H2. unfold image_settings in H2. injection H2 as _ _ I3 _.
    change (Editor.world (Editor.opened round persisted now g files))
      with (snd (main round persisted now g files)).
    rewrite I3. apply normalize_values_normalized.
Qed.

Lemma talk_rows_stay_normalized_witness :
  frames_normalized
    (config.talk_frames
       (values (panel (Editor.world (Editor.session sample_round sample_session
                                       sample_desk))))).
Proof.
  apply (talk_rows_stay_normalized sample_round sample_settings 100%float sample_rng
           all_files sample_session).
  - reflexivity.
  - intros index value Hin. cbn in Hin.
    repeat (destruct Hin as [Hin|Hin];
            [first [discriminate Hin|injection Hin as _ <-; reflexivity]|]).
    contradiction.
Defined.
